(** * Storage columns of the trace processor

    A shallow embedding of [src/trace_processor/storage_columns.h]: the
    [StorageColumn] interface, its [Bounds], and the column kinds
    [NumericColumn<T>], [StringColumn<Id>], [TsEndColumn] and [IdColumn].

    Conventions.
    - [uint32_t] quantities stored in [Bounds] are integers of [Z] with the
      truncation of [static_cast<uint32_t>] written out.
    - Row indices index a [std::deque], modelled as a [list]; a row is a
      [nat] and [deque[row]] is the list lookup [deque !! row].  Reading a
      row that the deque does not hold is undefined in the source and is
      reported as [OutOfContract].
    - [double] is IEEE 754 binary64, the type [float] of the kernel.
    - A method that can abort the process returns a [result].
    - A method is first a function of the objects it reads; module
      [Effects] has the same bodies as computations on the memory the
      pointers of the source lead to. *)

From Stdlib Require Import ZArith Lia Bool Ascii String Floats Uint63 Sorted Permutation.
From Stdlib Require OrderedTypeEx.
From stdpp Require Import base list.
From Equations Require Import Equations.

Local Open Scope Z_scope.

(** ** Outcomes of a call *)

(** [Fatal msg] is [PERFETTO_FATAL(msg)]; [OutOfContract] is a call for
    which neither the source nor the specification defines a value (a row
    the deque does not hold, an operator without a binary test, a literal
    the comparison domain cannot be extracted from). *)
Inductive result (A : Type) : Type :=
| Ok (a : A)
| Fatal (msg : string)
| OutOfContract.
Arguments Ok {A} a.
Arguments Fatal {A} msg.
Arguments OutOfContract {A}.

#[global] Instance result_ret : MRet result := fun A a => Ok a.

#[global] Instance result_bind : MBind result := fun A B k m =>
  match m with
  | Ok a => k a
  | Fatal msg => Fatal msg
  | OutOfContract => OutOfContract
  end.

#[global] Instance result_fmap : FMap result := fun A B f m =>
  match m with
  | Ok a => Ok (f a)
  | Fatal msg => Fatal msg
  | OutOfContract => OutOfContract
  end.

Definition at_row {A} (deque : list A) (row : nat) : result A :=
  match deque !! row with
  | Some x => Ok x
  | None => OutOfContract
  end.

(** ** <cstdint> *)

Definition uint32_max : Z := 2 ^ 32 - 1.
Definition int64_min : Z := - 2 ^ 63.
Definition int64_max : Z := 2 ^ 63 - 1.

(** [static_cast<uint32_t>(n)] for a non-negative size or distance [n]. *)
Definition static_cast_uint32 (n : Z) : Z := n mod 2 ^ 32.

(** [static_cast<double>(z)] for a 64-bit signed integer [z]: the nearest
    binary64 value. *)
Definition double_of_int64 (z : Z) : float :=
  if z =? int64_min then PrimFloat.opp (PrimFloat.mul 2 (PrimFloat.of_uint63 (Uint63.of_Z (2 ^ 62))))
  else if 0 <=? z then PrimFloat.of_uint63 (Uint63.of_Z z)
  else PrimFloat.opp (PrimFloat.of_uint63 (Uint63.of_Z (- z))).

(** ** <algorithm>: binary searches over a random-access range *)

Module std.

Lemma half_lt (n : nat) : (S n / 2 < S n)%nat.
Proof. apply Nat.div_lt; lia. Qed.

(** The loop shared by [std::lower_bound] and [std::upper_bound]: the
    range is [first, first + len) and [go_right x] tells whether the
    search continues after the probed element [x]. *)
Equations? bisect {T : Type} (go_right : T -> bool) (deque : list T)
    (first len : nat) : nat by wf len lt :=
  bisect go_right deque first 0%nat := first;
  bisect go_right deque first len :=
    let half := (len / 2)%nat in
    let middle := (first + half)%nat in
    match deque !! middle with
    | Some x =>
        if go_right x
        then bisect go_right deque (middle + 1)%nat (len - half - 1)%nat
        else bisect go_right deque first half
    | None => first
    end.
Proof.
  all: pose proof (half_lt n) as Hh;
    change (S n / 2)%nat with (fst (Nat.divmod n 1 0 0)) in Hh; lia.
Qed.

(** [std::lower_bound(begin + first, begin + last, value)], as an index:
    advance while [*middle < value]. *)
Definition lower_bound {T} (less : T -> T -> bool) (deque : list T)
    (first last : nat) (value : T) : nat :=
  bisect (fun x => less x value) deque first (last - first)%nat.

(** [std::upper_bound(begin + first, begin + last, value)], as an index:
    advance unless [value < *middle]. *)
Definition upper_bound {T} (less : T -> T -> bool) (deque : list T)
    (first last : nat) (value : T) : nat :=
  bisect (fun x => negb (less value x)) deque first (last - first)%nat.

End std.

(** ** sqlite3.h: the part of SQLite's interface the columns use *)

Inductive sqlite3_type : Set :=
| SQLITE_INTEGER
| SQLITE_FLOAT
| SQLITE_TEXT
| SQLITE_NULL.

#[global] Instance sqlite3_type_eq_dec : EqDecision sqlite3_type.
Proof. solve_decision. Defined.

(** The dynamic value handed over with a constraint: 64-bit signed integer,
    64-bit floating point, text or null. *)
Inductive sqlite3_value : Set :=
| SqlInteger (i : Z)
| SqlFloat (d : float)
| SqlText (s : string)
| SqlNull.

Definition sqlite3_value_type (value : sqlite3_value) : sqlite3_type :=
  match value with
  | SqlInteger _ => SQLITE_INTEGER
  | SqlFloat _ => SQLITE_FLOAT
  | SqlText _ => SQLITE_TEXT
  | SqlNull => SQLITE_NULL
  end.

(** The result slot of a [sqlite3_context], written by the
    [sqlite3_result_*] family. *)
Record sqlite3_context : Set := { ctx_result : option sqlite3_value }.

Definition sqlite3_result_null (ctx : sqlite3_context) : sqlite3_context :=
  {| ctx_result := Some SqlNull |}.

(** The characters of a C string: those before the first NUL of the buffer
    (the buffer of [std::string::c_str] ends with one more NUL). *)
Fixpoint until_nul (z : string) : string :=
  match z with
  | EmptyString => EmptyString
  | String c rest => if Ascii.eqb c Ascii.zero then EmptyString else String c (until_nul rest)
  end.

(** [sqlite3_result_text(ctx, z, n, destructor)]: with a negative [n] the
    text is read from [z] up to its first NUL, otherwise it is the first [n]
    bytes of [z]. *)
Definition sqlite3_result_text (ctx : sqlite3_context) (z : string) (n : Z)
    : sqlite3_context :=
  {| ctx_result :=
       Some (SqlText (if n <? 0 then until_nul z else substring 0 (Z.to_nat n) z)) |}.
Definition sqlite3_result_int64 (ctx : sqlite3_context) (i : Z) : sqlite3_context :=
  {| ctx_result := Some (SqlInteger i) |}.
(** [sqlite3_result_double(ctx, d)]: SQLite stores NULL for a NaN. *)
Definition sqlite3_result_double (ctx : sqlite3_context) (d : float) : sqlite3_context :=
  {| ctx_result := Some (if PrimFloat.is_nan d then SqlNull else SqlFloat d) |}.

(** Constraint operators, the [SQLITE_INDEX_CONSTRAINT_*] codes. *)
Definition SQLITE_INDEX_CONSTRAINT_EQ : Z := 2.
Definition SQLITE_INDEX_CONSTRAINT_GT : Z := 4.
Definition SQLITE_INDEX_CONSTRAINT_LE : Z := 8.
Definition SQLITE_INDEX_CONSTRAINT_LT : Z := 16.
Definition SQLITE_INDEX_CONSTRAINT_GE : Z := 32.
Definition SQLITE_INDEX_CONSTRAINT_NE : Z := 68.

(** ** sqlite_utils.h *)

Module sqlite_utils.

(** Modelled from the spec: [IsOpEq] and its siblings of sqlite_utils.h are
    not in the source tree; section 6 names the operator vocabulary (equal,
    not-equal, less-than, less-or-equal, greater-than, greater-or-equal),
    each operator being one constraint code. *)
Definition IsOpEq (op : Z) : bool := op =? SQLITE_INDEX_CONSTRAINT_EQ.
Definition IsOpGe (op : Z) : bool := op =? SQLITE_INDEX_CONSTRAINT_GE.
Definition IsOpGt (op : Z) : bool := op =? SQLITE_INDEX_CONSTRAINT_GT.
Definition IsOpLe (op : Z) : bool := op =? SQLITE_INDEX_CONSTRAINT_LE.
Definition IsOpLt (op : Z) : bool := op =? SQLITE_INDEX_CONSTRAINT_LT.
Definition IsOpNe (op : Z) : bool := op =? SQLITE_INDEX_CONSTRAINT_NE.

(** What the templates of sqlite_utils.h ask of a comparison domain [C]:
    [==], [<], [<=] and the extraction of a literal of that domain. *)
Record Domain (C : Type) : Type := {
  dom_eq : C -> C -> bool;
  dom_lt : C -> C -> bool;
  dom_le : C -> C -> bool;
  ExtractSqliteValue : sqlite3_value -> result C
}.
Arguments dom_eq {C} _ _ _.
Arguments dom_lt {C} _ _ _.
Arguments dom_le {C} _ _ _.
Arguments ExtractSqliteValue {C} _ _.

(** Modelled from the spec: [ExtractSqliteValue<int64_t>] of sqlite_utils.h
    is not in the source tree; the literal of an integer value is that
    integer, and no other kind of value holds one. *)
Definition ExtractSqliteValue_int64 (value : sqlite3_value) : result Z :=
  match value with
  | SqlInteger i => Ok i
  | _ => OutOfContract
  end.

(** Modelled from the spec: [ExtractSqliteValue<double>] of sqlite_utils.h is
    not in the source tree; an integer or floating-point value is read in
    the floating-point domain (section 4.2), no other kind holds a number. *)
Definition ExtractSqliteValue_double (value : sqlite3_value) : result float :=
  match value with
  | SqlInteger i => Ok (double_of_int64 i)
  | SqlFloat d => Ok d
  | _ => OutOfContract
  end.

Definition int64_domain : Domain Z :=
  {| dom_eq := Z.eqb; dom_lt := Z.ltb; dom_le := Z.leb;
     ExtractSqliteValue := ExtractSqliteValue_int64 |}.

Definition double_domain : Domain float :=
  {| dom_eq := PrimFloat.eqb; dom_lt := PrimFloat.ltb; dom_le := PrimFloat.leb;
     ExtractSqliteValue := ExtractSqliteValue_double |}.

(** Modelled from the spec: [GetPredicateForOp<C>] of sqlite_utils.h is not
    in the source tree; it is the operator-specific binary test of section
    4.2, applied as [test stored literal].  The specification gives a test
    to the six comparison operators only. *)
Definition GetPredicateForOp {C} (D : Domain C) (op : Z) : result (C -> C -> bool) :=
  if IsOpEq op then Ok (dom_eq D)
  else if IsOpGe op then Ok (fun a b => dom_le D b a)
  else if IsOpGt op then Ok (fun a b => dom_lt D b a)
  else if IsOpLe op then Ok (dom_le D)
  else if IsOpLt op then Ok (dom_lt D)
  else if IsOpNe op then Ok (fun a b => negb (dom_eq D a b))
  else OutOfContract.

(** Modelled from the spec: [CompareValuesAsc] of sqlite_utils.h is not in
    the source tree; it is the natural three-way comparison of two raw
    values (section 4.2). *)
Definition CompareValuesAsc {T} (less : T -> T -> bool) (f s : T) : Z :=
  if less f s then -1 else if less s f then 1 else 0.

(** Modelled from the spec: [CompareValuesDesc] of sqlite_utils.h is not in
    the source tree; the descending comparison is the negation of the
    ascending one (section 4.2). *)
Definition CompareValuesDesc {T} (less : T -> T -> bool) (f s : T) : Z :=
  - CompareValuesAsc less f s.

(** The three bound helpers [FindGtBound<T>], [FindLtBound<T>] and
    [FindEqBound<T>] of sqlite_utils.h are not in the source tree and the
    specification does not say what they compute: they are parameters of
    [NumericColumn<T>::BoundFilter]. *)
Record BoundUtils (T : Type) : Type := {
  FindGtBound : bool -> sqlite3_value -> T;
  FindLtBound : bool -> sqlite3_value -> T;
  FindEqBound : sqlite3_value -> T
}.
Arguments FindGtBound {T} _ _ _.
Arguments FindLtBound {T} _ _ _.
Arguments FindEqBound {T} _ _.

End sqlite_utils.

(** ** filtered_row_index.h *)

(** Modelled from the spec: [FilteredRowIndex] is not in the source tree; it
    is the candidate row set of one scan (section 3), here the rows in
    scan order. *)
Definition FilteredRowIndex : Set := list nat.

(** Modelled from the spec: [FilteredRowIndex::FilterRows] is not in the
    source tree; it intersects the current candidate set with a predicate
    on row indices (section 6).  The predicate is called on each candidate
    row. *)
Fixpoint FilterRows (predicate : nat -> result bool) (index : FilteredRowIndex)
    : result FilteredRowIndex :=
  match index with
  | [] => Ok []
  | row :: rest =>
      keep ← predicate row;
      rest' ← FilterRows predicate rest;
      Ok (if keep : bool then row :: rest' else rest')
  end.

(** ** table.h and query_constraints.h *)

Inductive ColumnType : Set := kString | kUint | kLong | kInt | kDouble | kUlong.

Record OrderBy : Set := { iColumn : Z; desc : bool }.

(** ** StorageColumn *)

Module StorageColumn.

Record Bounds : Set := {
  min_idx : Z;
  max_idx : Z;
  consumed : bool
}.

(** A default-constructed [Bounds], from the member initialisers. *)
Definition Bounds_default : Bounds :=
  {| min_idx := 0; max_idx := uint32_max; consumed := false |}.

Definition with_max_idx (bounds : Bounds) (v : Z) : Bounds :=
  {| min_idx := min_idx bounds; max_idx := v; consumed := consumed bounds |}.
Definition with_min_idx (bounds : Bounds) (v : Z) : Bounds :=
  {| min_idx := v; max_idx := max_idx bounds; consumed := consumed bounds |}.
Definition with_consumed (bounds : Bounds) (v : bool) : Bounds :=
  {| min_idx := min_idx bounds; max_idx := max_idx bounds; consumed := v |}.

Definition Predicate : Type := nat -> result bool.
Definition Comparator : Type := nat -> nat -> result Z.

End StorageColumn.
Export StorageColumn.

(** ** The element types of [NumericColumn<T>] *)

Inductive cpp_type : Set :=
| cpp_int32_t | cpp_uint8_t | cpp_uint32_t | cpp_int64_t | cpp_double.

#[global] Instance cpp_type_eq_dec : EqDecision cpp_type.
Proof. solve_decision. Defined.

(** What the template asks of [T]: [std::is_same], [std::is_integral],
    [std::numeric_limits<T>], the operators [<] and [<=], and the two
    conversions [static_cast<int64_t>] and [static_cast<double>]. *)
Record NumericType (T : Type) : Type := {
  type_id : cpp_type;
  is_integral : bool;
  numeric_limits_lowest : T;
  numeric_limits_max : T;
  less : T -> T -> bool;
  less_equal : T -> T -> bool;
  cast_int64 : T -> Z;
  cast_double : T -> float
}.
Arguments type_id {T} _.
Arguments is_integral {T} _.
Arguments numeric_limits_lowest {T} _.
Arguments numeric_limits_max {T} _.
Arguments less {T} _ _ _.
Arguments less_equal {T} _ _ _.
Arguments cast_int64 {T} _ _.
Arguments cast_double {T} _ _.

Definition integer_type (id : cpp_type) (lowest max : Z) : NumericType Z :=
  {| type_id := id; is_integral := true;
     numeric_limits_lowest := lowest; numeric_limits_max := max;
     less := Z.ltb; less_equal := Z.leb;
     cast_int64 := fun x => x; cast_double := double_of_int64 |}.

Definition int32_t : NumericType Z := integer_type cpp_int32_t (- 2 ^ 31) (2 ^ 31 - 1).
Definition uint8_t : NumericType Z := integer_type cpp_uint8_t 0 (2 ^ 8 - 1).
Definition uint32_t : NumericType Z := integer_type cpp_uint32_t 0 uint32_max.
Definition int64_t : NumericType Z := integer_type cpp_int64_t int64_min int64_max.

(** [static_cast<int64_t>(d)]: truncation toward zero.  The conversion of
    a value that has no 64-bit truncation is undefined in the language;
    the x86-64 instruction yields the smallest integer. *)
Definition int64_of_double (d : float) : Z :=
  match Prim2SF d with
  | S754_zero _ => 0
  | S754_finite s m e =>
      let magnitude := if 0 <=? e then Z.pos m * 2 ^ e else Z.pos m / 2 ^ (- e) in
      let z := if s then - magnitude else magnitude in
      if (int64_min <=? z) && (z <=? int64_max) then z else int64_min
  | _ => int64_min
  end.

Definition DBL_MAX : float := 0x1.fffffffffffffp+1023%float.

Definition double : NumericType float :=
  {| type_id := cpp_double; is_integral := false;
     numeric_limits_lowest := PrimFloat.opp DBL_MAX; numeric_limits_max := DBL_MAX;
     less := PrimFloat.ltb; less_equal := PrimFloat.leb;
     cast_int64 := int64_of_double; cast_double := fun d => d |}.

(** Modelled from the spec: [ReportSqliteResult] of sqlite_utils.h is not in
    the source tree; a value is emitted typed as an integer or as a floating
    point number (section 4.1). *)
Definition ReportSqliteResult {T} (NT : NumericType T) (ctx : sqlite3_context) (x : T)
    : sqlite3_context :=
  if is_integral NT then sqlite3_result_int64 ctx (cast_int64 NT x)
  else sqlite3_result_double ctx (cast_double NT x).

(** ** NumericColumn<T> *)

Module NumericColumn.
Import sqlite_utils.

Record t (T : Type) : Type := {
  col_name_ : string;
  hidden_ : bool;
  deque_ : list T;
  is_naturally_ordered_ : bool
}.
Arguments col_name_ {T} _.
Arguments hidden_ {T} _.
Arguments deque_ {T} _.
Arguments is_naturally_ordered_ {T} _.

Section Methods.
Context {T : Type} (NT : NumericType T) (BU : BoundUtils T).

Definition kTMin : T := numeric_limits_lowest NT.
Definition kTMax : T := numeric_limits_max NT.

Definition ReportResult (this : t T) (ctx : sqlite3_context) (row : nat)
    : result sqlite3_context :=
  x ← at_row (deque_ this) row;
  Ok (ReportSqliteResult NT ctx x).

(** Lines 99 to 109 of [BoundFilter]: the inclusive value range
    [(min, max)] the operator and the literal resolve to. *)
Definition resolve_range (op : Z) (sqlite_val : sqlite3_value) : T * T :=
  let min := kTMin in
  let max := kTMax in
  if IsOpGe op || IsOpGt op then (FindGtBound BU (IsOpGe op) sqlite_val, max)
  else if IsOpLe op || IsOpLt op then (min, FindLtBound BU (IsOpLe op) sqlite_val)
  else if IsOpEq op then
    let val := FindEqBound BU sqlite_val in (val, val)
  else (min, max).

Definition BoundFilter (this : t T) (op : Z) (sqlite_val : sqlite3_value) : Bounds :=
  let bounds := Bounds_default in
  let bounds := with_max_idx bounds (static_cast_uint32 (Z.of_nat (length (deque_ this)))) in
  if negb (is_naturally_ordered_ this) then bounds
  else
    let '(min, max) := resolve_range op sqlite_val in
    if less_equal NT min kTMin && less_equal NT kTMax max then bounds
    else
      let min_it := std.lower_bound (less NT) (deque_ this) 0 (length (deque_ this)) min in
      let bounds := with_min_idx bounds (static_cast_uint32 (Z.of_nat min_it)) in
      let max_it := std.upper_bound (less NT) (deque_ this) min_it (length (deque_ this)) max in
      let bounds := with_max_idx bounds (static_cast_uint32 (Z.of_nat max_it)) in
      with_consumed bounds true.

Definition FilterWithCast {C} (D : Domain C) (cast : T -> C) (this : t T)
    (op : Z) (value : sqlite3_value) (index : FilteredRowIndex)
    : result FilteredRowIndex :=
  binary_op ← GetPredicateForOp D op;
  extracted ← ExtractSqliteValue D value;
  FilterRows (fun row =>
                val ← at_row (deque_ this) row;
                Ok (binary_op (cast val) extracted)) index.

Definition Filter (this : t T) (op : Z) (value : sqlite3_value)
    (index : FilteredRowIndex) : result FilteredRowIndex :=
  let type := sqlite3_value_type value in
  if bool_decide (type = SQLITE_INTEGER) && is_integral NT then
    FilterWithCast int64_domain (cast_int64 NT) this op value index
  else if bool_decide (type = SQLITE_INTEGER) || bool_decide (type = SQLITE_FLOAT) then
    FilterWithCast double_domain (cast_double NT) this op value index
  else Fatal "Unexpected sqlite value to compare against".

Definition Sort (this : t T) (ob : OrderBy) : Comparator :=
  if desc ob then
    fun f s =>
      a ← at_row (deque_ this) f;
      b ← at_row (deque_ this) s;
      Ok (CompareValuesDesc (less NT) a b)
  else
    fun f s =>
      a ← at_row (deque_ this) f;
      b ← at_row (deque_ this) s;
      Ok (CompareValuesAsc (less NT) a b).

Definition IsNaturallyOrdered (this : t T) : bool := is_naturally_ordered_ this.

Definition GetType (this : t T) : result ColumnType :=
  if bool_decide (type_id NT = cpp_int32_t) then Ok kInt
  else if bool_decide (type_id NT = cpp_uint8_t) || bool_decide (type_id NT = cpp_uint32_t)
  then Ok kUint
  else if bool_decide (type_id NT = cpp_int64_t) then Ok kLong
  else if bool_decide (type_id NT = cpp_double) then Ok kDouble
  else Fatal "PERFETTO_CHECK(false)".

End Methods.
End NumericColumn.

(** ** StringColumn<Id> *)

Module StringColumn.
Import sqlite_utils.

Record t : Type := {
  col_name_ : string;
  hidden_ : bool;
  deque_ : list nat;
  string_map_ : list string
}.

(** [std::string::empty]. *)
Definition empty (str : string) : bool :=
  match str with
  | EmptyString => true
  | String _ _ => false
  end.

(** The text of a row: the entry of the string table at the row's id. *)
Definition resolve (this : t) (row : nat) : result string :=
  id ← at_row (deque_ this) row;
  at_row (string_map_ this) id.

Definition ReportResult (this : t) (ctx : sqlite3_context) (row : nat)
    : result sqlite3_context :=
  str ← resolve this row;
  if empty str then Ok (sqlite3_result_null ctx)
  else Ok (sqlite3_result_text ctx str (-1)).

Definition BoundFilter (this : t) (op : Z) (value : sqlite3_value) : Bounds :=
  let bounds := Bounds_default in
  let bounds := with_max_idx bounds (static_cast_uint32 (Z.of_nat (length (deque_ this)))) in
  bounds.

Definition Filter (this : t) (op : Z) (value : sqlite3_value)
    (index : FilteredRowIndex) : result FilteredRowIndex :=
  Ok index.

Definition Sort (this : t) (ob : OrderBy) : Comparator :=
  if desc ob then
    fun f s =>
      a ← resolve this f;
      b ← resolve this s;
      Ok (CompareValuesDesc String.ltb a b)
  else
    fun f s =>
      a ← resolve this f;
      b ← resolve this s;
      Ok (CompareValuesAsc String.ltb a b).

Definition GetType (this : t) : result ColumnType := Ok kString.

Definition IsNaturallyOrdered (this : t) : bool := false.

End StringColumn.

(** ** TsEndColumn *)

Module TsEndColumn.
Import sqlite_utils.

Record t : Type := {
  col_name_ : string;
  ts_start_ : list Z;
  dur_ : list Z
}.

(** The value of the column at a row, [ts_start[row] + dur[row]]. *)
Definition ts_end (this : t) (row : nat) : result Z :=
  start ← at_row (ts_start_ this) row;
  dur ← at_row (dur_ this) row;
  Ok (start + dur).

(** Modelled from the spec: the body of [TsEndColumn::ReportResult] is not
    in the source tree; it reports the sum at the given row (section 4.4). *)
Definition ReportResult (this : t) (ctx : sqlite3_context) (row : nat)
    : result sqlite3_context :=
  v ← ts_end this row;
  Ok (sqlite3_result_int64 ctx v).

(** Modelled from the spec: the body of [TsEndColumn::BoundFilter] is not in
    the source tree; the column is treated as not naturally ordered and
    returns the unconsumed full range (section 4.4). *)
Definition BoundFilter (this : t) (op : Z) (value : sqlite3_value) : Bounds :=
  with_max_idx Bounds_default (static_cast_uint32 (Z.of_nat (length (ts_start_ this)))).

(** Modelled from the spec: the body of [TsEndColumn::Filter] is not in the
    source tree; the predicate is computed against the sum at each candidate
    row, with the operator semantics of the integer path of the numeric
    column (section 4.4). *)
Definition Filter (this : t) (op : Z) (value : sqlite3_value)
    (index : FilteredRowIndex) : result FilteredRowIndex :=
  binary_op ← GetPredicateForOp int64_domain op;
  extracted ← ExtractSqliteValue int64_domain value;
  FilterRows (fun row =>
                val ← ts_end this row;
                Ok (binary_op val extracted)) index.

(** Modelled from the spec: the body of [TsEndColumn::Sort] is not in the
    source tree; it is the ascending or descending three-way comparison of
    the computed sums (section 4.4). *)
Definition Sort (this : t) (ob : OrderBy) : Comparator :=
  if desc ob then
    fun f s =>
      a ← ts_end this f;
      b ← ts_end this s;
      Ok (CompareValuesDesc Z.ltb a b)
  else
    fun f s =>
      a ← ts_end this f;
      b ← ts_end this s;
      Ok (CompareValuesAsc Z.ltb a b).

Definition GetType (this : t) : result ColumnType := Ok kUlong.

Definition IsNaturallyOrdered (this : t) : bool := false.

End TsEndColumn.

(** ** IdColumn *)

Module IdColumn.
Import sqlite_utils.

Record t : Type := {
  col_name_ : string;
  table_id_ : Z
}.

Section Methods.
(** [TraceStorage::CreateRowId] of trace_storage.h is not in the source
    tree and the specification leaves the packing open: it is a
    parameter, from a table identity and a row to a 64-bit [RowId]. *)
Variable CreateRowId : Z -> nat -> Z.

Definition ReportResult (this : t) (ctx : sqlite3_context) (row : nat)
    : result sqlite3_context :=
  let id := CreateRowId (table_id_ this) row in
  Ok (sqlite3_result_int64 ctx id).

Definition BoundFilter (this : t) (op : Z) (value : sqlite3_value) : Bounds :=
  Bounds_default.

Definition Filter (this : t) (op : Z) (value : sqlite3_value)
    (index : FilteredRowIndex) : result FilteredRowIndex :=
  binary_op ← GetPredicateForOp int64_domain op;
  extracted ← ExtractSqliteValue int64_domain value;
  FilterRows (fun row =>
                let val := CreateRowId (table_id_ this) row in
                Ok (binary_op val extracted)) index.

Definition Sort (this : t) (ob : OrderBy) : Comparator :=
  if desc ob then
    fun f s =>
      let a := CreateRowId (table_id_ this) f in
      let b := CreateRowId (table_id_ this) s in
      Ok (CompareValuesDesc Z.ltb a b)
  else
    fun f s =>
      let a := CreateRowId (table_id_ this) f in
      let b := CreateRowId (table_id_ this) s in
      Ok (CompareValuesAsc Z.ltb a b).

Definition GetType (this : t) : result ColumnType := Ok kUlong.

Definition IsNaturallyOrdered (this : t) : bool := false.

End Methods.
End IdColumn.

(** ** The closed set of column kinds and the virtual calls *)

Inductive Column : Type :=
| ColNumeric {T : Type} (NT : NumericType T) (BU : sqlite_utils.BoundUtils T)
    (c : NumericColumn.t T)
| ColString (c : StringColumn.t)
| ColTsEnd (c : TsEndColumn.t)
| ColId (c : IdColumn.t).

Section VirtualCalls.
Variable CreateRowId : Z -> nat -> Z.

Definition ReportResult (this : Column) (ctx : sqlite3_context) (row : nat)
    : result sqlite3_context :=
  match this with
  | ColNumeric NT BU c => NumericColumn.ReportResult NT c ctx row
  | ColString c => StringColumn.ReportResult c ctx row
  | ColTsEnd c => TsEndColumn.ReportResult c ctx row
  | ColId c => IdColumn.ReportResult CreateRowId c ctx row
  end.

Definition BoundFilter (this : Column) (op : Z) (value : sqlite3_value) : Bounds :=
  match this with
  | ColNumeric NT BU c => NumericColumn.BoundFilter NT BU c op value
  | ColString c => StringColumn.BoundFilter c op value
  | ColTsEnd c => TsEndColumn.BoundFilter c op value
  | ColId c => IdColumn.BoundFilter c op value
  end.

Definition Filter (this : Column) (op : Z) (value : sqlite3_value)
    (index : FilteredRowIndex) : result FilteredRowIndex :=
  match this with
  | ColNumeric NT BU c => NumericColumn.Filter NT c op value index
  | ColString c => StringColumn.Filter c op value index
  | ColTsEnd c => TsEndColumn.Filter c op value index
  | ColId c => IdColumn.Filter CreateRowId c op value index
  end.

Definition Sort (this : Column) (ob : OrderBy) : Comparator :=
  match this with
  | ColNumeric NT BU c => NumericColumn.Sort NT c ob
  | ColString c => StringColumn.Sort c ob
  | ColTsEnd c => TsEndColumn.Sort c ob
  | ColId c => IdColumn.Sort CreateRowId c ob
  end.

Definition GetType (this : Column) : result ColumnType :=
  match this with
  | ColNumeric NT BU c => NumericColumn.GetType NT c
  | ColString c => StringColumn.GetType c
  | ColTsEnd c => TsEndColumn.GetType c
  | ColId c => IdColumn.GetType c
  end.

Definition IsNaturallyOrdered (this : Column) : bool :=
  match this with
  | ColNumeric NT BU c => NumericColumn.IsNaturallyOrdered c
  | ColString c => StringColumn.IsNaturallyOrdered c
  | ColTsEnd c => TsEndColumn.IsNaturallyOrdered c
  | ColId c => IdColumn.IsNaturallyOrdered c
  end.

End VirtualCalls.

(** ** The calls, with their effects *)

(** The methods above are functions of the objects they read.  In the
    source they are [const] member functions that reach those objects
    through pointers to [const], and two of them write through a pointer
    they are handed: [Filter] to the [FilteredRowIndex], [ReportResult] to
    the [sqlite3_context].  This module has the same bodies, statement by
    statement, as computations on the memory those pointers lead to. *)
Module Effects.
Import sqlite_utils.

(** The memory a call on a column of class [O] can reach: the column
    object with the sequences its pointers lead to, the executor's
    [FilteredRowIndex], and the [sqlite3_context] of a report. *)
Record Memory (O : Type) : Type := {
  object : O;
  index : FilteredRowIndex;
  context : sqlite3_context
}.
Arguments object {O} _.
Arguments index {O} _.
Arguments context {O} _.

(** A computation on that memory: it fails, or returns a value and the
    memory after it. *)
Definition M (O A : Type) : Type := Memory O -> result (A * Memory O).

#[global] Instance M_ret {O} : MRet (M O) := fun A a s => Ok (a, s).

#[global] Instance M_bind {O} : MBind (M O) := fun A B k m s =>
  match m s with
  | Ok (a, s') => k a s'
  | Fatal msg => Fatal msg
  | OutOfContract => OutOfContract
  end.

(** A read through a pointer to [const]: a member of the object, or a
    function of the sequences it points to. *)
Definition read {O A} (member : O -> A) : M O A :=
  fun s => Ok (member (object s), s).

(** The element at [row] of a deque reached through a pointer to
    [const]. *)
Definition read_at {O A} (deque : O -> list A) (row : nat) : M O A :=
  fun s => match at_row (deque (object s)) row with
           | Ok x => Ok (x, s)
           | Fatal msg => Fatal msg
           | OutOfContract => OutOfContract
           end.

(** The outcome of a helper that reads no memory. *)
Definition lift {O A} (outcome : result A) : M O A :=
  fun s => match outcome with
           | Ok a => Ok (a, s)
           | Fatal msg => Fatal msg
           | OutOfContract => OutOfContract
           end.

(** [PERFETTO_FATAL(msg)]. *)
Definition fatal {O A} (msg : string) : M O A := fun _ => Fatal msg.

Definition with_index {O} (s : Memory O) (rows : FilteredRowIndex) : Memory O :=
  {| object := object s; index := rows; context := context s |}.
Definition with_context {O} (s : Memory O) (ctx : sqlite3_context) : Memory O :=
  {| object := object s; index := index s; context := ctx |}.

(** A call of the [sqlite3_result_*] family on the context. *)
Definition sqlite3_result {O} (write : sqlite3_context -> sqlite3_context) : M O unit :=
  fun s => Ok (tt, with_context s (write (context s))).

(** Modelled from the spec: [FilteredRowIndex::FilterRows] is not in the
    source tree; it calls the predicate on each candidate row and keeps
    the rows it accepts (section 6). *)
Fixpoint filter_rows {O} (predicate : nat -> M O bool) (rows : list nat)
    : M O (list nat) :=
  match rows with
  | [] => mret []
  | row :: rest =>
      keep ← predicate row;
      rest' ← filter_rows predicate rest;
      mret (if keep : bool then row :: rest' else rest')
  end.

(** [index->FilterRows(predicate)]. *)
Definition FilterRows {O} (predicate : nat -> M O bool) : M O unit :=
  fun s => match filter_rows predicate (index s) s with
           | Ok (rows, s') => Ok (tt, with_index s' rows)
           | Fatal msg => Fatal msg
           | OutOfContract => OutOfContract
           end.

(** The interface [StorageColumn]: the six virtual member functions. *)
Record StorageColumn (O : Type) : Type := {
  ReportResult : nat -> M O unit;
  BoundFilter : Z -> sqlite3_value -> M O Bounds;
  Filter : Z -> sqlite3_value -> M O unit;
  Sort : OrderBy -> M O (nat -> nat -> M O Z);
  GetType : M O ColumnType;
  IsNaturallyOrdered : M O bool
}.
Arguments ReportResult {O} _ _.
Arguments BoundFilter {O} _ _ _.
Arguments Filter {O} _ _ _.
Arguments Sort {O} _ _.
Arguments GetType {O} _.
Arguments IsNaturallyOrdered {O} _.

Section OfNumericColumn.
Context {T : Type} (NT : NumericType T) (BU : BoundUtils T).

Definition NumericColumn_ReportResult (row : nat) : M (NumericColumn.t T) unit :=
  x ← read_at NumericColumn.deque_ row;
  sqlite3_result (fun ctx => ReportSqliteResult NT ctx x).

Definition NumericColumn_BoundFilter (op : Z) (sqlite_val : sqlite3_value)
    : M (NumericColumn.t T) Bounds :=
  size ← read (fun this => length (NumericColumn.deque_ this));
  let bounds := Bounds_default in
  let bounds := with_max_idx bounds (static_cast_uint32 (Z.of_nat size)) in
  ordered ← read NumericColumn.is_naturally_ordered_;
  if negb ordered then mret bounds
  else
    let '(min, max) := NumericColumn.resolve_range NT BU op sqlite_val in
    if less_equal NT min (NumericColumn.kTMin NT) &&
       less_equal NT (NumericColumn.kTMax NT) max then mret bounds
    else
      min_it ← read (fun this => std.lower_bound (less NT) (NumericColumn.deque_ this)
                                   0 (length (NumericColumn.deque_ this)) min);
      let bounds := with_min_idx bounds (static_cast_uint32 (Z.of_nat min_it)) in
      max_it ← read (fun this => std.upper_bound (less NT) (NumericColumn.deque_ this)
                                   min_it (length (NumericColumn.deque_ this)) max);
      let bounds := with_max_idx bounds (static_cast_uint32 (Z.of_nat max_it)) in
      mret (with_consumed bounds true).

Definition NumericColumn_FilterWithCast {C} (D : Domain C) (cast : T -> C)
    (op : Z) (value : sqlite3_value) : M (NumericColumn.t T) unit :=
  binary_op ← lift (GetPredicateForOp D op);
  extracted ← lift (ExtractSqliteValue D value);
  FilterRows (fun row =>
                val ← read_at NumericColumn.deque_ row;
                mret (binary_op (cast val) extracted)).

Definition NumericColumn_Filter (op : Z) (value : sqlite3_value)
    : M (NumericColumn.t T) unit :=
  let type := sqlite3_value_type value in
  if bool_decide (type = SQLITE_INTEGER) && is_integral NT then
    NumericColumn_FilterWithCast int64_domain (cast_int64 NT) op value
  else if bool_decide (type = SQLITE_INTEGER) || bool_decide (type = SQLITE_FLOAT) then
    NumericColumn_FilterWithCast double_domain (cast_double NT) op value
  else fatal "Unexpected sqlite value to compare against".

Definition NumericColumn_Sort (ob : OrderBy)
    : M (NumericColumn.t T) (nat -> nat -> M (NumericColumn.t T) Z) :=
  if desc ob then
    mret (fun f s =>
            a ← read_at NumericColumn.deque_ f;
            b ← read_at NumericColumn.deque_ s;
            mret (CompareValuesDesc (less NT) a b))
  else
    mret (fun f s =>
            a ← read_at NumericColumn.deque_ f;
            b ← read_at NumericColumn.deque_ s;
            mret (CompareValuesAsc (less NT) a b)).

Definition NumericColumn_IsNaturallyOrdered : M (NumericColumn.t T) bool :=
  read NumericColumn.is_naturally_ordered_.

Definition NumericColumn_GetType : M (NumericColumn.t T) ColumnType :=
  if bool_decide (type_id NT = cpp_int32_t) then mret kInt
  else if bool_decide (type_id NT = cpp_uint8_t) || bool_decide (type_id NT = cpp_uint32_t)
  then mret kUint
  else if bool_decide (type_id NT = cpp_int64_t) then mret kLong
  else if bool_decide (type_id NT = cpp_double) then mret kDouble
  else fatal "PERFETTO_CHECK(false)".

Definition NumericColumn_calls : StorageColumn (NumericColumn.t T) :=
  {| ReportResult := NumericColumn_ReportResult;
     BoundFilter := NumericColumn_BoundFilter;
     Filter := NumericColumn_Filter;
     Sort := NumericColumn_Sort;
     GetType := NumericColumn_GetType;
     IsNaturallyOrdered := NumericColumn_IsNaturallyOrdered |}.
End OfNumericColumn.

(** The entry of the string table at the id the deque holds at [row]. *)
Definition StringColumn_resolve (row : nat) : M StringColumn.t string :=
  id ← read_at StringColumn.deque_ row;
  read_at StringColumn.string_map_ id.

Definition StringColumn_ReportResult (row : nat) : M StringColumn.t unit :=
  str ← StringColumn_resolve row;
  if StringColumn.empty str then sqlite3_result sqlite3_result_null
  else sqlite3_result (fun ctx => sqlite3_result_text ctx str (-1)).

Definition StringColumn_BoundFilter (op : Z) (value : sqlite3_value)
    : M StringColumn.t Bounds :=
  let bounds := Bounds_default in
  size ← read (fun this => length (StringColumn.deque_ this));
  let bounds := with_max_idx bounds (static_cast_uint32 (Z.of_nat size)) in
  mret bounds.

Definition StringColumn_Filter (op : Z) (value : sqlite3_value) : M StringColumn.t unit :=
  mret tt.

Definition StringColumn_Sort (ob : OrderBy)
    : M StringColumn.t (nat -> nat -> M StringColumn.t Z) :=
  if desc ob then
    mret (fun f s =>
            a ← StringColumn_resolve f;
            b ← StringColumn_resolve s;
            mret (CompareValuesDesc String.ltb a b))
  else
    mret (fun f s =>
            a ← StringColumn_resolve f;
            b ← StringColumn_resolve s;
            mret (CompareValuesAsc String.ltb a b)).

Definition StringColumn_calls : StorageColumn StringColumn.t :=
  {| ReportResult := StringColumn_ReportResult;
     BoundFilter := StringColumn_BoundFilter;
     Filter := StringColumn_Filter;
     Sort := StringColumn_Sort;
     GetType := mret kString;
     IsNaturallyOrdered := mret false |}.

(** [ts_start[row] + dur[row]]. *)
Definition TsEndColumn_ts_end (row : nat) : M TsEndColumn.t Z :=
  start ← read_at TsEndColumn.ts_start_ row;
  dur ← read_at TsEndColumn.dur_ row;
  mret (start + dur).

(** Modelled from the spec: the bodies of [TsEndColumn::ReportResult],
    [BoundFilter], [Filter] and [Sort] are not in the source tree; they are
    those of section 4.4, as in [TsEndColumn] above. *)
Definition TsEndColumn_ReportResult (row : nat) : M TsEndColumn.t unit :=
  v ← TsEndColumn_ts_end row;
  sqlite3_result (fun ctx => sqlite3_result_int64 ctx v).

Definition TsEndColumn_BoundFilter (op : Z) (value : sqlite3_value)
    : M TsEndColumn.t Bounds :=
  size ← read (fun this => length (TsEndColumn.ts_start_ this));
  mret (with_max_idx Bounds_default (static_cast_uint32 (Z.of_nat size))).

Definition TsEndColumn_Filter (op : Z) (value : sqlite3_value) : M TsEndColumn.t unit :=
  binary_op ← lift (GetPredicateForOp int64_domain op);
  extracted ← lift (ExtractSqliteValue int64_domain value);
  FilterRows (fun row =>
                val ← TsEndColumn_ts_end row;
                mret (binary_op val extracted)).

Definition TsEndColumn_Sort (ob : OrderBy)
    : M TsEndColumn.t (nat -> nat -> M TsEndColumn.t Z) :=
  if desc ob then
    mret (fun f s =>
            a ← TsEndColumn_ts_end f;
            b ← TsEndColumn_ts_end s;
            mret (CompareValuesDesc Z.ltb a b))
  else
    mret (fun f s =>
            a ← TsEndColumn_ts_end f;
            b ← TsEndColumn_ts_end s;
            mret (CompareValuesAsc Z.ltb a b)).

Definition TsEndColumn_calls : StorageColumn TsEndColumn.t :=
  {| ReportResult := TsEndColumn_ReportResult;
     BoundFilter := TsEndColumn_BoundFilter;
     Filter := TsEndColumn_Filter;
     Sort := TsEndColumn_Sort;
     GetType := mret kUlong;
     IsNaturallyOrdered := mret false |}.

Section OfIdColumn.
Variable CreateRowId : Z -> nat -> Z.

Definition IdColumn_ReportResult (row : nat) : M IdColumn.t unit :=
  id ← read (fun this => CreateRowId (IdColumn.table_id_ this) row);
  sqlite3_result (fun ctx => sqlite3_result_int64 ctx id).

Definition IdColumn_BoundFilter (op : Z) (value : sqlite3_value) : M IdColumn.t Bounds :=
  mret Bounds_default.

Definition IdColumn_Filter (op : Z) (value : sqlite3_value) : M IdColumn.t unit :=
  binary_op ← lift (GetPredicateForOp int64_domain op);
  extracted ← lift (ExtractSqliteValue int64_domain value);
  FilterRows (fun row =>
                val ← read (fun this => CreateRowId (IdColumn.table_id_ this) row);
                mret (binary_op val extracted)).

Definition IdColumn_Sort (ob : OrderBy) : M IdColumn.t (nat -> nat -> M IdColumn.t Z) :=
  if desc ob then
    mret (fun f s =>
            a ← read (fun this => CreateRowId (IdColumn.table_id_ this) f);
            b ← read (fun this => CreateRowId (IdColumn.table_id_ this) s);
            mret (CompareValuesDesc Z.ltb a b))
  else
    mret (fun f s =>
            a ← read (fun this => CreateRowId (IdColumn.table_id_ this) f);
            b ← read (fun this => CreateRowId (IdColumn.table_id_ this) s);
            mret (CompareValuesAsc Z.ltb a b)).

Definition IdColumn_calls : StorageColumn IdColumn.t :=
  {| ReportResult := IdColumn_ReportResult;
     BoundFilter := IdColumn_BoundFilter;
     Filter := IdColumn_Filter;
     Sort := IdColumn_Sort;
     GetType := mret kUlong;
     IsNaturallyOrdered := mret false |}.
End OfIdColumn.

(** *** What a computation may change *)

(** The computation leaves the memory as it was. *)
Definition unchanged {O A} (m : M O A) : Prop :=
  forall s a s', m s = Ok (a, s') -> s' = s.

(** The computation changes at most the result slot of the context. *)
Definition writes_context {O A} (m : M O A) : Prop :=
  forall s a s', m s = Ok (a, s') -> object s' = object s /\ index s' = index s.

(** The computation changes at most the candidate rows, and what it leaves
    of them is a sublist of what they were. *)
Definition narrows_index {O A} (m : M O A) : Prop :=
  forall s a s', m s = Ok (a, s') ->
    object s' = object s /\ context s' = context s /\ index s' `sublist_of` index s.

(** The frame of the interface: what each of the six calls may change. *)
Definition frame {O} (column : StorageColumn O) : Prop :=
  (forall row, writes_context (ReportResult column row)) /\
  (forall op value, unchanged (BoundFilter column op value)) /\
  (forall op value, narrows_index (Filter column op value)) /\
  (forall ob, unchanged (Sort column ob) /\
     forall s cmp s', Sort column ob s = Ok (cmp, s') ->
       forall a b, unchanged (cmp a b)) /\
  unchanged (GetType column) /\
  unchanged (IsNaturallyOrdered column).

End Effects.

(** The computations [calls] of a class are the methods of the columns of
    that class: run on a memory, each returns what the method returns on the
    object in that memory, fails as the method fails, and leaves the memory
    as the outcome of the method says. *)
Definition refines {O} (CreateRowId : Z -> nat -> Z) (calls : Effects.StorageColumn O)
    (column : O -> Column) : Prop :=
  forall s : Effects.Memory O,
    let c := column (Effects.object s) in
    (forall row,
       Effects.ReportResult calls row s
       = (fun ctx => (tt, Effects.with_context s ctx))
           <$> ReportResult CreateRowId c (Effects.context s) row) /\
    (forall op value,
       Effects.BoundFilter calls op value s = Ok (BoundFilter c op value, s)) /\
    (forall op value,
       Effects.Filter calls op value s
       = (fun rows => (tt, Effects.with_index s rows))
           <$> Filter CreateRowId c op value (Effects.index s)) /\
    (forall ob, exists cmp,
       Effects.Sort calls ob s = Ok (cmp, s) /\
       forall a b, cmp a b s = (fun z => (z, s)) <$> Sort CreateRowId c ob a b) /\
    Effects.GetType calls s = (fun type => (type, s)) <$> GetType c /\
    Effects.IsNaturallyOrdered calls s = Ok (IsNaturallyOrdered c, s).

(** ** The executor's side of a scan *)

(** The executor sorts the surviving rows with the comparator a column
    returns.  Its sort is not part of the columns; an insertion sort stands
    for it, placing a row before the first row it does not compare greater
    than. *)
Fixpoint insert_row (cmp : Comparator) (row : nat) (sorted : list nat)
    : result (list nat) :=
  match sorted with
  | [] => Ok [row]
  | r :: rest =>
      c ← cmp row r;
      if c <=? 0 then Ok (row :: r :: rest)
      else rest' ← insert_row cmp row rest; Ok (r :: rest')
  end.

Fixpoint sort_rows (cmp : Comparator) (rows : list nat) : result (list nat) :=
  match rows with
  | [] => Ok []
  | r :: rest => sorted ← sort_rows cmp rest; insert_row cmp r sorted
  end.

(** The full row range of a table with [n] rows. *)
Definition all_rows (n : nat) : FilteredRowIndex := seq 0 n.

(** ** The notions the properties are stated with *)

Module Spec.
Import sqlite_utils.

(** The predicate implied by an operator and a literal on the stored values
    of a numeric column, in the words of section 4.2: cast the stored value
    to the comparison domain (64-bit signed integers for an integer literal
    on an integer element type, floating point for any other numeric
    literal) and apply the binary test of the operator against the
    literal. *)
Definition value_predicate {T} (NT : NumericType T) (op : Z) (value : sqlite3_value)
    : result (T -> bool) :=
  match sqlite3_value_type value, is_integral NT with
  | SQLITE_INTEGER, true =>
      test ← GetPredicateForOp int64_domain op;
      literal ← ExtractSqliteValue_int64 value;
      Ok (fun x => test (cast_int64 NT x) literal)
  | SQLITE_INTEGER, false | SQLITE_FLOAT, _ =>
      test ← GetPredicateForOp double_domain op;
      literal ← ExtractSqliteValue_double value;
      Ok (fun x => test (cast_double NT x) literal)
  | _, _ => Fatal "Unexpected sqlite value to compare against"
  end.

(** A stored value satisfies the predicate implied by [(op, value)]. *)
Definition satisfies {T} (NT : NumericType T) (op : Z) (value : sqlite3_value) (x : T)
    : Prop :=
  exists p, value_predicate NT op value = Ok p /\ p x = true.

(** The comparison of an integer with an integer literal, operator by
    operator. *)
Inductive holds : Z -> Z -> Z -> Prop :=
| holds_eq x i : x = i -> holds SQLITE_INDEX_CONSTRAINT_EQ x i
| holds_ne x i : x <> i -> holds SQLITE_INDEX_CONSTRAINT_NE x i
| holds_lt x i : x < i -> holds SQLITE_INDEX_CONSTRAINT_LT x i
| holds_le x i : x <= i -> holds SQLITE_INDEX_CONSTRAINT_LE x i
| holds_gt x i : x > i -> holds SQLITE_INDEX_CONSTRAINT_GT x i
| holds_ge x i : x >= i -> holds SQLITE_INDEX_CONSTRAINT_GE x i.

(** The comparison of a binary64 value with a binary64 literal, operator by
    operator, as IEEE 754 orders them. *)
Inductive holds_double : Z -> float -> float -> Prop :=
| holds_double_eq x d : PrimFloat.eqb x d = true -> holds_double SQLITE_INDEX_CONSTRAINT_EQ x d
| holds_double_ne x d : PrimFloat.eqb x d = false -> holds_double SQLITE_INDEX_CONSTRAINT_NE x d
| holds_double_lt x d : PrimFloat.ltb x d = true -> holds_double SQLITE_INDEX_CONSTRAINT_LT x d
| holds_double_le x d : PrimFloat.leb x d = true -> holds_double SQLITE_INDEX_CONSTRAINT_LE x d
| holds_double_gt x d : PrimFloat.ltb d x = true -> holds_double SQLITE_INDEX_CONSTRAINT_GT x d
| holds_double_ge x d : PrimFloat.leb d x = true -> holds_double SQLITE_INDEX_CONSTRAINT_GE x d.

(** The six comparison operators of section 6. *)
Definition comparison (op : Z) : Prop :=
  op = SQLITE_INDEX_CONSTRAINT_EQ \/ op = SQLITE_INDEX_CONSTRAINT_NE \/
  op = SQLITE_INDEX_CONSTRAINT_LT \/ op = SQLITE_INDEX_CONSTRAINT_LE \/
  op = SQLITE_INDEX_CONSTRAINT_GT \/ op = SQLITE_INDEX_CONSTRAINT_GE.

(** A call of [Filter] returned, and of the candidate rows [index] it kept
    those, and only those, whose stored value [matches]. *)
Definition keeps {T} (outcome : result FilteredRowIndex) (deque : list T)
    (index : FilteredRowIndex) (matches : T -> Prop) : Prop :=
  exists out, outcome = Ok out /\
    forall row, row ∈ out <->
      row ∈ index /\ exists x, deque !! row = Some x /\ matches x.

(** The naive evaluation of a text constraint on a resolved text. *)
Definition ExtractSqliteValue_text (value : sqlite3_value) : result string :=
  match value with
  | SqlText s => Ok s
  | _ => OutOfContract
  end.

Definition text_domain : Domain string :=
  {| dom_eq := String.eqb; dom_lt := String.ltb; dom_le := String.leb;
     ExtractSqliteValue := ExtractSqliteValue_text |}.

Section RowPredicate.
Variable CreateRowId : Z -> nat -> Z.

(** The naive per-row evaluation of the predicate derived from an
    operator and a literal: the value of the column at the row, against
    the literal, under the binary test of the operator. *)
Definition row_predicate (c : Column) (op : Z) (value : sqlite3_value)
    : result Predicate :=
  match c with
  | ColNumeric NT _ col =>
      p ← value_predicate NT op value;
      Ok (fun row => x ← at_row (NumericColumn.deque_ col) row; Ok (p x))
  | ColString col =>
      test ← GetPredicateForOp text_domain op;
      literal ← ExtractSqliteValue_text value;
      Ok (fun row => str ← StringColumn.resolve col row; Ok (test str literal))
  | ColTsEnd col =>
      test ← GetPredicateForOp int64_domain op;
      literal ← ExtractSqliteValue_int64 value;
      Ok (fun row => v ← TsEndColumn.ts_end col row; Ok (test v literal))
  | ColId col =>
      test ← GetPredicateForOp int64_domain op;
      literal ← ExtractSqliteValue_int64 value;
      Ok (fun row => Ok (test (CreateRowId (IdColumn.table_id_ col) row) literal))
  end.
End RowPredicate.

(** The column is a view of a table with [n] rows, and every row resolves. *)
Definition has_rows (c : Column) (n : nat) : Prop :=
  match c with
  | ColNumeric _ _ col => length (NumericColumn.deque_ col) = n
  | ColString col =>
      length (StringColumn.deque_ col) = n /\
      Forall (fun id => (id < length (StringColumn.string_map_ col))%nat)
        (StringColumn.deque_ col)
  | ColTsEnd col =>
      length (TsEndColumn.ts_start_ col) = n /\ length (TsEndColumn.dur_ col) = n
  | ColId _ => True
  end.

(** The laws that tie an order [<] to its [<=].  They hold of the integers,
    of text and of binary64: a premise of each law rules a NaN out. *)
Record order_laws {K} (lt le : K -> K -> bool) : Prop := {
  le_lt_trans : forall a b c, le a b = true -> lt b c = true -> lt a c = true;
  lt_le_trans : forall a b c, lt a b = true -> le b c = true -> lt a c = true;
  le_trans : forall a b c, le a b = true -> le b c = true -> le a c = true;
  lt_le : forall a b, lt a b = true -> le a b = true;
  le_total : forall a b,
    le a a = true -> le b b = true -> lt b a = false -> le a b = true
}.

(** The operators [<] and [<=] of an element type obey these laws. *)
Definition lawful {T} (NT : NumericType T) : Prop :=
  order_laws (less NT) (less_equal NT).

(** A sequence is non-decreasing for [le]: each element is [le] every
    element after it. *)
Definition non_decreasing {K} (le : K -> K -> bool) (values : list K) : Prop :=
  StronglySorted (fun x y => le x y = true) values.

(** Every value compares [<=] to itself: of the values of the element
    types, only the NaN of binary64 does not. *)
Definition comparable {K} (le : K -> K -> bool) (values : list K) : Prop :=
  Forall (fun x => le x x = true) values.

(** What "naturally ordered" promises of the backing sequence: it is sorted
    ascending by the [<=] of the element type, and so holds no NaN. *)
Definition sorted_ascending {T} (NT : NumericType T) (values : list T) : Prop :=
  comparable (less_equal NT) values /\ non_decreasing (less_equal NT) values.

(** The least index at or after [from] whose element satisfies [p]; the
    length of the sequence when there is none. *)
Fixpoint count_until {T} (p : T -> bool) (l : list T) : nat :=
  match l with
  | [] => 0
  | x :: l' => if p x then 0 else S (count_until p l')
  end.

Definition first_index_from {T} (p : T -> bool) (l : list T) (from : nat) : nat :=
  (from + count_until p (drop from l))%nat.

(** The rows resolve, through [key], to a non-decreasing sequence. *)
Definition keys_non_decreasing {K} (le : K -> K -> bool) (key : nat -> result K)
    (rows : list nat) : Prop :=
  exists values, Forall2 (fun row v => key row = Ok v) rows values /\
    non_decreasing le values.

(** The underlying values of a column, read in the order of [rows], are
    non-decreasing: the stored numbers, the resolved texts, the computed sums
    or the row ids. *)
Definition values_non_decreasing (CreateRowId : Z -> nat -> Z) (c : Column)
    (rows : list nat) : Prop :=
  match c with
  | ColNumeric NT _ col =>
      keys_non_decreasing (less_equal NT) (at_row (NumericColumn.deque_ col)) rows
  | ColString col =>
      keys_non_decreasing String.leb (StringColumn.resolve col) rows
  | ColTsEnd col =>
      keys_non_decreasing Z.leb (TsEndColumn.ts_end col) rows
  | ColId col =>
      keys_non_decreasing Z.leb
        (fun row => Ok (CreateRowId (IdColumn.table_id_ col) row)) rows
  end.

(** The rows are in the order of a comparator: it resolves on each pair of
    neighbours and does not put the first after the second. *)
Definition ordered_by (cmp : Comparator) (rows : list nat) : Prop :=
  Sorted (fun a b => exists c, cmp a b = Ok c /\ c <= 0) rows.

(** The values of the column are totally ordered: the order of a numeric
    element type is lawful and the stored values hold no NaN. *)
Definition totally_ordered (c : Column) : Prop :=
  match c with
  | ColNumeric NT _ col =>
      lawful NT /\ comparable (less_equal NT) (NumericColumn.deque_ col)
  | _ => True
  end.

(** A text holds no NUL character. *)
Definition nul_free (str : string) : Prop :=
  Forall (fun c => c <> Ascii.zero) (list_ascii_of_string str).

Definition clamp (lo hi z : Z) : Z := Z.max lo (Z.min hi z).

(** Modelled from the spec: an instance of the bound helpers of
    sqlite_utils.h for an integer element type, after section 4.2 and the
    scenarios of section 8: [>=] and [>] set the lower end to the literal
    and to its successor, [<=] and [<] set the upper end to the literal and
    to its predecessor, [=] sets both ends to the literal, each kept inside
    the range of the type.  For a literal that is not an integer the
    specification names no bound: [>=], [>], [<=] and [<] then keep the
    sentinel (no narrowing) and [=] resolves to the largest value. *)
Definition reference_bounds (NT : NumericType Z) : BoundUtils Z :=
  let lo := numeric_limits_lowest NT in
  let hi := numeric_limits_max NT in
  {| FindGtBound := fun is_eq value =>
       match value with
       | SqlInteger i => clamp lo hi (if is_eq : bool then i else i + 1)
       | _ => lo
       end;
     FindLtBound := fun is_eq value =>
       match value with
       | SqlInteger i => clamp lo hi (if is_eq : bool then i else i - 1)
       | _ => hi
       end;
     FindEqBound := fun value =>
       match value with
       | SqlInteger i => clamp lo hi i
       | _ => hi
       end |}.

(** The literal of a numeric value in the floating-point domain. *)
Definition double_literal (value : sqlite3_value) : option float :=
  match value with
  | SqlInteger i => Some (double_of_int64 i)
  | SqlFloat d => Some d
  | _ => None
  end.

(** Modelled from the spec: an instance of the bound helpers of
    sqlite_utils.h for the element type [double], after section 4.2: [>=]
    sets the lower end to the literal and [>] to the next value above it,
    [<=] sets the upper end to the literal and [<] to the next value below
    it, [=] sets both ends to the literal.  For a literal that is not a
    number the specification names no bound: the sentinel is kept. *)
Definition reference_bounds_double : BoundUtils float :=
  {| FindGtBound := fun is_eq value =>
       match double_literal value with
       | Some d => if is_eq : bool then d else PrimFloat.next_up d
       | None => numeric_limits_lowest double
       end;
     FindLtBound := fun is_eq value =>
       match double_literal value with
       | Some d => if is_eq : bool then d else PrimFloat.next_down d
       | None => numeric_limits_max double
       end;
     FindEqBound := fun value =>
       match double_literal value with
       | Some d => d
       | None => numeric_limits_max double
       end |}.

End Spec.

(** ** The inputs of the scenarios and of the examples *)

(** The unconsumed range over a whole table of [n] rows. *)
Definition full_range (n : nat) : Bounds :=
  {| min_idx := 0; max_idx := Z.of_nat n; consumed := false |}.

Definition scenario_column : NumericColumn.t Z :=
  {| NumericColumn.col_name_ := "ts"; NumericColumn.hidden_ := false;
     NumericColumn.deque_ := [10; 20; 20; 30; 40];
     NumericColumn.is_naturally_ordered_ := true |}.

Definition scenario_strings : StringColumn.t :=
  {| StringColumn.col_name_ := "name"; StringColumn.hidden_ := false;
     StringColumn.deque_ := [0; 1; 0]%nat;
     StringColumn.string_map_ := [""; "foo"]%string |}.

(** A naturally ordered [NumericColumn<int64_t>] holding two timestamps that
    convert to the same [double]. *)
Definition rounding_column : NumericColumn.t Z :=
  {| NumericColumn.col_name_ := "ts"; NumericColumn.hidden_ := false;
     NumericColumn.deque_ := [2 ^ 53; 2 ^ 53 + 1];
     NumericColumn.is_naturally_ordered_ := true |}.

(** A naturally ordered [NumericColumn<double>] over finite values. *)
Definition double_column : NumericColumn.t float :=
  {| NumericColumn.col_name_ := "value"; NumericColumn.hidden_ := false;
     NumericColumn.deque_ := [0.5; 1.5; 1.5; 4]%float;
     NumericColumn.is_naturally_ordered_ := true |}.

(** A naturally ordered [NumericColumn<double>] whose last value is
    infinite. *)
Definition unbounded_column : NumericColumn.t float :=
  {| NumericColumn.col_name_ := "value"; NumericColumn.hidden_ := false;
     NumericColumn.deque_ := [0.25; 1; PrimFloat.infinity]%float;
     NumericColumn.is_naturally_ordered_ := true |}.

(** A [NumericColumn<double>] that holds a NaN. *)
Definition nan_column : NumericColumn.t float :=
  {| NumericColumn.col_name_ := "value"; NumericColumn.hidden_ := false;
     NumericColumn.deque_ := [3; PrimFloat.nan; 1]%float;
     NumericColumn.is_naturally_ordered_ := false |}.

(** A string column whose table holds a text with a NUL character inside,
    ["a\0b"], and a text that starts with one. *)
Definition nul_strings : StringColumn.t :=
  {| StringColumn.col_name_ := "name"; StringColumn.hidden_ := false;
     StringColumn.deque_ := [0; 1]%nat;
     StringColumn.string_map_ :=
       [String "a"%char (String Ascii.zero (String "b"%char EmptyString));
        String Ascii.zero (String "x"%char EmptyString)] |}.

(** A naturally ordered [NumericColumn<uint8_t>] holding every value of its
    element type once. *)
Definition byte_column : NumericColumn.t Z :=
  {| NumericColumn.col_name_ := "cpu"; NumericColumn.hidden_ := false;
     NumericColumn.deque_ := Z.of_nat <$> seq 0 256;
     NumericColumn.is_naturally_ordered_ := true |}.

(** Modelled from the spec: a packing of a table identity and a row into a
    row id, the table identity in the high bits and the row in the low 32
    bits (the example of section 4.5); it instantiates the parameter
    [CreateRowId] in the examples. *)
Definition packed_row_id (table_id : Z) (row : nat) : Z :=
  Z.lor (Z.shiftl table_id 32) (Z.of_nat row).

(** The ascending comparator every column kind builds: resolve the two
    rows, compare the values three ways. *)
Definition key_ascending {K} (less : K -> K -> bool) (key : nat -> result K)
    : Comparator :=
  fun f s => a ← key f; b ← key s; Ok (sqlite_utils.CompareValuesAsc less a b).

(** ** Storage growth *)

Module Storage.

(** A numeric column holds a pointer to a deque that the storage engine
    owns and appends to ([deque_], line 167): the column once [more]
    elements were appended to that deque. *)
Definition append_numeric {T} (this : NumericColumn.t T) (more : list T)
    : NumericColumn.t T :=
  {| NumericColumn.col_name_ := NumericColumn.col_name_ this;
     NumericColumn.hidden_ := NumericColumn.hidden_ this;
     NumericColumn.deque_ := NumericColumn.deque_ this ++ more;
     NumericColumn.is_naturally_ordered_ := NumericColumn.is_naturally_ordered_ this |}.

(** A string column holds pointers to the deque of ids and to the string
    table (lines 238 and 239): the column once [more_ids] were appended to
    the first and [more_strings] to the second. *)
Definition append_strings (this : StringColumn.t) (more_ids : list nat)
    (more_strings : list string) : StringColumn.t :=
  {| StringColumn.col_name_ := StringColumn.col_name_ this;
     StringColumn.hidden_ := StringColumn.hidden_ this;
     StringColumn.deque_ := StringColumn.deque_ this ++ more_ids;
     StringColumn.string_map_ := StringColumn.string_map_ this ++ more_strings |}.

End Storage.

(** A candidate row passes a predicate: the predicate resolves at the row
    and accepts it. *)
Definition passes (p : Predicate) (row : nat) : bool :=
  match p row with
  | Ok true => true
  | _ => false
  end.

(** * Properties *)

(** ** The scenarios of section 8 *)

Example lower_bound_example :
  std.lower_bound Z.ltb [10; 20; 20; 30; 40] 0 5 20 = 1%nat.
Proof. reflexivity. Qed.

Example upper_bound_example :
  std.upper_bound Z.ltb [10; 20; 20; 30; 40] 1 5 20 = 3%nat.
Proof. reflexivity. Qed.

Example scenario_bound_ge :
  NumericColumn.BoundFilter int32_t (Spec.reference_bounds int32_t) scenario_column
    SQLITE_INDEX_CONSTRAINT_GE (SqlInteger 20)
  = {| min_idx := 1; max_idx := 5; consumed := true |}.
Proof. reflexivity. Qed.

Example scenario_filter_ge :
  NumericColumn.Filter int32_t scenario_column SQLITE_INDEX_CONSTRAINT_GE (SqlInteger 20)
    (all_rows 5)
  = Ok [1; 2; 3; 4]%nat.
Proof. reflexivity. Qed.

Example scenario_bound_eq :
  NumericColumn.BoundFilter int32_t (Spec.reference_bounds int32_t) scenario_column
    SQLITE_INDEX_CONSTRAINT_EQ (SqlInteger 25)
  = {| min_idx := 3; max_idx := 3; consumed := true |}.
Proof. reflexivity. Qed.

Example scenario_string_null :
  StringColumn.ReportResult scenario_strings {| ctx_result := None |} 0
  = Ok {| ctx_result := Some SqlNull |}.
Proof. reflexivity. Qed.

Example scenario_string_text :
  StringColumn.ReportResult scenario_strings {| ctx_result := None |} 1
  = Ok {| ctx_result := Some (SqlText "foo") |}.
Proof. reflexivity. Qed.

Example scenario_ts_end :
  TsEndColumn.ReportResult
    {| TsEndColumn.col_name_ := "ts_end"; TsEndColumn.ts_start_ := [100; 200];
       TsEndColumn.dur_ := [5; 10] |} {| ctx_result := None |} 1
  = Ok {| ctx_result := Some (SqlInteger 210) |}.
Proof. reflexivity. Qed.


(** ** The binary searches *)

Section BisectFacts.
Context {T : Type} (go_right : T -> bool) (deque : list T).

(** The result of a search stays inside the searched range. *)
Lemma bisect_range (first len : nat) :
  (first <= std.bisect go_right deque first len <= first + len)%nat.
Proof.
  funelim (std.bisect go_right deque first len); simp bisect; [lia|].
  cbn zeta. pose proof (std.half_lt n) as Hhalf.
  destruct (deque !! _) as [x|] eqn:Hx; [|lia].
  specialize (H x). specialize (H0 x).
  destruct (go_right x); lia.
Qed.

(** On a range where the elements that send the search right come before
    those that do not, the result splits the range between the two. *)
Lemma bisect_partition (first len : nat) :
  (first + len <= length deque)%nat ->
  (forall i j x y, (first <= i <= j)%nat -> (j < first + len)%nat ->
     deque !! i = Some x -> deque !! j = Some y ->
     go_right y = true -> go_right x = true) ->
  let r := std.bisect go_right deque first len in
  (forall i x, (first <= i < r)%nat -> deque !! i = Some x -> go_right x = true) /\
  (forall i x, (r <= i < first + len)%nat -> deque !! i = Some x -> go_right x = false).
Proof.
  funelim (std.bisect go_right deque first len); simp bisect; intros Hlen Hpart.
  - cbn zeta. split; intros; lia.
  - cbn zeta in *. pose proof (std.half_lt n) as Hhalf.
    set (half := (S n / 2)%nat) in *.
    destruct (deque !! (first + half)%nat) as [x|] eqn:Hx.
    2: { apply lookup_ge_None in Hx. lia. }
    destruct (go_right x) eqn:Hgo.
    + destruct (H x) as [Hlo Hhi]; [lia| |].
      { intros i j a b Hij Hj. apply Hpart; lia. }
      split.
      * intros i a Hi Ha.
        destruct (decide (i <= first + half)%nat) as [Hle|Hgt].
        -- apply (Hpart i (first + half)%nat a x); [lia|lia|done|done|done].
        -- apply (Hlo i a); [lia|done].
      * intros i a Hi Ha. apply (Hhi i a); [lia|done].
    + destruct (H0 x) as [Hlo Hhi]; [lia| |].
      { intros i j a b Hij Hj. apply Hpart; lia. }
      split.
      * intros i a Hi Ha. apply (Hlo i a); [lia|done].
      * intros i a Hi Ha.
        destruct (decide (i < first + half)%nat) as [Hlt|Hge].
        -- apply (Hhi i a); [lia|done].
        -- destruct (go_right a) eqn:Hga; [|done].
           rewrite <- Hgo. symmetry.
           apply (Hpart (first + half)%nat i x a); [lia|lia|done|done|done].
Qed.
End BisectFacts.

(** ** The laws of the orders the columns compare with *)

Lemma Z_order_laws : Spec.order_laws Z.ltb Z.leb.
Proof. split; intros; lia. Qed.

Lemma integer_type_lawful (id : cpp_type) (lo hi : Z) :
  Spec.lawful (integer_type id lo hi).
Proof. exact Z_order_laws. Qed.

(** The comparisons of binary64, on the values the kernel's [float]
    denotes. *)
Ltac spec_float_cases :=
  repeat match goal with
         | s : bool |- _ => destruct s
         end;
  cbn; try discriminate; try reflexivity;
  change (Pos.compare_cont Eq) with Pos.compare;
  repeat match goal with
         | |- context [Z.compare ?x ?y] =>
             let H := fresh "Hz" in
             destruct (Z.compare_spec x y) as [H|H|H]; cbn; try discriminate; try reflexivity
         end;
  repeat match goal with
         | |- context [Pos.compare ?x ?y] =>
             let H := fresh "Hp" in
             destruct (Pos.compare_spec x y) as [H|H|H]; cbn; try discriminate; try reflexivity
         end;
  try (intros; exfalso; lia).

Lemma SFleb_SFltb_trans (a b c : spec_float) :
  SFleb a b = true -> SFltb b c = true -> SFltb a c = true.
Proof.
  unfold SFleb, SFltb.
  destruct a as [sa|sa| |sa ma ea], b as [sb|sb| |sb mb eb], c as [sc|sc| |sc mc ec];
    spec_float_cases.
Qed.

Lemma SFltb_SFleb_trans (a b c : spec_float) :
  SFltb a b = true -> SFleb b c = true -> SFltb a c = true.
Proof.
  unfold SFleb, SFltb.
  destruct a as [sa|sa| |sa ma ea], b as [sb|sb| |sb mb eb], c as [sc|sc| |sc mc ec];
    spec_float_cases.
Qed.

Lemma SFleb_trans (a b c : spec_float) :
  SFleb a b = true -> SFleb b c = true -> SFleb a c = true.
Proof.
  unfold SFleb.
  destruct a as [sa|sa| |sa ma ea], b as [sb|sb| |sb mb eb], c as [sc|sc| |sc mc ec];
    spec_float_cases.
Qed.

Lemma SFltb_SFleb (a b : spec_float) : SFltb a b = true -> SFleb a b = true.
Proof. unfold SFleb, SFltb. by destruct (SFcompare a b) as [[]|]. Qed.

Lemma SFleb_total (a b : spec_float) :
  SFleb a a = true -> SFleb b b = true -> SFltb b a = false -> SFleb a b = true.
Proof.
  unfold SFleb, SFltb.
  destruct a as [sa|sa| |sa ma ea], b as [sb|sb| |sb mb eb]; spec_float_cases.
Qed.

Lemma double_order_laws : Spec.order_laws PrimFloat.ltb PrimFloat.leb.
Proof.
  split; intros *; rewrite ?FloatAxioms.ltb_spec, ?FloatAxioms.leb_spec.
  - apply SFleb_SFltb_trans.
  - apply SFltb_SFleb_trans.
  - apply SFleb_trans.
  - apply SFltb_SFleb.
  - apply SFleb_total.
Qed.

Lemma double_lawful : Spec.lawful double.
Proof. exact double_order_laws. Qed.

Lemma String_ltb_lt (a b : string) :
  String.ltb a b = true <-> OrderedTypeEx.String_as_OT.lt a b.
Proof.
  rewrite <- OrderedTypeEx.String_as_OT.cmp_lt.
  unfold String.ltb, OrderedTypeEx.String_as_OT.cmp.
  destruct (String.compare a b); split; congruence.
Qed.

Lemma String_leb_lt (a b : string) :
  String.leb a b = true <-> ~ OrderedTypeEx.String_as_OT.lt b a.
Proof.
  rewrite <- OrderedTypeEx.String_as_OT.cmp_lt.
  unfold String.leb, OrderedTypeEx.String_as_OT.cmp.
  rewrite (String.compare_antisym a b).
  destruct (String.compare b a); simpl; split; try done; intros H; by destruct H.
Qed.

Lemma String_lt_cases (a b : string) :
  OrderedTypeEx.String_as_OT.lt a b \/ a = b \/ OrderedTypeEx.String_as_OT.lt b a.
Proof.
  destruct (OrderedTypeEx.String_as_OT.compare a b) as [H|H|H]; auto.
Qed.

Lemma String_order_laws : Spec.order_laws String.ltb String.leb.
Proof.
  pose proof OrderedTypeEx.String_as_OT.lt_trans as Htrans.
  pose proof OrderedTypeEx.String_as_OT.lt_not_eq as Hne.
  split; intros *; rewrite ?String_ltb_lt, ?String_leb_lt, <- ?not_true_iff_false,
    ?String_ltb_lt.
  - intros Hba Hbc. destruct (String_lt_cases a b) as [H|[->|H]]; [|done|done].
    by apply (Htrans a b c).
  - intros Hab Hcb. destruct (String_lt_cases b c) as [H|[<-|H]]; [|done|done].
    by apply (Htrans a b c).
  - intros Hba Hcb Hca. destruct (String_lt_cases a b) as [H|[->|H]]; [|done|done].
    apply Hcb. by apply (Htrans c a b).
  - intros Hab Hba. apply (Hne a a); [by apply (Htrans a b a)|done].
  - intros _ _ H. exact H.
Qed.

(** ** The binary searches over a sequence sorted ascending *)

Lemma non_decreasing_lookup {K} (le : K -> K -> bool) (values : list K) :
  Spec.non_decreasing le values ->
  forall i j x y, (i < j)%nat ->
    values !! i = Some x -> values !! j = Some y -> le x y = true.
Proof.
  induction 1 as [|a l Hl IH Hall]; intros i j x y Hij Hi Hj.
  - by rewrite lookup_nil in Hi.
  - destruct j as [|j]; [lia|]. destruct i as [|i]; simpl in *.
    + injection Hi as <-. rewrite Forall_forall in Hall.
      apply Hall. by eapply list_elem_of_lookup_2.
    + apply (IH i j); [lia|done|done].
Qed.

Lemma lookup_non_decreasing {K} (le : K -> K -> bool) (values : list K) :
  (forall i j x y, (i < j)%nat ->
     values !! i = Some x -> values !! j = Some y -> le x y = true) ->
  Spec.non_decreasing le values.
Proof.
  induction values as [|a l IH]; intros H; constructor.
  - apply IH. intros i j x y Hij Hi Hj. apply (H (S i) (S j)); [lia|done|done].
  - apply Forall_forall. intros y Hy. apply list_elem_of_lookup_1 in Hy as [j Hj].
    apply (H 0%nat (S j)); [lia|done|done].
Qed.

Lemma sorted_ascending_lookup {T} (NT : NumericType T) (deque : list T) :
  Spec.sorted_ascending NT deque ->
  forall i j x y, (i <= j)%nat ->
    deque !! i = Some x -> deque !! j = Some y -> less_equal NT x y = true.
Proof.
  intros [Hcomparable Hsorted] i j x y Hij Hi Hj.
  destruct (decide (i = j)) as [->|Hne].
  - assert (x = y) as <- by congruence.
    unfold Spec.comparable in Hcomparable. rewrite Forall_forall in Hcomparable.
    apply Hcomparable. by eapply list_elem_of_lookup_2.
  - apply (non_decreasing_lookup _ _ Hsorted i j); [lia|done|done].
Qed.

Section SortedSearch.
Context {T : Type} (NT : NumericType T).
Hypothesis laws : Spec.lawful NT.

Lemma lower_bound_spec (deque : list T) (first last : nat) (value : T) :
  Spec.sorted_ascending NT deque ->
  (first <= last <= length deque)%nat ->
  let r := std.lower_bound (less NT) deque first last value in
  (first <= r <= last)%nat /\
  (forall i x, (first <= i < r)%nat -> deque !! i = Some x -> less NT x value = true) /\
  (forall i x, (r <= i < last)%nat -> deque !! i = Some x -> less NT x value = false).
Proof.
  intros Hsorted Hrange r. subst r. unfold std.lower_bound.
  pose proof (bisect_range (fun x => less NT x value) deque first (last - first)) as Hr.
  destruct (bisect_partition (fun x => less NT x value) deque first (last - first))
    as [Hlo Hhi]; [lia| |].
  { intros i j x y Hij Hj Hx Hy Hyv.
    apply (Spec.le_lt_trans _ _ laws x y value); [|done].
    apply (sorted_ascending_lookup NT deque Hsorted i j); [lia|done|done]. }
  split; [lia|]. split.
  - intros i x Hi. by apply Hlo.
  - intros i x Hi. apply Hhi. lia.
Qed.

Lemma upper_bound_spec (deque : list T) (first last : nat) (value : T) :
  Spec.sorted_ascending NT deque ->
  (first <= last <= length deque)%nat ->
  let r := std.upper_bound (less NT) deque first last value in
  (first <= r <= last)%nat /\
  (forall i x, (first <= i < r)%nat -> deque !! i = Some x -> less NT value x = false) /\
  (forall i x, (r <= i < last)%nat -> deque !! i = Some x -> less NT value x = true).
Proof.
  intros Hsorted Hrange r. subst r. unfold std.upper_bound.
  pose proof (bisect_range (fun x => negb (less NT value x)) deque first (last - first)) as Hr.
  destruct (bisect_partition (fun x => negb (less NT value x)) deque first (last - first))
    as [Hlo Hhi]; [lia| |].
  { intros i j x y Hij Hj Hx Hy Hyv.
    apply negb_true_iff in Hyv. apply negb_true_iff.
    destruct (less NT value x) eqn:Hvx; [|done].
    rewrite <- Hyv. symmetry.
    apply (Spec.lt_le_trans _ _ laws value x y); [done|].
    apply (sorted_ascending_lookup NT deque Hsorted i j); [lia|done|done]. }
  split; [lia|]. split.
  - intros i x Hi Hx. apply negb_true_iff. by apply (Hlo i x).
  - intros i x Hi Hx. apply negb_false_iff. apply (Hhi i x); [lia|done].
Qed.
End SortedSearch.

(** The linear scan finds the index a split of the range determines. *)
Lemma first_index_from_split {T} (p : T -> bool) (l : list T) (from r : nat) :
  (from <= r <= length l)%nat ->
  (forall i x, (from <= i < r)%nat -> l !! i = Some x -> p x = false) ->
  (forall x, l !! r = Some x -> p x = true) ->
  Spec.first_index_from p l from = r.
Proof.
  unfold Spec.first_index_from. revert from r.
  induction l as [|a l IH]; intros from r Hr Hlo Hat.
  - simpl in Hr. rewrite drop_nil. simpl. lia.
  - destruct from as [|from].
    + rewrite drop_0. destruct r as [|r].
      * simpl. by rewrite (Hat a eq_refl).
      * simpl. rewrite (Hlo 0%nat a ltac:(lia) eq_refl).
        specialize (IH 0%nat r). rewrite drop_0 in IH. simpl in IH.
        rewrite IH; [done|simpl in Hr; lia| |].
        -- intros i x Hi Hx. apply (Hlo (S i) x); [lia|done].
        -- intros x Hx. by apply Hat.
    + destruct r as [|r]; [lia|]. simpl.
      specialize (IH from r). rewrite IH; [lia|simpl in Hr; lia| |].
      * intros i x Hi Hx. apply (Hlo (S i) x); [lia|done].
      * intros x Hx. by apply Hat.
Qed.

(** ** Integer facts used below *)

Lemma static_cast_uint32_small (n : nat) (size : nat) :
  (n <= size)%nat -> Z.of_nat size <= uint32_max ->
  static_cast_uint32 (Z.of_nat n) = Z.of_nat n.
Proof.
  intros Hn Hsize. unfold static_cast_uint32, uint32_max in *.
  apply Z.mod_small. lia.
Qed.

Lemma sorted_ascending_iota (id : cpp_type) (lo hi : Z) (a n : nat) :
  Spec.sorted_ascending (integer_type id lo hi) (Z.of_nat <$> seq a n).
Proof.
  split.
  - apply Forall_forall. intros x _. apply Z.leb_refl.
  - apply lookup_non_decreasing. intros i j x y Hij Hi Hj.
    rewrite list_lookup_fmap in Hi, Hj.
    destruct (seq a n !! i) as [x'|] eqn:Hi'; [|done].
    destruct (seq a n !! j) as [y'|] eqn:Hj'; [|done].
    apply lookup_seq in Hi' as [-> _]. apply lookup_seq in Hj' as [-> _].
    simpl in Hi, Hj. injection Hi as <-. injection Hj as <-.
    apply Z.leb_le. lia.
Qed.

(** ** BoundFilter of a naturally ordered numeric column *)

(** C5. For a naturally ordered numeric column whose sequence is sorted
    ascending (so free of NaN), over an element type whose [<] and [<=]
    are lawful (the integer types and [double]): when the range
    [(min, max)] the operator and the literal resolve to still spans the
    sentinels, [BoundFilter] returns the unconsumed full range; otherwise
    [min_idx] is the first index whose value is not less than [min],
    [max_idx] is the first index at or after [min_idx] whose value is
    greater than [max], and [consumed] is set. *)
Theorem BoundFilter_binary_search {T} (NT : NumericType T)
    (BU : sqlite_utils.BoundUtils T) (this : NumericColumn.t T)
    (op : Z) (value : sqlite3_value) :
  Spec.lawful NT ->
  NumericColumn.is_naturally_ordered_ this = true ->
  Spec.sorted_ascending NT (NumericColumn.deque_ this) ->
  Z.of_nat (length (NumericColumn.deque_ this)) <= uint32_max ->
  let deque := NumericColumn.deque_ this in
  let min := fst (NumericColumn.resolve_range NT BU op value) in
  let max := snd (NumericColumn.resolve_range NT BU op value) in
  NumericColumn.BoundFilter NT BU this op value =
    if less_equal NT min (NumericColumn.kTMin NT) &&
       less_equal NT (NumericColumn.kTMax NT) max
    then {| min_idx := 0; max_idx := Z.of_nat (length deque); consumed := false |}
    else
      let lower := Spec.first_index_from (fun x => negb (less NT x min)) deque 0 in
      let upper := Spec.first_index_from (fun x => less NT max x) deque lower in
      {| min_idx := Z.of_nat lower; max_idx := Z.of_nat upper; consumed := true |}.
Proof.
  intros Hlaws Hflag Hsorted Hsize deque min max.
  unfold NumericColumn.BoundFilter. rewrite Hflag. simpl negb. cbv iota.
  subst min max. destruct (NumericColumn.resolve_range NT BU op value) as [min max].
  simpl fst. simpl snd. fold deque.
  destruct (less_equal NT min (NumericColumn.kTMin NT) &&
            less_equal NT (NumericColumn.kTMax NT) max).
  - unfold with_max_idx, Bounds_default. simpl.
    by rewrite (static_cast_uint32_small _ (length deque)).
  - cbv zeta.
    destruct (lower_bound_spec NT Hlaws deque 0 (length deque) min Hsorted)
      as (Hr & Hlo & Hhi); [lia|].
    set (r := std.lower_bound (less NT) deque 0 (length deque) min) in *.
    destruct (upper_bound_spec NT Hlaws deque r (length deque) max Hsorted)
      as (Hr' & Hlo' & Hhi'); [lia|].
    set (r' := std.upper_bound (less NT) deque r (length deque) max) in *.
    assert (Spec.first_index_from (fun x => negb (less NT x min)) deque 0 = r) as ->.
    { apply first_index_from_split; [lia| |].
      - intros i x Hi Hx. apply negb_false_iff. by apply (Hlo i x).
      - intros x Hx. apply negb_true_iff. apply (Hhi r x); [|done].
        apply lookup_lt_Some in Hx. lia. }
    assert (Spec.first_index_from (fun x => less NT max x) deque r = r') as ->.
    { apply first_index_from_split; [lia| |].
      - intros i x Hi Hx. by apply (Hlo' i x).
      - intros x Hx. apply (Hhi' r' x); [|done].
        apply lookup_lt_Some in Hx. lia. }
    unfold with_consumed, with_max_idx, with_min_idx, Bounds_default. simpl.
    rewrite (static_cast_uint32_small r (length deque)) by (lia || done).
    by rewrite (static_cast_uint32_small r' (length deque)) by (lia || done).
Qed.

Lemma BoundFilter_binary_search_witness :
  NumericColumn.BoundFilter double Spec.reference_bounds_double double_column
    SQLITE_INDEX_CONSTRAINT_GE (SqlFloat 1.5)
  = {| min_idx := 1; max_idx := 4; consumed := true |}.
Proof.
  refine (eq_trans
    (BoundFilter_binary_search double Spec.reference_bounds_double double_column
       SQLITE_INDEX_CONSTRAINT_GE (SqlFloat 1.5) double_lawful eq_refl _ _) _).
  - split; repeat constructor.
  - vm_compute. discriminate.
  - reflexivity.
Defined.

Example scenario_bound_sorted :
  Spec.sorted_ascending int32_t (NumericColumn.deque_ scenario_column).
Proof. split; repeat constructor. Qed.

(** ** The range every BoundFilter returns *)

Lemma NumericColumn_BoundFilter_range {T} (NT : NumericType T)
    (BU : sqlite_utils.BoundUtils T) (this : NumericColumn.t T)
    (op : Z) (value : sqlite3_value) :
  let size := length (NumericColumn.deque_ this) in
  Z.of_nat size <= uint32_max ->
  let bounds := NumericColumn.BoundFilter NT BU this op value in
  (0 <= min_idx bounds <= max_idx bounds /\ max_idx bounds <= Z.of_nat size) /\
  (consumed bounds = true \/ bounds = full_range size) /\
  (NumericColumn.is_naturally_ordered_ this = true \/ bounds = full_range size).
Proof.
  intros size Hsize bounds. subst bounds. unfold NumericColumn.BoundFilter.
  assert (with_max_idx Bounds_default (static_cast_uint32 (Z.of_nat size)) = full_range size)
    as Hfull.
  { unfold with_max_idx, full_range. simpl.
    by rewrite (static_cast_uint32_small size size). }
  fold size. rewrite Hfull.
  destruct (NumericColumn.is_naturally_ordered_ this); simpl negb; cbv iota.
  2: { simpl. repeat split; try lia; by right. }
  destruct (NumericColumn.resolve_range NT BU op value) as [min max].
  destruct (less_equal NT min (NumericColumn.kTMin NT) &&
            less_equal NT (NumericColumn.kTMax NT) max).
  { simpl. repeat split; try lia; by (left + right). }
  cbv zeta.
  pose proof (bisect_range (fun x => less NT x min) (NumericColumn.deque_ this) 0 (size - 0))
    as Hr.
  fold (std.lower_bound (less NT) (NumericColumn.deque_ this) 0 size min) in Hr.
  set (r := std.lower_bound (less NT) (NumericColumn.deque_ this) 0 size min) in *.
  pose proof (bisect_range (fun x => negb (less NT max x)) (NumericColumn.deque_ this)
                r (size - r)) as Hr'.
  fold (std.upper_bound (less NT) (NumericColumn.deque_ this) r size max) in Hr'.
  set (r' := std.upper_bound (less NT) (NumericColumn.deque_ this) r size max) in *.
  simpl.
  rewrite (static_cast_uint32_small r size) by (lia || done).
  rewrite (static_cast_uint32_small r' size) by (lia || done).
  repeat split; try lia; by left.
Qed.

(** C4, as the code has it.  A numeric, string or end-time column of a
    table with [n] rows ([n] within [uint32_t]) returns a range with
    [min_idx <= max_idx <= n], and returns [{0, n, consumed = false}]
    whenever it is not naturally ordered or does not consume the constraint.
    The row-identity column holds no sequence and returns the
    default-constructed bounds [{0, 2^32 - 1, consumed = false}]. *)
Theorem BoundFilter_range_invariant (c : Column) (n : nat)
    (op : Z) (value : sqlite3_value) :
  Spec.has_rows c n ->
  Z.of_nat n <= uint32_max ->
  let bounds := BoundFilter c op value in
  match c with
  | ColId _ => bounds = {| min_idx := 0; max_idx := 2 ^ 32 - 1; consumed := false |}
  | _ =>
      (0 <= min_idx bounds <= max_idx bounds /\ max_idx bounds <= Z.of_nat n) /\
      (consumed bounds = true \/ bounds = full_range n) /\
      (IsNaturallyOrdered c = true \/ bounds = full_range n)
  end.
Proof.
  intros Hrows Hn bounds. subst bounds.
  destruct c as [T NT BU col|col|col|col]; simpl in *.
  - subst n. by apply NumericColumn_BoundFilter_range.
  - destruct Hrows as [Hlen _]. unfold StringColumn.BoundFilter.
    rewrite Hlen. unfold with_max_idx. simpl.
    rewrite (static_cast_uint32_small n n) by (lia || done).
    fold (full_range n). simpl. repeat split; try lia; by right.
  - destruct Hrows as [Hlen _]. unfold TsEndColumn.BoundFilter.
    rewrite Hlen. unfold with_max_idx. simpl.
    rewrite (static_cast_uint32_small n n) by (lia || done).
    fold (full_range n). simpl. repeat split; try lia; by right.
  - reflexivity.
Qed.

Lemma BoundFilter_range_invariant_witness :
  let bounds := BoundFilter (ColString scenario_strings) SQLITE_INDEX_CONSTRAINT_EQ
                  (SqlText "foo") in
  (0 <= min_idx bounds <= max_idx bounds /\ max_idx bounds <= 3) /\
  (consumed bounds = true \/ bounds = full_range 3) /\
  (IsNaturallyOrdered (ColString scenario_strings) = true \/ bounds = full_range 3).
Proof.
  apply (BoundFilter_range_invariant (ColString scenario_strings) 3
           SQLITE_INDEX_CONSTRAINT_EQ (SqlText "foo")).
  - split; [reflexivity|]. repeat constructor.
  - vm_compute. discriminate.
Defined.

(** C4, as stated, fails on the row-identity column: in a table with five
    rows its bounds are not [{0, 5, false}] and [max_idx] exceeds the number
    of rows. *)
Lemma IdColumn_bounds_exceed_table :
  let c := ColId {| IdColumn.col_name_ := "id"; IdColumn.table_id_ := 3 |} in
  let bounds := BoundFilter c SQLITE_INDEX_CONSTRAINT_EQ (SqlInteger 7) in
  Spec.has_rows c 5 /\
  bounds <> full_range 5 /\
  ~ (min_idx bounds <= max_idx bounds /\ max_idx bounds <= 5).
Proof.
  simpl. split; [exact I|]. split.
  - discriminate.
  - unfold uint32_max. lia.
Qed.

(** C9. [IdColumn::BoundFilter] returns the default-constructed bounds
    [{0, 2^32 - 1, false}] whatever the operator and the value: its
    [max_idx] is no table length.  The string column returns
    [{0, size, false}] with the size of its deque.  The numeric column
    returns [{0, size, false}] on every path that does not consume the
    constraint, a column that is not naturally ordered first; when it
    consumes, [max_idx] is the index its search over the deque ends at; and
    in every case [max_idx] stays within the size of the deque. *)
Theorem IdColumn_BoundFilter_default :
  (forall (this : IdColumn.t) (op : Z) (value : sqlite3_value),
     IdColumn.BoundFilter this op value
     = {| min_idx := 0; max_idx := 2 ^ 32 - 1; consumed := false |}) /\
  (forall (this : StringColumn.t) (op : Z) (value : sqlite3_value),
     StringColumn.BoundFilter this op value
     = {| min_idx := 0;
          max_idx := static_cast_uint32 (Z.of_nat (length (StringColumn.deque_ this)));
          consumed := false |}) /\
  (forall T (NT : NumericType T) (BU : sqlite_utils.BoundUtils T)
          (this : NumericColumn.t T) (op : Z) (value : sqlite3_value),
     let deque := NumericColumn.deque_ this in
     let size := length deque in
     let bounds := NumericColumn.BoundFilter NT BU this op value in
     let whole :=
       {| min_idx := 0; max_idx := static_cast_uint32 (Z.of_nat size); consumed := false |} in
     (NumericColumn.is_naturally_ordered_ this = false -> bounds = whole) /\
     (consumed bounds = false -> bounds = whole) /\
     (consumed bounds = true ->
      exists first : nat,
        (first <= size)%nat /\
        max_idx bounds
        = static_cast_uint32
            (Z.of_nat (std.upper_bound (less NT) deque first size
                         (snd (NumericColumn.resolve_range NT BU op value))))) /\
     (Z.of_nat size <= uint32_max -> max_idx bounds <= Z.of_nat size)).
Proof.
  split; [reflexivity|]. split; [reflexivity|].
  intros T NT BU this op value deque size bounds whole.
  split; [|split; [|split]].
  - intros Hflag. subst bounds. unfold NumericColumn.BoundFilter. by rewrite Hflag.
  - subst bounds whole. unfold NumericColumn.BoundFilter.
    destruct (NumericColumn.is_naturally_ordered_ this); simpl negb; cbv iota; [|done].
    destruct (NumericColumn.resolve_range NT BU op value) as [min max].
    by destruct (less_equal NT min (NumericColumn.kTMin NT) &&
                 less_equal NT (NumericColumn.kTMax NT) max).
  - subst bounds. unfold NumericColumn.BoundFilter.
    destruct (NumericColumn.is_naturally_ordered_ this); simpl negb; cbv iota; [|done].
    destruct (NumericColumn.resolve_range NT BU op value) as [min max].
    destruct (less_equal NT min (NumericColumn.kTMin NT) &&
              less_equal NT (NumericColumn.kTMax NT) max); [done|].
    intros _. exists (std.lower_bound (less NT) deque 0 size min). split; [|done].
    pose proof (bisect_range (fun x => less NT x min) deque 0 (size - 0)) as Hr.
    unfold std.lower_bound. lia.
  - intros Hsize.
    by destruct (NumericColumn_BoundFilter_range NT BU this op value Hsize) as [[_ H] _].
Qed.

Lemma IdColumn_BoundFilter_default_witness :
  IdColumn.BoundFilter {| IdColumn.col_name_ := "id"; IdColumn.table_id_ := 3 |}
    SQLITE_INDEX_CONSTRAINT_EQ (SqlInteger 7)
  = {| min_idx := 0; max_idx := 2 ^ 32 - 1; consumed := false |} /\
  max_idx (NumericColumn.BoundFilter int32_t (Spec.reference_bounds int32_t) scenario_column
             SQLITE_INDEX_CONSTRAINT_EQ (SqlInteger 25)) <= 5.
Proof.
  destruct IdColumn_BoundFilter_default as (Hid & _ & Hnumeric). split.
  - apply Hid.
  - apply (Hnumeric Z int32_t (Spec.reference_bounds int32_t) scenario_column
             SQLITE_INDEX_CONSTRAINT_EQ (SqlInteger 25)).
    vm_compute. discriminate.
Defined.

(** ** The rows inside the bounds of a naturally ordered numeric column *)

Section OrderedBounds.
Context {T : Type} (NT : NumericType T) (BU : sqlite_utils.BoundUtils T).
Context (this : NumericColumn.t T) (op : Z) (value : sqlite3_value).
Hypothesis laws : Spec.lawful NT.
Hypothesis ordered : NumericColumn.is_naturally_ordered_ this = true.
Hypothesis sorted : Spec.sorted_ascending NT (NumericColumn.deque_ this).
Hypothesis size_fits : Z.of_nat (length (NumericColumn.deque_ this)) <= uint32_max.

Let min := fst (NumericColumn.resolve_range NT BU op value).
Let max := snd (NumericColumn.resolve_range NT BU op value).
Let bounds := NumericColumn.BoundFilter NT BU this op value.
Let spans := less_equal NT min (NumericColumn.kTMin NT) &&
             less_equal NT (NumericColumn.kTMax NT) max.

(** Either the resolved range spans the sentinels and the bounds are the
    unconsumed full range, or the bounds are consumed and hold exactly
    the rows whose value lies in the resolved range. *)
Lemma BoundFilter_rows :
  (spans = true /\ bounds = full_range (length (NumericColumn.deque_ this))) \/
  (spans = false /\ consumed bounds = true /\
   forall row x, NumericColumn.deque_ this !! row = Some x ->
     (min_idx bounds <= Z.of_nat row < max_idx bounds
      <-> less NT x min = false /\ less NT max x = false)).
Proof.
  subst bounds spans min max. unfold NumericColumn.BoundFilter.
  rewrite ordered. simpl negb. cbv iota.
  destruct (NumericColumn.resolve_range NT BU op value) as [min max].
  simpl fst. simpl snd.
  set (deque := NumericColumn.deque_ this) in *.
  destruct (less_equal NT min (NumericColumn.kTMin NT) &&
            less_equal NT (NumericColumn.kTMax NT) max).
  - left. split; [done|]. unfold with_max_idx, full_range. simpl.
    by rewrite (static_cast_uint32_small _ (length deque)).
  - right. split; [done|]. cbv zeta.
    destruct (lower_bound_spec NT laws deque 0 (length deque) min sorted)
      as (Hr & Hlo & Hhi); [lia|].
    set (r := std.lower_bound (less NT) deque 0 (length deque) min) in *.
    destruct (upper_bound_spec NT laws deque r (length deque) max sorted)
      as (Hr' & Hlo' & Hhi'); [lia|].
    set (r' := std.upper_bound (less NT) deque r (length deque) max) in *.
    simpl.
    rewrite (static_cast_uint32_small r (length deque)) by (lia || done).
    rewrite (static_cast_uint32_small r' (length deque)) by (lia || done).
    split; [done|]. intros row x Hx.
    pose proof (lookup_lt_Some _ _ _ Hx) as Hrow. split.
    + intros Hin. split.
      * apply (Hhi row x); [lia|done].
      * apply (Hlo' row x); [lia|done].
    + intros [Hmin Hmax].
      destruct (decide (row < r)%nat) as [Hlt|Hge].
      { rewrite (Hlo row x) in Hmin; [done|lia|done]. }
      destruct (decide (row < r')%nat) as [Hlt'|Hge']; [lia|].
      rewrite (Hhi' row x) in Hmax; [done|lia|done].
Qed.

(** When every stored value the predicate accepts lies in the resolved
    range, no row outside the bounds satisfies the predicate. *)
Lemma BoundFilter_sound_for_sound_range :
  (forall x, Spec.satisfies NT op value x ->
     less NT x min = false /\ less NT max x = false) ->
  forall row x, NumericColumn.deque_ this !! row = Some x ->
    Spec.satisfies NT op value x ->
    min_idx bounds <= Z.of_nat row < max_idx bounds.
Proof.
  intros Hrange row x Hx Hsat.
  destruct BoundFilter_rows as [[_ Hfull]|(_ & _ & Hrows)].
  - fold bounds in Hfull. rewrite Hfull. simpl.
    apply lookup_lt_Some in Hx. lia.
  - apply (Hrows row x Hx). by apply Hrange.
Qed.

(** When the resolved range holds exactly the stored values the predicate
    accepts, consumed bounds hold exactly the rows that satisfy it. *)
Lemma BoundFilter_tight_for_exact_range :
  (forall x, Spec.satisfies NT op value x <->
     less NT x min = false /\ less NT max x = false) ->
  consumed bounds = true ->
  forall row x, NumericColumn.deque_ this !! row = Some x ->
    (min_idx bounds <= Z.of_nat row < max_idx bounds <-> Spec.satisfies NT op value x).
Proof.
  intros Hexact Hconsumed row x Hx.
  destruct BoundFilter_rows as [[_ Hfull]|(_ & _ & Hrows)].
  - fold bounds in Hfull. rewrite Hfull in Hconsumed. discriminate.
  - rewrite (Hrows row x Hx). symmetry. apply Hexact.
Qed.
End OrderedBounds.

(** On integers the binary test of an operator is the comparison the
    operator names. *)
Lemma int64_test_holds (op : Z) (test : Z -> Z -> bool) (x i : Z) :
  sqlite_utils.GetPredicateForOp sqlite_utils.int64_domain op = Ok test ->
  test x i = true <-> Spec.holds op x i.
Proof.
  unfold sqlite_utils.GetPredicateForOp, sqlite_utils.IsOpEq, sqlite_utils.IsOpGe,
    sqlite_utils.IsOpGt, sqlite_utils.IsOpLe, sqlite_utils.IsOpLt, sqlite_utils.IsOpNe.
  intros H.
  repeat match type of H with
         | context [op =? ?k] => destruct (Z.eqb_spec op k) as [->|?]
         end;
    try discriminate; injection H as <-; simpl.
  - rewrite Z.eqb_eq. split; [by constructor|by inversion 1].
  - rewrite Z.leb_le. split; [constructor; lia|inversion 1; lia].
  - rewrite Z.ltb_lt. split; [constructor; lia|inversion 1; lia].
  - rewrite Z.leb_le. split; [by constructor|by inversion 1].
  - rewrite Z.ltb_lt. split; [by constructor|by inversion 1].
  - rewrite negb_true_iff, Z.eqb_neq. split; [by constructor|by inversion 1].
Qed.

Lemma value_predicate_integer (id : cpp_type) (lo hi : Z) (op i : Z)
    (p : Z -> bool) (x : Z) :
  Spec.value_predicate (integer_type id lo hi) op (SqlInteger i) = Ok p ->
  p x = true <-> Spec.holds op x i.
Proof.
  unfold Spec.value_predicate. simpl.
  destruct (sqlite_utils.GetPredicateForOp sqlite_utils.int64_domain op) as [test| |] eqn:Htest;
    simpl; try discriminate.
  intros H. injection H as <-. by apply int64_test_holds.
Qed.

(** With the reference helpers, the range an integer literal resolves to
    holds every value of the element type that the predicate accepts: the
    premise of [BoundFilter_sound_for_sound_range] can be met. *)
Lemma reference_range_sound (id : cpp_type) (lo hi : Z) (op i x : Z) :
  lo <= x <= hi ->
  Spec.satisfies (integer_type id lo hi) op (SqlInteger i) x ->
  let NT := integer_type id lo hi in
  let range := NumericColumn.resolve_range NT (Spec.reference_bounds NT) op (SqlInteger i) in
  (x <? fst range) = false /\ (snd range <? x) = false.
Proof.
  intros Hx (p & Hp & Hpx) NT range. subst range NT.
  apply (value_predicate_integer id lo hi op i p x Hp) in Hpx.
  rewrite !Z.ltb_ge.
  inversion Hpx; subst; cbn; unfold Spec.clamp, NumericColumn.kTMin, NumericColumn.kTMax;
    cbn; lia.
Qed.

(** For an integer literal and the reference helpers, no row outside the
    bounds of a naturally ordered integer column satisfies the predicate. *)
Lemma BoundFilter_sound_integer_literal (id : cpp_type) (lo hi : Z)
    (this : NumericColumn.t Z) (op i : Z) (row : nat) (x : Z) :
  let NT := integer_type id lo hi in
  NumericColumn.is_naturally_ordered_ this = true ->
  Spec.sorted_ascending NT (NumericColumn.deque_ this) ->
  Forall (fun x => lo <= x <= hi) (NumericColumn.deque_ this) ->
  Z.of_nat (length (NumericColumn.deque_ this)) <= uint32_max ->
  NumericColumn.deque_ this !! row = Some x ->
  Spec.satisfies NT op (SqlInteger i) x ->
  let bounds := NumericColumn.BoundFilter NT (Spec.reference_bounds NT) this op (SqlInteger i) in
  min_idx bounds <= Z.of_nat row < max_idx bounds.
Proof.
  intros NT Hordered Hsorted Hrange Hsize Hx Hsat bounds. subst bounds.
  destruct (BoundFilter_rows NT (Spec.reference_bounds NT) this op (SqlInteger i)
              (integer_type_lawful id lo hi) Hordered Hsorted Hsize)
    as [[_ ->]|(_ & _ & Hrows)].
  - simpl. apply lookup_lt_Some in Hx. lia.
  - apply (Hrows row x Hx). apply reference_range_sound; [|done].
    rewrite Forall_forall in Hrange. apply Hrange. by eapply list_elem_of_lookup_2.
Qed.

(** ** Where the bounds and the filter disagree *)

Lemma resolve_range_eq {T} (NT : NumericType T) (BU : sqlite_utils.BoundUtils T)
    (value : sqlite3_value) :
  NumericColumn.resolve_range NT BU SQLITE_INDEX_CONSTRAINT_EQ value
  = (sqlite_utils.FindEqBound BU value, sqlite_utils.FindEqBound BU value).
Proof. reflexivity. Qed.

Example unbounded_column_reference_bounds :
  NumericColumn.BoundFilter double Spec.reference_bounds_double unbounded_column
    SQLITE_INDEX_CONSTRAINT_GE (SqlFloat 0.5)
  = {| min_idx := 1; max_idx := 2; consumed := true |}.
Proof. reflexivity. Qed.

Example byte_column_reference_bounds :
  NumericColumn.BoundFilter uint8_t (Spec.reference_bounds uint8_t) byte_column
    SQLITE_INDEX_CONSTRAINT_EQ (SqlInteger 256)
  = {| min_idx := 255; max_idx := 256; consumed := true |}.
Proof. vm_compute. reflexivity. Qed.

(** C1 at a failing input.  On [unbounded_column], naturally ordered and
    sorted ascending, whose last value is [+infinity], for the constraint
    [>= 0.5] and whatever the bound helpers return: the row of [+infinity]
    satisfies the predicate and [Filter] keeps it; [BoundFilter] consumes
    the constraint as soon as the helper narrows the lower end at all; and
    whenever it consumes, that row lies outside the returned bounds, the
    upper end of the value range having stayed at
    [numeric_limits<double>::max()]. *)
Theorem BoundFilter_excludes_matching_row (BU : sqlite_utils.BoundUtils float) :
  let value := SqlFloat 0.5 in
  let bounds :=
    NumericColumn.BoundFilter double BU unbounded_column SQLITE_INDEX_CONSTRAINT_GE value in
  (NumericColumn.is_naturally_ordered_ unbounded_column = true /\
   Spec.sorted_ascending double (NumericColumn.deque_ unbounded_column)) /\
  NumericColumn.deque_ unbounded_column !! 2%nat = Some PrimFloat.infinity /\
  Spec.holds_double SQLITE_INDEX_CONSTRAINT_GE PrimFloat.infinity 0.5 /\
  NumericColumn.Filter double unbounded_column SQLITE_INDEX_CONSTRAINT_GE value (all_rows 3)
  = Ok [1; 2]%nat /\
  (consumed bounds = true <->
   PrimFloat.leb (sqlite_utils.FindGtBound BU true value) (numeric_limits_lowest double)
   = false) /\
  (consumed bounds = true -> ~ (min_idx bounds <= Z.of_nat 2 < max_idx bounds)).
Proof.
  intros value bounds.
  split; [split; [reflexivity|split; repeat constructor]|].
  split; [reflexivity|]. split; [by constructor|]. split; [reflexivity|].
  subst bounds. unfold NumericColumn.BoundFilter.
  change (NumericColumn.is_naturally_ordered_ unbounded_column) with true.
  simpl negb. cbv iota.
  change (NumericColumn.resolve_range double BU SQLITE_INDEX_CONSTRAINT_GE value)
    with (sqlite_utils.FindGtBound BU true value, NumericColumn.kTMax double).
  set (min := sqlite_utils.FindGtBound BU true value). cbv beta iota.
  change (less_equal double (NumericColumn.kTMax double) (NumericColumn.kTMax double))
    with true.
  match goal with
  | |- context [if ?b && true then _ else _] => destruct b eqn:Hspans
  end; simpl andb; cbv iota.
  { cbn [consumed with_max_idx Bounds_default].
    split; [split; [discriminate|]|discriminate].
    intros H. exact (eq_trans (eq_sym H) Hspans). }
  cbv zeta. cbn [consumed with_consumed].
  split; [split; [intros _; exact Hspans|done]|]. intros _.
  change (NumericColumn.deque_ unbounded_column) with [0.25; 1; PrimFloat.infinity]%float.
  change (length [0.25; 1; PrimFloat.infinity]%float) with 3%nat.
  pose proof (bisect_range (fun x => less double x min) [0.25; 1; PrimFloat.infinity]%float
                0 (3 - 0)) as Hr.
  fold (std.lower_bound (less double) [0.25; 1; PrimFloat.infinity]%float 0 3 min) in Hr.
  set (r := std.lower_bound (less double) [0.25; 1; PrimFloat.infinity]%float 0 3 min) in *.
  assert (r = 0 \/ r = 1 \/ r = 2 \/ r = 3)%nat as Hcases by lia.
  destruct Hcases as [-> |[-> |[-> | ->]]]; vm_compute; intros [H1 H2];
    by (apply H1 || discriminate).
Qed.

Lemma BoundFilter_excludes_matching_row_witness :
  let bounds :=
    NumericColumn.BoundFilter double Spec.reference_bounds_double unbounded_column
      SQLITE_INDEX_CONSTRAINT_GE (SqlFloat 0.5) in
  bounds = {| min_idx := 1; max_idx := 2; consumed := true |} /\
  ~ (min_idx bounds <= Z.of_nat 2 < max_idx bounds).
Proof.
  split; [reflexivity|].
  apply (BoundFilter_excludes_matching_row Spec.reference_bounds_double).
  reflexivity.
Defined.

(** C2 at a failing input.  On [byte_column], for the constraint [= 256]
    and whatever value of [uint8_t] the helper [FindEqBound] returns,
    [BoundFilter] consumes the constraint and its range holds a row, while
    no row satisfies the predicate: [Filter] keeps none. *)
Theorem BoundFilter_consumed_not_tight (BU : sqlite_utils.BoundUtils Z) :
  let value := SqlInteger 256 in
  0 <= sqlite_utils.FindEqBound BU value <= 255 ->
  let bounds :=
    NumericColumn.BoundFilter uint8_t BU byte_column SQLITE_INDEX_CONSTRAINT_EQ value in
  consumed bounds = true /\
  NumericColumn.Filter uint8_t byte_column SQLITE_INDEX_CONSTRAINT_EQ value (all_rows 256)
  = Ok [] /\
  exists row x,
    NumericColumn.deque_ byte_column !! row = Some x /\
    min_idx bounds <= Z.of_nat row < max_idx bounds /\
    ~ Spec.satisfies uint8_t SQLITE_INDEX_CONSTRAINT_EQ value x.
Proof.
  intros value Hval bounds.
  destruct (BoundFilter_rows uint8_t BU byte_column SQLITE_INDEX_CONSTRAINT_EQ value
              (integer_type_lawful _ _ _) eq_refl) as [[Hspans _]|(_ & Hconsumed & Hrows)].
  { apply sorted_ascending_iota. }
  { vm_compute. discriminate. }
  { rewrite resolve_range_eq in Hspans. simpl in Hspans.
    apply andb_true_iff in Hspans as [H1 H2].
    apply Z.leb_le in H1, H2. unfold NumericColumn.kTMin, NumericColumn.kTMax in *.
    simpl in *. lia. }
  fold bounds in Hconsumed, Hrows. rewrite resolve_range_eq in Hrows.
  cbn [fst snd] in Hrows.
  split; [done|]. split; [vm_compute; reflexivity|].
  set (val := sqlite_utils.FindEqBound BU value) in *.
  assert (NumericColumn.deque_ byte_column !! Z.to_nat val = Some val) as Hlookup.
  { change (NumericColumn.deque_ byte_column) with (Z.of_nat <$> seq 0 256).
    rewrite list_lookup_fmap, lookup_seq_lt by lia. simpl. f_equal. lia. }
  exists (Z.to_nat val), val. split; [done|]. split.
  - rewrite (Hrows _ _ Hlookup). change (less uint8_t) with Z.ltb. lia.
  - intros (p & Hp & Hpx).
    change (Ok (fun x : Z => x =? 256) = Ok p) in Hp. injection Hp as <-.
    apply Z.eqb_eq in Hpx. lia.
Qed.

Lemma BoundFilter_consumed_not_tight_witness :
  let value := SqlInteger 256 in
  let bounds :=
    NumericColumn.BoundFilter uint8_t (Spec.reference_bounds uint8_t) byte_column
      SQLITE_INDEX_CONSTRAINT_EQ value in
  consumed bounds = true /\
  NumericColumn.Filter uint8_t byte_column SQLITE_INDEX_CONSTRAINT_EQ value (all_rows 256)
  = Ok [] /\
  exists row x,
    NumericColumn.deque_ byte_column !! row = Some x /\
    min_idx bounds <= Z.of_nat row < max_idx bounds /\
    ~ Spec.satisfies uint8_t SQLITE_INDEX_CONSTRAINT_EQ value x.
Proof.
  apply (BoundFilter_consumed_not_tight (Spec.reference_bounds uint8_t)).
  vm_compute. split; discriminate.
Defined.

(** ** Filter *)

Lemma FilterRows_sublist (predicate : Predicate) (index out : FilteredRowIndex) :
  FilterRows predicate index = Ok out -> out `sublist_of` index.
Proof.
  revert out. induction index as [|row rest IH]; intros out H; simpl in H.
  - injection H as <-. constructor.
  - destruct (predicate row) as [keep| |]; simpl in H; try discriminate.
    destruct (FilterRows predicate rest) as [rest'| |]; simpl in H; try discriminate.
    injection H as <-. specialize (IH rest' eq_refl).
    destruct keep; by constructor.
Qed.

Lemma FilterRows_total (predicate : Predicate) (index : FilteredRowIndex) :
  (forall row, row ∈ index -> exists b, predicate row = Ok b) ->
  exists out, FilterRows predicate index = Ok out /\
    forall row, row ∈ out <-> row ∈ index /\ predicate row = Ok true.
Proof.
  induction index as [|r rest IH]; intros Htotal; simpl.
  - exists []. split; [done|]. intros row. split; [inversion 1|intros [H _]; inversion H].
  - destruct (Htotal r) as [keep Hkeep]; [left|].
    destruct IH as (rest' & Hrest & Hmem).
    { intros row Hrow. apply Htotal. by right. }
    rewrite Hkeep, Hrest. simpl.
    exists (if keep then r :: rest' else rest'). split; [done|].
    intros row. destruct keep.
    + rewrite !elem_of_cons, Hmem. split.
      * intros [->|[H1 H2]]; [split; [by left|done]|split; [by right|done]].
      * intros [[->|H1] H2]; [by left|right; done].
    + rewrite elem_of_cons, Hmem. split.
      * intros [H1 H2]. split; [by right|done].
      * intros [[->|H1] H2]; [congruence|done].
Qed.

Lemma at_row_Some {A} (deque : list A) (row : nat) :
  (row < length deque)%nat -> exists x, at_row deque row = Ok x.
Proof.
  intros H. apply lookup_lt_is_Some_2 in H as [x Hx].
  exists x. unfold at_row. by rewrite Hx.
Qed.

(** On binary64 values the binary test of an operator is the IEEE 754
    comparison the operator names. *)
Lemma double_test_holds (op : Z) (test : float -> float -> bool) (x d : float) :
  sqlite_utils.GetPredicateForOp sqlite_utils.double_domain op = Ok test ->
  test x d = true <-> Spec.holds_double op x d.
Proof.
  unfold sqlite_utils.GetPredicateForOp, sqlite_utils.IsOpEq, sqlite_utils.IsOpGe,
    sqlite_utils.IsOpGt, sqlite_utils.IsOpLe, sqlite_utils.IsOpLt, sqlite_utils.IsOpNe.
  intros H.
  repeat match type of H with
         | context [op =? ?k] => destruct (Z.eqb_spec op k) as [->|?]
         end;
    try discriminate; injection H as <-; simpl.
  - split; [by constructor|by inversion 1].
  - split; [by constructor|by inversion 1].
  - split; [by constructor|by inversion 1].
  - split; [by constructor|by inversion 1].
  - split; [by constructor|by inversion 1].
  - rewrite negb_true_iff. split; [by constructor|by inversion 1].
Qed.

Lemma GetPredicateForOp_comparison {C} (D : sqlite_utils.Domain C) (op : Z) :
  Spec.comparison op -> exists test, sqlite_utils.GetPredicateForOp D op = Ok test.
Proof. intros [->|[->|[->|[->|[->| ->]]]]]; by eexists. Qed.

(** [FilterWithCast<C>] keeps the candidate rows whose stored value, cast
    to [C], passes the binary test of the operator against the literal. *)
Lemma FilterWithCast_keeps {T C} (D : sqlite_utils.Domain C) (cast : T -> C)
    (this : NumericColumn.t T) (op : Z) (value : sqlite3_value)
    (index : FilteredRowIndex) (test : C -> C -> bool) (literal : C) :
  sqlite_utils.GetPredicateForOp D op = Ok test ->
  sqlite_utils.ExtractSqliteValue D value = Ok literal ->
  Forall (fun row => (row < length (NumericColumn.deque_ this))%nat) index ->
  Spec.keeps (NumericColumn.FilterWithCast D cast this op value index)
    (NumericColumn.deque_ this) index (fun x => test (cast x) literal = true).
Proof.
  intros Htest Hliteral Hindex. unfold NumericColumn.FilterWithCast.
  rewrite Htest, Hliteral. simpl.
  destruct (FilterRows_total
              (fun row => val ← at_row (NumericColumn.deque_ this) row;
                          Ok (test (cast val) literal))
              index) as (out & Hout & Hmem).
  { intros row Hrow. rewrite Forall_forall in Hindex.
    destruct (at_row_Some _ row (Hindex row Hrow)) as [x ->]. by eexists. }
  exists out. split; [done|]. intros row. rewrite Hmem.
  split; intros [Hrow H]; (split; [done|]).
  - unfold at_row in H.
    destruct (NumericColumn.deque_ this !! row) as [x|]; [|done].
    simpl in H. injection H as H. by exists x.
  - destruct H as (x & Hx & Hpass). unfold at_row. rewrite Hx. simpl. by f_equal.
Qed.

Lemma keeps_iff {T} (outcome : result FilteredRowIndex) (deque : list T)
    (index : FilteredRowIndex) (P Q : T -> Prop) :
  (forall x, P x <-> Q x) ->
  Spec.keeps outcome deque index P -> Spec.keeps outcome deque index Q.
Proof.
  intros HPQ (out & Hout & Hmem). exists out. split; [done|].
  intros row. rewrite Hmem. split; intros [Hrow (x & Hx & H)];
    (split; [done|]); exists x; (split; [done|]); by apply HPQ.
Qed.

(** C6. [NumericColumn::Filter] compares exact 64-bit signed integers when
    the value is an integer and [T] is an integer type: of the candidate
    rows it keeps those whose stored value, as an [int64_t], stands to the
    literal as the operator says.  For an integer value on any other [T],
    and for a floating-point value on every [T], it compares binary64
    values: the stored value cast to [double], against the literal as a
    [double].  For a text or a null it reaches the fatal branch, whatever
    the operator and the candidate rows. *)
Theorem Filter_comparison_domain {T} (NT : NumericType T) (this : NumericColumn.t T)
    (op : Z) (value : sqlite3_value) (index : FilteredRowIndex) :
  let filtered := NumericColumn.Filter NT this op value index in
  let deque := NumericColumn.deque_ this in
  let candidates :=
    Spec.comparison op /\
    Forall (fun row => (row < length deque)%nat) index in
  match value with
  | SqlInteger i =>
      if is_integral NT
      then candidates ->
           Spec.keeps filtered deque index (fun x => Spec.holds op (cast_int64 NT x) i)
      else candidates ->
           Spec.keeps filtered deque index
             (fun x => Spec.holds_double op (cast_double NT x) (double_of_int64 i))
  | SqlFloat d =>
      candidates ->
      Spec.keeps filtered deque index (fun x => Spec.holds_double op (cast_double NT x) d)
  | SqlText _ | SqlNull =>
      filtered = Fatal "Unexpected sqlite value to compare against"
  end.
Proof.
  intros filtered deque candidates. subst filtered deque candidates.
  unfold NumericColumn.Filter.
  destruct value as [i|d|str|]; simpl; [| |done..].
  - destruct (is_integral NT); simpl; intros [Hop Hindex].
    + destruct (GetPredicateForOp_comparison sqlite_utils.int64_domain op Hop)
        as [test Htest].
      eapply keeps_iff;
        [|exact (FilterWithCast_keeps sqlite_utils.int64_domain (cast_int64 NT) this op
                   (SqlInteger i) index test i Htest eq_refl Hindex)].
      intros x. by apply int64_test_holds.
    + destruct (GetPredicateForOp_comparison sqlite_utils.double_domain op Hop)
        as [test Htest].
      eapply keeps_iff;
        [|exact (FilterWithCast_keeps sqlite_utils.double_domain (cast_double NT) this op
                   (SqlInteger i) index test (double_of_int64 i) Htest eq_refl Hindex)].
      intros x. by apply double_test_holds.
  - intros [Hop Hindex].
    destruct (GetPredicateForOp_comparison sqlite_utils.double_domain op Hop)
      as [test Htest].
    eapply keeps_iff;
      [|exact (FilterWithCast_keeps sqlite_utils.double_domain (cast_double NT) this op
                 (SqlFloat d) index test d Htest eq_refl Hindex)].
    intros x. by apply double_test_holds.
Qed.

Lemma Filter_comparison_domain_witness :
  Spec.keeps
    (NumericColumn.Filter int64_t rounding_column SQLITE_INDEX_CONSTRAINT_EQ
       (SqlInteger (2 ^ 53)) (all_rows 2))
    (NumericColumn.deque_ rounding_column) (all_rows 2)
    (fun x => Spec.holds SQLITE_INDEX_CONSTRAINT_EQ x (2 ^ 53)) /\
  Spec.keeps
    (NumericColumn.Filter int64_t rounding_column SQLITE_INDEX_CONSTRAINT_EQ
       (SqlFloat 9007199254740992) (all_rows 2))
    (NumericColumn.deque_ rounding_column) (all_rows 2)
    (fun x => Spec.holds_double SQLITE_INDEX_CONSTRAINT_EQ (double_of_int64 x)
                9007199254740992).
Proof.
  split.
  - apply (Filter_comparison_domain int64_t rounding_column SQLITE_INDEX_CONSTRAINT_EQ
             (SqlInteger (2 ^ 53)) (all_rows 2)).
    split; [by left|repeat constructor].
  - apply (Filter_comparison_domain int64_t rounding_column SQLITE_INDEX_CONSTRAINT_EQ
             (SqlFloat 9007199254740992) (all_rows 2)).
    split; [by left|repeat constructor].
Defined.

(** The two domains differ: the integer literal [2^53] finds the one row
    that holds it, the floating-point literal of the same value also keeps
    the row of [2^53 + 1], which rounds to it. *)
Example Filter_domains_differ :
  NumericColumn.Filter int64_t rounding_column SQLITE_INDEX_CONSTRAINT_EQ
    (SqlInteger (2 ^ 53)) (all_rows 2) = Ok [0%nat] /\
  NumericColumn.Filter int64_t rounding_column SQLITE_INDEX_CONSTRAINT_EQ
    (SqlFloat 9007199254740992) (all_rows 2) = Ok [0; 1]%nat.
Proof. split; reflexivity. Qed.

Section FilterEquivalence.
Variable CreateRowId : Z -> nat -> Z.

(** [Filter] narrows by the row predicate, for the column kinds that
    filter at all. *)
Lemma Filter_by_row_predicate (c : Column) (op : Z) (value : sqlite3_value)
    (p : Predicate) (index : FilteredRowIndex) :
  (if c is ColString _ then False else True) ->
  Spec.row_predicate CreateRowId c op value = Ok p ->
  Filter CreateRowId c op value index = FilterRows p index.
Proof.
  intros Hkind Hp. destruct c as [T NT BU col|col|col|col]; [|done| |]; simpl in *.
  - unfold NumericColumn.Filter, NumericColumn.FilterWithCast.
    unfold Spec.value_predicate in Hp.
    destruct (sqlite3_value_type value), (is_integral NT); simpl in *;
      try discriminate;
      match type of Hp with
      | context [sqlite_utils.GetPredicateForOp ?D op] =>
          destruct (sqlite_utils.GetPredicateForOp D op) as [test| |];
          simpl in *; try discriminate
      end;
      match type of Hp with
      | context [?extract value] =>
          destruct (extract value) as [literal| |]; simpl in *; try discriminate
      end;
      by injection Hp as <-.
  - unfold TsEndColumn.Filter.
    destruct (sqlite_utils.GetPredicateForOp sqlite_utils.int64_domain op) as [test| |];
      simpl in *; try discriminate.
    destruct (sqlite_utils.ExtractSqliteValue_int64 value) as [literal| |];
      simpl in *; try discriminate.
    by injection Hp as <-.
  - unfold IdColumn.Filter.
    destruct (sqlite_utils.GetPredicateForOp sqlite_utils.int64_domain op) as [test| |];
      simpl in *; try discriminate.
    destruct (sqlite_utils.ExtractSqliteValue_int64 value) as [literal| |];
      simpl in *; try discriminate.
    by injection Hp as <-.
Qed.

Lemma row_predicate_total (c : Column) (n : nat) (op : Z) (value : sqlite3_value)
    (p : Predicate) :
  Spec.has_rows c n ->
  Spec.row_predicate CreateRowId c op value = Ok p ->
  forall row, (row < n)%nat -> exists b, p row = Ok b.
Proof.
  intros Hrows Hp row Hrow.
  destruct c as [T NT BU col|col|col|col]; simpl in *.
  - destruct (Spec.value_predicate NT op value) as [p0| |]; simpl in *; try discriminate.
    injection Hp as <-. subst n.
    destruct (at_row_Some (NumericColumn.deque_ col) row Hrow) as [x ->].
    by eexists.
  - destruct (sqlite_utils.GetPredicateForOp Spec.text_domain op) as [test| |];
      simpl in *; try discriminate.
    destruct (Spec.ExtractSqliteValue_text value) as [literal| |];
      simpl in *; try discriminate.
    injection Hp as <-. destruct Hrows as [Hlen Hids]. subst n.
    unfold StringColumn.resolve, at_row.
    apply lookup_lt_is_Some_2 in Hrow as [id Hid]. rewrite Hid. simpl.
    rewrite Forall_forall in Hids.
    pose proof (Hids id (list_elem_of_lookup_2 _ _ _ Hid)) as Hlt.
    apply lookup_lt_is_Some_2 in Hlt as [str Hstr]. rewrite Hstr. simpl.
    by eexists.
  - destruct (sqlite_utils.GetPredicateForOp sqlite_utils.int64_domain op) as [test| |];
      simpl in *; try discriminate.
    destruct (sqlite_utils.ExtractSqliteValue_int64 value) as [literal| |];
      simpl in *; try discriminate.
    injection Hp as <-. destruct Hrows as [Hs Hd]. unfold TsEndColumn.ts_end.
    destruct (at_row_Some (TsEndColumn.ts_start_ col) row) as [s ->]; [lia|].
    destruct (at_row_Some (TsEndColumn.dur_ col) row) as [d ->]; [lia|].
    by eexists.
  - destruct (sqlite_utils.GetPredicateForOp sqlite_utils.int64_domain op) as [test| |];
      simpl in *; try discriminate.
    destruct (sqlite_utils.ExtractSqliteValue_int64 value) as [literal| |];
      simpl in *; try discriminate.
    injection Hp as <-. by eexists.
Qed.
End FilterEquivalence.

(** C3, as the code has it.  Over the full row range of a table, the rows
    that survive [Filter] of a numeric, end-time or row-identity column are
    the rows at which the naive evaluation of the predicate is true;
    [StringColumn::Filter] lets every row through, whatever the operator and
    the value. *)
Theorem Filter_equals_naive_evaluation (CreateRowId : Z -> nat -> Z) (c : Column)
    (n : nat) (op : Z) (value : sqlite3_value) :
  Spec.has_rows c n ->
  match c with
  | ColString _ => Filter CreateRowId c op value (all_rows n) = Ok (all_rows n)
  | _ =>
      forall p, Spec.row_predicate CreateRowId c op value = Ok p ->
        exists out, Filter CreateRowId c op value (all_rows n) = Ok out /\
          forall row, row ∈ out <-> (row < n)%nat /\ p row = Ok true
  end.
Proof.
  intros Hrows.
  assert (forall p, (if c is ColString _ then False else True) ->
            Spec.row_predicate CreateRowId c op value = Ok p ->
            exists out, Filter CreateRowId c op value (all_rows n) = Ok out /\
              forall row, row ∈ out <-> (row < n)%nat /\ p row = Ok true) as Hgen.
  { intros p Hkind Hp.
    rewrite (Filter_by_row_predicate CreateRowId c op value p _ Hkind Hp).
    destruct (FilterRows_total p (all_rows n)) as (out & Hout & Hmem).
    { intros row Hrow. apply elem_of_seq in Hrow.
      apply (row_predicate_total CreateRowId c n op value p Hrows Hp). lia. }
    exists out. split; [done|]. intros row. rewrite Hmem.
    unfold all_rows. rewrite elem_of_seq. split; intros [H1 H2]; (split; [lia|done]). }
  destruct c; try (intros p; by apply Hgen). reflexivity.
Qed.

Lemma Filter_equals_naive_evaluation_witness :
  exists out,
    Filter packed_row_id
      (ColNumeric int32_t (Spec.reference_bounds int32_t) scenario_column)
      SQLITE_INDEX_CONSTRAINT_GE (SqlInteger 20) (all_rows 5) = Ok out /\
    forall row, row ∈ out <->
      (row < 5)%nat /\
      (x ← at_row [10; 20; 20; 30; 40] row; Ok (20 <=? x)) = Ok true.
Proof.
  exact (Filter_equals_naive_evaluation packed_row_id
           (ColNumeric int32_t (Spec.reference_bounds int32_t) scenario_column)
           5 SQLITE_INDEX_CONSTRAINT_GE (SqlInteger 20) eq_refl
           (fun row => x ← at_row [10; 20; 20; 30; 40] row; Ok (20 <=? x)) eq_refl).
Defined.

(** C3, as stated, fails on the string column: for the constraint
    [= "foo"] on the texts [""], ["foo"], [""], every row survives [Filter]
    although the naive evaluation of the predicate is true at row 1 only. *)
Lemma StringColumn_Filter_keeps_unmatched_rows :
  let c := ColString scenario_strings in
  let value := SqlText "foo" in
  Spec.has_rows c 3 /\
  Filter packed_row_id c SQLITE_INDEX_CONSTRAINT_EQ value (all_rows 3) = Ok [0; 1; 2]%nat /\
  exists p, Spec.row_predicate packed_row_id c SQLITE_INDEX_CONSTRAINT_EQ value = Ok p /\
    p 0%nat = Ok false /\ p 1%nat = Ok true /\ p 2%nat = Ok false.
Proof.
  split.
  - split; [reflexivity|]. repeat constructor.
  - split; [reflexivity|]. eexists. split; [reflexivity|]. by vm_compute.
Qed.

(** ** ReportResult of a string column *)

Lemma until_nul_nul_free (str : string) :
  Spec.nul_free str -> until_nul str = str.
Proof.
  unfold Spec.nul_free. induction str as [|c str IH]; simpl; [done|].
  intros H. apply Forall_cons in H as [Hc Hstr].
  destruct (Ascii.eqb_spec c Ascii.zero) as [->|_]; [done|]. by rewrite IH.
Qed.

(** C8, as the code has it.  At a row whose id resolves to a text,
    [StringColumn::ReportResult] reports null exactly when that text is
    empty; otherwise it reports the text as a C string, which ends at the
    first NUL character: the exact text whenever it holds none. *)
Theorem StringColumn_ReportResult_null_convention (this : StringColumn.t)
    (ctx : sqlite3_context) (row id : nat) (str : string) :
  StringColumn.deque_ this !! row = Some id ->
  StringColumn.string_map_ this !! id = Some str ->
  exists ctx', StringColumn.ReportResult this ctx row = Ok ctx' /\
    (ctx_result ctx' = Some SqlNull <-> str = EmptyString) /\
    (str <> EmptyString -> ctx_result ctx' = Some (SqlText (until_nul str))) /\
    (str <> EmptyString -> Spec.nul_free str -> ctx_result ctx' = Some (SqlText str)).
Proof.
  intros Hid Hstr.
  unfold StringColumn.ReportResult, StringColumn.resolve, at_row.
  rewrite Hid. simpl. rewrite Hstr. simpl.
  destruct str as [|ch str]; simpl StringColumn.empty; cbv iota;
    eexists; (split; [reflexivity|]).
  - split; [done|]. split; intros H; by destruct H.
  - unfold sqlite3_result_text. simpl ctx_result. change (-1 <? 0) with true. cbv iota.
    split; [split; discriminate|]. split; [done|].
    intros _ Hfree.
    exact (f_equal (fun text => Some (SqlText text)) (until_nul_nul_free _ Hfree)).
Qed.

Lemma StringColumn_ReportResult_null_convention_witness :
  exists ctx',
    StringColumn.ReportResult scenario_strings {| ctx_result := None |} 1 = Ok ctx' /\
    (ctx_result ctx' = Some SqlNull <-> "foo"%string = EmptyString) /\
    ("foo"%string <> EmptyString -> ctx_result ctx' = Some (SqlText (until_nul "foo"))) /\
    ("foo"%string <> EmptyString -> Spec.nul_free "foo" ->
     ctx_result ctx' = Some (SqlText "foo")).
Proof.
  apply (StringColumn_ReportResult_null_convention scenario_strings
           {| ctx_result := None |} 1 1 "foo"); reflexivity.
Defined.

(** C8, as stated, fails on a text that holds a NUL character: the text
    of row 0 of [nul_strings] is ["a\0b"], not empty, and what is reported
    is the text ["a"]; the text of row 1 starts with a NUL, is not empty,
    and what is reported is an empty text, not null. *)
Lemma StringColumn_ReportResult_stops_at_NUL :
  let a_nul_b := String "a"%char (String Ascii.zero (String "b"%char EmptyString)) in
  let nul_x := String Ascii.zero (String "x"%char EmptyString) in
  let ctx := {| ctx_result := None |} in
  (StringColumn.resolve nul_strings 0%nat = Ok a_nul_b /\
   a_nul_b <> EmptyString /\
   StringColumn.ReportResult nul_strings ctx 0%nat
   = Ok {| ctx_result := Some (SqlText "a") |} /\
   SqlText "a" <> SqlText a_nul_b) /\
  (StringColumn.resolve nul_strings 1%nat = Ok nul_x /\
   nul_x <> EmptyString /\
   StringColumn.ReportResult nul_strings ctx 1%nat
   = Ok {| ctx_result := Some (SqlText EmptyString) |} /\
   SqlText EmptyString <> SqlText nul_x /\
   SqlText EmptyString <> SqlNull).
Proof. repeat split; (reflexivity || discriminate). Qed.

(** ** Sort *)

Section SortByKey.
Context {K : Type} (less le : K -> K -> bool) (key : nat -> result K).
Hypothesis laws : Spec.order_laws less le.
Hypothesis keys_comparable : forall row v, key row = Ok v -> le v v = true.

(** A comparison that does not put [v] after [w] means [v <= w]. *)
Lemma CompareValuesAsc_le (v w : K) :
  le v v = true -> le w w = true ->
  sqlite_utils.CompareValuesAsc less v w <= 0 -> le v w = true.
Proof.
  intros Hv Hw. unfold sqlite_utils.CompareValuesAsc.
  destruct (less v w) eqn:Hvw; [intros _; by apply (Spec.lt_le _ _ laws)|].
  destruct (less w v) eqn:Hwv; [lia|]. intros _. by apply (Spec.le_total _ _ laws).
Qed.

Lemma insert_row_by_key (row : nat) (v : K) (sorted : list nat) (values : list K) :
  key row = Ok v ->
  Forall2 (fun row v => key row = Ok v) sorted values ->
  Spec.non_decreasing le values ->
  exists out out_values,
    insert_row (key_ascending less key) row sorted = Ok out /\
    row :: sorted ≡ₚ out /\
    Forall2 (fun row v => key row = Ok v) out out_values /\
    v :: values ≡ₚ out_values /\
    Spec.non_decreasing le out_values.
Proof.
  intros Hv Hkeys. revert row v Hv.
  induction Hkeys as [|r w rest ws Hw Hrest IH]; intros row v Hv Hsorted.
  - exists [row], [v]. simpl. repeat split; try done.
    + by repeat constructor.
    + by repeat constructor.
  - assert (key_ascending less key row r = Ok (sqlite_utils.CompareValuesAsc less v w)) as Hcmp.
    { unfold key_ascending. by rewrite Hv, Hw. }
    cbn [insert_row]. rewrite Hcmp. cbn [mbind result_bind].
    pose proof (keys_comparable row v Hv) as Hvv.
    pose proof (keys_comparable r w Hw) as Hww.
    unfold Spec.non_decreasing in Hsorted.
    apply StronglySorted_inv in Hsorted as [Hsorted Hhd].
    destruct (Z.leb_spec (sqlite_utils.CompareValuesAsc less v w) 0) as [Hle|Hgt].
    + pose proof (CompareValuesAsc_le v w Hvv Hww Hle) as Hvw.
      exists (row :: r :: rest), (v :: w :: ws). repeat split; try done.
      * constructor; [done|]. by constructor.
      * constructor; [by constructor|]. constructor; [done|].
        eapply Forall_impl; [exact Hhd|]. intros x Hx. simpl in Hx.
        by apply (Spec.le_trans _ _ laws v w x).
    + assert (le w v = true) as Hwv.
      { unfold sqlite_utils.CompareValuesAsc in Hgt.
        destruct (less v w); [lia|]. destruct (less w v) eqn:Hless; [|lia].
        by apply (Spec.lt_le _ _ laws). }
      destruct (IH row v Hv Hsorted) as (out & ovs & Hins & Hperm & Hkeys' & Hperm' & Hsorted').
      rewrite Hins. cbn [mbind result_bind]. exists (r :: out), (w :: ovs). repeat split.
      * rewrite <- Hperm. apply perm_swap.
      * by constructor.
      * rewrite <- Hperm'. apply perm_swap.
      * constructor; [done|]. rewrite <- Hperm'. by constructor.
Qed.

Lemma ordered_by_key (rows : list nat) :
  Forall (fun row => exists v, key row = Ok v) rows ->
  Spec.ordered_by (key_ascending less key) rows ->
  Spec.keys_non_decreasing le key rows.
Proof.
  intros Hkeys Hordered. unfold Spec.keys_non_decreasing.
  assert (exists values,
            Forall2 (fun row v => key row = Ok v) rows values /\
            Sorted (fun x y => le x y = true) values) as (values & Hvalues & Hsorted).
  { induction Hkeys as [|row rest [v Hv] Hrest IH].
    - exists []. split; constructor.
    - apply Sorted_inv in Hordered as [Hordered Hhd].
      destruct (IH Hordered) as (values & Hvalues & Hsorted).
      exists (v :: values). split; [by constructor|].
      constructor; [done|].
      destruct Hvalues as [|r w rest' ws Hw Hrest']; constructor.
      apply HdRel_inv in Hhd as (c & Hc & Hle).
      unfold key_ascending in Hc. rewrite Hv, Hw in Hc. simpl in Hc.
      injection Hc as <-.
      apply CompareValuesAsc_le; [by eapply keys_comparable..|done]. }
  exists values. split; [done|].
  apply Sorted_StronglySorted; [|done].
  intros a b c. apply (Spec.le_trans _ _ laws).
Qed.

Lemma sort_rows_by_key (rows : list nat) :
  Forall (fun row => exists v, key row = Ok v) rows ->
  exists sorted,
    sort_rows (key_ascending less key) rows = Ok sorted /\
    rows ≡ₚ sorted /\
    Spec.keys_non_decreasing le key sorted.
Proof.
  induction 1 as [|row rest [v Hv] Hrest IH]; simpl.
  - exists []. repeat split; [done|]. exists []. split; constructor.
  - destruct IH as (sorted & Hsort & Hperm & values & Hkeys & Hsorted).
    rewrite Hsort. simpl.
    destruct (insert_row_by_key row v sorted values Hv Hkeys Hsorted)
      as (out & ovs & Hins & Hperm' & Hkeys' & _ & Hsorted').
    exists out. split; [done|]. split.
    + by rewrite Hperm.
    + by exists ovs.
Qed.
End SortByKey.

Lemma StringColumn_resolve_total (col : StringColumn.t) (row : nat) :
  Forall (fun id => (id < length (StringColumn.string_map_ col))%nat)
    (StringColumn.deque_ col) ->
  (row < length (StringColumn.deque_ col))%nat ->
  exists str, StringColumn.resolve col row = Ok str.
Proof.
  intros Hids Hrow. unfold StringColumn.resolve, at_row.
  apply lookup_lt_is_Some_2 in Hrow as [id Hid]. rewrite Hid. simpl.
  rewrite Forall_forall in Hids.
  pose proof (Hids id (list_elem_of_lookup_2 _ _ _ Hid)) as Hlt.
  apply lookup_lt_is_Some_2 in Hlt as [str Hstr]. rewrite Hstr. by exists str.
Qed.

Lemma TsEndColumn_ts_end_total (col : TsEndColumn.t) (row : nat) :
  (row < length (TsEndColumn.ts_start_ col))%nat ->
  (row < length (TsEndColumn.dur_ col))%nat ->
  exists v, TsEndColumn.ts_end col row = Ok v.
Proof.
  intros Hs Hd. unfold TsEndColumn.ts_end.
  destruct (at_row_Some _ row Hs) as [s ->].
  destruct (at_row_Some _ row Hd) as [d ->]. by eexists.
Qed.

Lemma String_leb_refl (str : string) : String.leb str str = true.
Proof. by destruct (String.leb_total str str). Qed.

(** C7, as the code has it.  For every column kind and all rows [a] and
    [b], the comparator [Sort] returns for a descending order is the
    negation of the one it returns for an ascending order.  When the values
    of the column are totally ordered (every column kind; a numeric column
    of a lawful element type when it holds no NaN): along any valid rows
    put in the order of the ascending comparator the underlying values are
    non-decreasing, each value [<=] every later one; and sorting valid
    rows with the ascending comparator yields such an order, a permutation
    of the rows. *)
Theorem Sort_direction_and_order (CreateRowId : Z -> nat -> Z) (c : Column)
    (n : nat) (rows : list nat) (i j : Z) :
  Spec.has_rows c n ->
  Forall (fun row => (row < n)%nat) rows ->
  let ascending := Sort CreateRowId c {| iColumn := i; desc := false |} in
  let descending := Sort CreateRowId c {| iColumn := j; desc := true |} in
  (forall a b, descending a b = Z.opp <$> ascending a b) /\
  (Spec.totally_ordered c ->
   (forall ordered, Forall (fun row => (row < n)%nat) ordered ->
      Spec.ordered_by ascending ordered ->
      Spec.values_non_decreasing CreateRowId c ordered) /\
   exists sorted,
     sort_rows ascending rows = Ok sorted /\
     rows ≡ₚ sorted /\
     Spec.values_non_decreasing CreateRowId c sorted).
Proof.
  intros Hrows Hvalid ascending descending. subst ascending descending.
  destruct c as [T NT BU col|col|col|col]; simpl in *.
  - assert (forall l, Forall (fun row => (row < n)%nat) l ->
              Forall (fun row => exists v, at_row (NumericColumn.deque_ col) row = Ok v) l)
      as Htotal.
    { intros l Hl. eapply Forall_impl; [exact Hl|]. intros row Hrow. simpl in Hrow.
      apply at_row_Some. lia. }
    split.
    { intros a b. unfold NumericColumn.Sort. simpl.
      destruct (at_row (NumericColumn.deque_ col) a); try reflexivity.
      destruct (at_row (NumericColumn.deque_ col) b); reflexivity. }
    intros [Hlaws Hcomparable].
    assert (forall row v, at_row (NumericColumn.deque_ col) row = Ok v ->
              less_equal NT v v = true) as Hkeys.
    { intros row v Hv. unfold at_row in Hv.
      destruct (NumericColumn.deque_ col !! row) as [x|] eqn:Hx; [|done].
      injection Hv as <-. unfold Spec.comparable in Hcomparable.
      rewrite Forall_forall in Hcomparable. apply Hcomparable.
      by eapply list_elem_of_lookup_2. }
    split.
    + intros ordered Hordered.
      apply (ordered_by_key (less NT) (less_equal NT) (at_row (NumericColumn.deque_ col))
               Hlaws Hkeys).
      by apply Htotal.
    + apply (sort_rows_by_key (less NT) (less_equal NT) (at_row (NumericColumn.deque_ col))
               Hlaws Hkeys).
      by apply Htotal.
  - destruct Hrows as [Hlen Hids].
    assert (forall l, Forall (fun row => (row < n)%nat) l ->
              Forall (fun row => exists v, StringColumn.resolve col row = Ok v) l)
      as Htotal.
    { intros l Hl. eapply Forall_impl; [exact Hl|]. intros row Hrow. simpl in Hrow.
      apply StringColumn_resolve_total; [done|lia]. }
    split.
    { intros a b. unfold StringColumn.Sort. simpl.
      destruct (StringColumn.resolve col a); try reflexivity.
      destruct (StringColumn.resolve col b); reflexivity. }
    intros _. split.
    + intros ordered Hordered.
      apply (ordered_by_key String.ltb String.leb (StringColumn.resolve col)
               String_order_laws).
      * intros row v _. apply String_leb_refl.
      * by apply Htotal.
    + apply (sort_rows_by_key String.ltb String.leb (StringColumn.resolve col)
               String_order_laws).
      * intros row v _. apply String_leb_refl.
      * by apply Htotal.
  - destruct Hrows as [Hs Hd].
    assert (forall l, Forall (fun row => (row < n)%nat) l ->
              Forall (fun row => exists v, TsEndColumn.ts_end col row = Ok v) l)
      as Htotal.
    { intros l Hl. eapply Forall_impl; [exact Hl|]. intros row Hrow. simpl in Hrow.
      apply TsEndColumn_ts_end_total; lia. }
    split.
    { intros a b. unfold TsEndColumn.Sort. simpl.
      destruct (TsEndColumn.ts_end col a); try reflexivity.
      destruct (TsEndColumn.ts_end col b); reflexivity. }
    intros _. split.
    + intros ordered Hordered.
      apply (ordered_by_key Z.ltb Z.leb (TsEndColumn.ts_end col) Z_order_laws).
      * intros row v _. apply Z.leb_refl.
      * by apply Htotal.
    + apply (sort_rows_by_key Z.ltb Z.leb (TsEndColumn.ts_end col) Z_order_laws).
      * intros row v _. apply Z.leb_refl.
      * by apply Htotal.
  - assert (forall l : list nat,
              Forall (fun row => exists v,
                        (Ok (CreateRowId (IdColumn.table_id_ col) row) : result Z) = Ok v) l)
      as Htotal.
    { intros l. apply Forall_forall. intros row _. by eexists. }
    split; [reflexivity|]. intros _. split.
    + intros ordered _.
      apply (ordered_by_key Z.ltb Z.leb
               (fun row => Ok (CreateRowId (IdColumn.table_id_ col) row)) Z_order_laws).
      * intros row v _. apply Z.leb_refl.
      * apply Htotal.
    + apply (sort_rows_by_key Z.ltb Z.leb
               (fun row => Ok (CreateRowId (IdColumn.table_id_ col) row)) Z_order_laws).
      * intros row v _. apply Z.leb_refl.
      * apply Htotal.
Qed.

Lemma Sort_direction_and_order_witness :
  let c := ColNumeric double Spec.reference_bounds_double double_column in
  let ascending := Sort packed_row_id c {| iColumn := 0; desc := false |} in
  let descending := Sort packed_row_id c {| iColumn := 0; desc := true |} in
  (forall a b, descending a b = Z.opp <$> ascending a b) /\
  (forall ordered, Forall (fun row => (row < 4)%nat) ordered ->
     Spec.ordered_by ascending ordered ->
     Spec.values_non_decreasing packed_row_id c ordered) /\
  exists sorted,
    sort_rows ascending [3; 0; 2; 1]%nat = Ok sorted /\
    [3; 0; 2; 1]%nat ≡ₚ sorted /\
    Spec.values_non_decreasing packed_row_id c sorted.
Proof.
  destruct (Sort_direction_and_order packed_row_id
              (ColNumeric double Spec.reference_bounds_double double_column)
              4 [3; 0; 2; 1]%nat 0 0) as [Hdirection Horder].
  - reflexivity.
  - repeat constructor.
  - split; [exact Hdirection|]. apply Horder.
    split; [exact double_lawful|repeat constructor].
Defined.

Example double_column_totally_ordered :
  Spec.totally_ordered (ColNumeric double Spec.reference_bounds_double double_column).
Proof. split; [exact double_lawful|repeat constructor]. Qed.

(** C7, as stated, fails on a [NumericColumn<double>] that holds a NaN:
    the ascending comparator of [nan_column], whose values are 3, NaN and
    1, finds no row out of place in the order 0, 1, 2, sorting the rows
    with it leaves them in that order, and the values along it are not
    non-decreasing: 1 comes after 3. *)
Lemma Sort_leaves_NaN_column_unordered :
  let c := ColNumeric double Spec.reference_bounds_double nan_column in
  let ascending := Sort packed_row_id c {| iColumn := 0; desc := false |} in
  Spec.has_rows c 3 /\
  Spec.ordered_by ascending [0; 1; 2]%nat /\
  sort_rows ascending [0; 1; 2]%nat = Ok [0; 1; 2]%nat /\
  (at_row (NumericColumn.deque_ nan_column) 0 = Ok 3%float /\
   at_row (NumericColumn.deque_ nan_column) 2 = Ok 1%float /\
   PrimFloat.ltb 1 3 = true) /\
  ~ Spec.values_non_decreasing packed_row_id c [0; 1; 2]%nat.
Proof.
  simpl. split; [reflexivity|]. split.
  { repeat constructor; eexists; (split; [reflexivity|]); vm_compute; discriminate. }
  split; [reflexivity|]. split; [by repeat split|].
  intros (values & Hvalues & Hsorted).
  apply Forall2_cons_inv_l in Hvalues as (v0 & values0 & Hv0 & Hvalues & ->).
  apply Forall2_cons_inv_l in Hvalues as (v1 & values1 & Hv1 & Hvalues & ->).
  apply Forall2_cons_inv_l in Hvalues as (v2 & values2 & Hv2 & Hvalues & ->).
  apply Forall2_nil_inv_l in Hvalues as ->.
  injection Hv0 as <-. injection Hv1 as <-. injection Hv2 as <-.
  apply StronglySorted_inv in Hsorted as [_ Hhd].
  apply Forall_cons in Hhd as [Hnan _]. vm_compute in Hnan. discriminate.
Qed.

Example sort_rows_scenario :
  sort_rows (Sort packed_row_id
               (ColNumeric int32_t (Spec.reference_bounds int32_t) scenario_column)
               {| iColumn := 0; desc := false |}) [4; 0; 2; 3; 1]%nat
  = Ok [0; 2; 1; 3; 4]%nat.
Proof. reflexivity. Qed.

(** ** What the calls change *)

Section Frame.
Context {O : Type}.

Lemma unchanged_ret {A} (a : A) : Effects.unchanged (mret a : Effects.M O A).
Proof. intros s a' s' H. by injection H as _ <-. Qed.

Lemma unchanged_bind {A B} (m : Effects.M O A) (k : A -> Effects.M O B) :
  Effects.unchanged m -> (forall a, Effects.unchanged (k a)) ->
  Effects.unchanged (m ≫= k).
Proof.
  intros Hm Hk s b s' H. unfold mbind, Effects.M_bind in H.
  destruct (m s) as [[a s1]| |] eqn:Hms; try discriminate.
  apply Hm in Hms as ->. by apply (Hk a s b s').
Qed.

Lemma unchanged_read {A} (member : O -> A) : Effects.unchanged (Effects.read member).
Proof. intros s a s' H. by injection H as _ <-. Qed.

Lemma unchanged_read_at {A} (deque : O -> list A) (row : nat) :
  Effects.unchanged (Effects.read_at deque row).
Proof.
  intros s a s' H. unfold Effects.read_at in H.
  destruct (at_row (deque (Effects.object s)) row); try discriminate.
  by injection H as _ <-.
Qed.

Lemma unchanged_lift {A} (outcome : result A) :
  Effects.unchanged (Effects.lift outcome : Effects.M O A).
Proof.
  intros s a s' H. unfold Effects.lift in H.
  destruct outcome; try discriminate. by injection H as _ <-.
Qed.

Lemma unchanged_fatal {A} (msg : string) :
  Effects.unchanged (Effects.fatal msg : Effects.M O A).
Proof. intros s a s' H. discriminate. Qed.

Lemma filter_rows_frame (predicate : nat -> Effects.M O bool) (rows : list nat) :
  (forall row, Effects.unchanged (predicate row)) ->
  forall s out s', Effects.filter_rows predicate rows s = Ok (out, s') ->
    s' = s /\ out `sublist_of` rows.
Proof.
  intros Hpredicate. induction rows as [|row rest IH]; intros s out s' H; simpl in H.
  - injection H as <- <-. split; [done|constructor].
  - unfold mbind, Effects.M_bind in H.
    destruct (predicate row s) as [[keep s1]| |] eqn:Hrow; try discriminate.
    apply Hpredicate in Hrow as ->.
    destruct (Effects.filter_rows predicate rest s) as [[rest' s2]| |] eqn:Hrest;
      try discriminate.
    destruct (IH s rest' s2 Hrest) as [-> Hsub].
    injection H as <- <-. split; [done|]. destruct keep; by constructor.
Qed.

Lemma narrows_FilterRows (predicate : nat -> Effects.M O bool) :
  (forall row, Effects.unchanged (predicate row)) ->
  Effects.narrows_index (Effects.FilterRows predicate).
Proof.
  intros Hpredicate s a s' H. unfold Effects.FilterRows in H.
  destruct (Effects.filter_rows predicate (Effects.index s) s) as [[rows s1]| |] eqn:Hrows;
    try discriminate.
  destruct (filter_rows_frame predicate _ Hpredicate s rows s1 Hrows) as [-> Hsub].
  by injection H as _ <-.
Qed.

Lemma narrows_unchanged {A} (m : Effects.M O A) :
  Effects.unchanged m -> Effects.narrows_index m.
Proof. intros Hm s a s' H. by apply Hm in H as ->. Qed.

Lemma narrows_bind {A B} (m : Effects.M O A) (k : A -> Effects.M O B) :
  Effects.unchanged m -> (forall a, Effects.narrows_index (k a)) ->
  Effects.narrows_index (m ≫= k).
Proof.
  intros Hm Hk s b s' H. unfold mbind, Effects.M_bind in H.
  destruct (m s) as [[a s1]| |] eqn:Hms; try discriminate.
  apply Hm in Hms as ->. by apply (Hk a s b s').
Qed.

Lemma writes_context_sqlite3_result (write : sqlite3_context -> sqlite3_context) :
  Effects.writes_context (Effects.sqlite3_result write : Effects.M O unit).
Proof. intros s a s' H. by injection H as _ <-. Qed.

Lemma writes_context_bind {A B} (m : Effects.M O A) (k : A -> Effects.M O B) :
  Effects.unchanged m -> (forall a, Effects.writes_context (k a)) ->
  Effects.writes_context (m ≫= k).
Proof.
  intros Hm Hk s b s' H. unfold mbind, Effects.M_bind in H.
  destruct (m s) as [[a s1]| |] eqn:Hms; try discriminate.
  apply Hm in Hms as ->. by apply (Hk a s b s').
Qed.
End Frame.

(** One step of a frame proof: through a bind, a branch, or a primitive. *)
Ltac frame_step :=
  first
    [ apply unchanged_ret | apply unchanged_read | apply unchanged_read_at
    | apply unchanged_lift | apply unchanged_fatal
    | apply writes_context_sqlite3_result
    | apply narrows_FilterRows; intros ?
    | apply unchanged_bind; [|intros ?]
    | apply writes_context_bind; [|intros ?]
    | apply narrows_bind; [|intros ?]
    | match goal with
      | |- context [if ?b then _ else _] => destruct b
      | |- context [let '(_, _) := ?p in _] => destruct p
      end ].

Lemma NumericColumn_calls_frame {T} (NT : NumericType T) (BU : sqlite_utils.BoundUtils T) :
  Effects.frame (Effects.NumericColumn_calls NT BU).
Proof.
  unfold Effects.frame. simpl. split; [|split; [|split; [|split; [|split]]]].
  - intros row. unfold Effects.NumericColumn_ReportResult. repeat frame_step.
  - intros op value. unfold Effects.NumericColumn_BoundFilter. repeat frame_step.
  - intros op value.
    unfold Effects.NumericColumn_Filter, Effects.NumericColumn_FilterWithCast.
    repeat frame_step. apply narrows_unchanged. frame_step.
  - intros ob. unfold Effects.NumericColumn_Sort. split.
    + repeat frame_step.
    + intros s cmp s' H a b. destruct (desc ob); injection H as <- _; repeat frame_step.
  - unfold Effects.NumericColumn_GetType. repeat frame_step.
  - unfold Effects.NumericColumn_IsNaturallyOrdered. frame_step.
Qed.

Lemma StringColumn_calls_frame : Effects.frame Effects.StringColumn_calls.
Proof.
  unfold Effects.frame. simpl. split; [|split; [|split; [|split; [|split]]]].
  - intros row. unfold Effects.StringColumn_ReportResult, Effects.StringColumn_resolve.
    repeat frame_step.
  - intros op value. unfold Effects.StringColumn_BoundFilter. repeat frame_step.
  - intros op value. apply narrows_unchanged. unfold Effects.StringColumn_Filter. frame_step.
  - intros ob. unfold Effects.StringColumn_Sort, Effects.StringColumn_resolve. split.
    + repeat frame_step.
    + intros s cmp s' H a b. destruct (desc ob); injection H as <- _; repeat frame_step.
  - frame_step.
  - frame_step.
Qed.

Lemma TsEndColumn_calls_frame : Effects.frame Effects.TsEndColumn_calls.
Proof.
  unfold Effects.frame. simpl. split; [|split; [|split; [|split; [|split]]]].
  - intros row. unfold Effects.TsEndColumn_ReportResult, Effects.TsEndColumn_ts_end.
    repeat frame_step.
  - intros op value. unfold Effects.TsEndColumn_BoundFilter. repeat frame_step.
  - intros op value. unfold Effects.TsEndColumn_Filter, Effects.TsEndColumn_ts_end.
    repeat frame_step.
  - intros ob. unfold Effects.TsEndColumn_Sort, Effects.TsEndColumn_ts_end. split.
    + repeat frame_step.
    + intros s cmp s' H a b. destruct (desc ob); injection H as <- _; repeat frame_step.
  - frame_step.
  - frame_step.
Qed.

Lemma IdColumn_calls_frame (CreateRowId : Z -> nat -> Z) :
  Effects.frame (Effects.IdColumn_calls CreateRowId).
Proof.
  unfold Effects.frame. simpl. split; [|split; [|split; [|split; [|split]]]].
  - intros row. unfold Effects.IdColumn_ReportResult. repeat frame_step.
  - intros op value. unfold Effects.IdColumn_BoundFilter. frame_step.
  - intros op value. unfold Effects.IdColumn_Filter. repeat frame_step.
  - intros ob. unfold Effects.IdColumn_Sort. split.
    + repeat frame_step.
    + intros s cmp s' H a b. destruct (desc ob); injection H as <- _; repeat frame_step.
  - frame_step.
  - frame_step.
Qed.

(** *** The computations are the methods *)

Lemma bind_run {O A B} (m : Effects.M O A) (k : A -> Effects.M O B)
    (s : Effects.Memory O) :
  (m ≫= k) s = match m s with
               | Ok (a, s') => k a s'
               | Fatal msg => Fatal msg
               | OutOfContract => OutOfContract
               end.
Proof. reflexivity. Qed.

(** A predicate that reads the memory filters as the function it
    computes. *)
Lemma filter_rows_pure {O} (predicate : nat -> Effects.M O bool)
    (test : nat -> result bool) (rows : list nat) (s : Effects.Memory O) :
  (forall row, predicate row s = (fun keep => (keep, s)) <$> test row) ->
  Effects.filter_rows predicate rows s = (fun out => (out, s)) <$> FilterRows test rows.
Proof.
  intros Hpredicate. induction rows as [|row rest IH]; simpl; [done|].
  rewrite bind_run, Hpredicate.
  destruct (test row) as [keep| |]; simpl; try done.
  rewrite bind_run, IH.
  by destruct (FilterRows test rest) as [rest'| |].
Qed.

Lemma FilterRows_pure {O} (predicate : nat -> Effects.M O bool)
    (test : nat -> result bool) (s : Effects.Memory O) :
  (forall row, predicate row s = (fun keep => (keep, s)) <$> test row) ->
  Effects.FilterRows predicate s
  = (fun rows => (tt, Effects.with_index s rows)) <$> FilterRows test (Effects.index s).
Proof.
  intros Hpredicate. unfold Effects.FilterRows.
  rewrite (filter_rows_pure predicate test _ s Hpredicate).
  by destruct (FilterRows test (Effects.index s)).
Qed.

Lemma read_at_pure {O A} (deque : O -> list A) (row : nat) (s : Effects.Memory O) :
  Effects.read_at deque row s = (fun x => (x, s)) <$> at_row (deque (Effects.object s)) row.
Proof. unfold Effects.read_at. by destruct (at_row (deque (Effects.object s)) row). Qed.

Lemma NumericColumn_calls_refine {T} (NT : NumericType T) (BU : sqlite_utils.BoundUtils T)
    (CreateRowId : Z -> nat -> Z) :
  refines CreateRowId (Effects.NumericColumn_calls NT BU) (ColNumeric NT BU).
Proof.
  intros s c. subst c. simpl. split; [|split; [|split; [|split; [|split]]]].
  - intros row. unfold Effects.NumericColumn_ReportResult, NumericColumn.ReportResult.
    rewrite bind_run, read_at_pure.
    by destruct (at_row (NumericColumn.deque_ (Effects.object s)) row).
  - intros op value. unfold Effects.NumericColumn_BoundFilter, NumericColumn.BoundFilter.
    destruct (NumericColumn.resolve_range NT BU op value) as [min max].
    unfold mbind, Effects.M_bind, Effects.read, mret, Effects.M_ret. cbv beta iota zeta.
    destruct (NumericColumn.is_naturally_ordered_ (Effects.object s));
      cbn [negb]; cbv beta iota; [|done].
    by destruct (less_equal NT min (NumericColumn.kTMin NT) &&
                 less_equal NT (NumericColumn.kTMax NT) max).
  - intros op value.
    unfold Effects.NumericColumn_Filter, NumericColumn.Filter,
      Effects.NumericColumn_FilterWithCast, NumericColumn.FilterWithCast.
    destruct (bool_decide (sqlite3_value_type value = SQLITE_INTEGER) && is_integral NT).
    + rewrite bind_run. unfold Effects.lift at 1.
      destruct (sqlite_utils.GetPredicateForOp sqlite_utils.int64_domain op) as [test| |];
        try done.
      rewrite bind_run. unfold Effects.lift at 1.
      destruct (sqlite_utils.ExtractSqliteValue sqlite_utils.int64_domain value)
        as [literal| |]; try done.
      simpl. apply FilterRows_pure. intros row.
      rewrite bind_run, read_at_pure.
      by destruct (at_row (NumericColumn.deque_ (Effects.object s)) row).
    + destruct (bool_decide (sqlite3_value_type value = SQLITE_INTEGER) ||
                bool_decide (sqlite3_value_type value = SQLITE_FLOAT)); [|done].
      rewrite bind_run. unfold Effects.lift at 1.
      destruct (sqlite_utils.GetPredicateForOp sqlite_utils.double_domain op) as [test| |];
        try done.
      rewrite bind_run. unfold Effects.lift at 1.
      destruct (sqlite_utils.ExtractSqliteValue sqlite_utils.double_domain value)
        as [literal| |]; try done.
      simpl. apply FilterRows_pure. intros row.
      rewrite bind_run, read_at_pure.
      by destruct (at_row (NumericColumn.deque_ (Effects.object s)) row).
  - intros ob. unfold Effects.NumericColumn_Sort, NumericColumn.Sort.
    destruct (desc ob); eexists; (split; [reflexivity|]); intros a b; cbv beta;
      rewrite bind_run, read_at_pure;
      (destruct (at_row (NumericColumn.deque_ (Effects.object s)) a); try done); simpl;
      rewrite bind_run, read_at_pure;
      by destruct (at_row (NumericColumn.deque_ (Effects.object s)) b).
  - unfold Effects.NumericColumn_GetType, NumericColumn.GetType.
    repeat match goal with
           | |- context [if ?b then _ else _] => destruct b; [done|]
           end.
    done.
  - done.
Qed.

Lemma StringColumn_resolve_pure (row : nat) (s : Effects.Memory StringColumn.t) :
  Effects.StringColumn_resolve row s
  = (fun str => (str, s)) <$> StringColumn.resolve (Effects.object s) row.
Proof.
  unfold Effects.StringColumn_resolve, StringColumn.resolve.
  rewrite bind_run, read_at_pure.
  destruct (at_row (StringColumn.deque_ (Effects.object s)) row) as [id| |]; [|done..].
  apply read_at_pure.
Qed.

Lemma StringColumn_calls_refine (CreateRowId : Z -> nat -> Z) :
  refines CreateRowId Effects.StringColumn_calls ColString.
Proof.
  intros s c. subst c. simpl. split; [|split; [|split; [|split; [|split]]]].
  - intros row. unfold Effects.StringColumn_ReportResult, StringColumn.ReportResult.
    rewrite bind_run, StringColumn_resolve_pure.
    destruct (StringColumn.resolve (Effects.object s) row) as [str| |]; try done.
    simpl. by destruct (StringColumn.empty str).
  - intros; reflexivity.
  - intros op value. by destruct s.
  - intros ob. unfold Effects.StringColumn_Sort, StringColumn.Sort.
    destruct (desc ob); eexists; (split; [reflexivity|]); intros a b; cbv beta;
      rewrite bind_run, StringColumn_resolve_pure;
      (destruct (StringColumn.resolve (Effects.object s) a); try done); simpl;
      rewrite bind_run, StringColumn_resolve_pure;
      by destruct (StringColumn.resolve (Effects.object s) b).
  - intros; reflexivity.
  - intros; reflexivity.
Qed.

Lemma TsEndColumn_ts_end_pure (row : nat) (s : Effects.Memory TsEndColumn.t) :
  Effects.TsEndColumn_ts_end row s
  = (fun v => (v, s)) <$> TsEndColumn.ts_end (Effects.object s) row.
Proof.
  unfold Effects.TsEndColumn_ts_end, TsEndColumn.ts_end.
  rewrite bind_run, read_at_pure.
  destruct (at_row (TsEndColumn.ts_start_ (Effects.object s)) row) as [start| |]; try done.
  simpl. rewrite bind_run, read_at_pure.
  by destruct (at_row (TsEndColumn.dur_ (Effects.object s)) row).
Qed.

Lemma TsEndColumn_calls_refine (CreateRowId : Z -> nat -> Z) :
  refines CreateRowId Effects.TsEndColumn_calls ColTsEnd.
Proof.
  intros s c. subst c. simpl. split; [|split; [|split; [|split; [|split]]]].
  - intros row. unfold Effects.TsEndColumn_ReportResult, TsEndColumn.ReportResult.
    rewrite bind_run, TsEndColumn_ts_end_pure.
    by destruct (TsEndColumn.ts_end (Effects.object s) row).
  - intros; reflexivity.
  - intros op value. unfold Effects.TsEndColumn_Filter, TsEndColumn.Filter.
    rewrite bind_run. unfold Effects.lift at 1.
    destruct (sqlite_utils.GetPredicateForOp sqlite_utils.int64_domain op) as [test| |];
      try done.
    rewrite bind_run. unfold Effects.lift at 1.
    destruct (sqlite_utils.ExtractSqliteValue sqlite_utils.int64_domain value)
      as [literal| |]; try done.
    simpl. apply FilterRows_pure. intros row.
    rewrite bind_run, TsEndColumn_ts_end_pure.
    by destruct (TsEndColumn.ts_end (Effects.object s) row).
  - intros ob. unfold Effects.TsEndColumn_Sort, TsEndColumn.Sort.
    destruct (desc ob); eexists; (split; [reflexivity|]); intros a b; cbv beta;
      rewrite bind_run, TsEndColumn_ts_end_pure;
      (destruct (TsEndColumn.ts_end (Effects.object s) a); try done); simpl;
      rewrite bind_run, TsEndColumn_ts_end_pure;
      by destruct (TsEndColumn.ts_end (Effects.object s) b).
  - intros; reflexivity.
  - intros; reflexivity.
Qed.

Lemma IdColumn_calls_refine (CreateRowId : Z -> nat -> Z) :
  refines CreateRowId (Effects.IdColumn_calls CreateRowId) ColId.
Proof.
  intros s c. subst c. simpl. split; [|split; [|split; [|split; [|split]]]].
  - intros; reflexivity.
  - intros; reflexivity.
  - intros op value. unfold Effects.IdColumn_Filter, IdColumn.Filter.
    rewrite bind_run. unfold Effects.lift at 1.
    destruct (sqlite_utils.GetPredicateForOp sqlite_utils.int64_domain op) as [test| |];
      try done.
    rewrite bind_run. unfold Effects.lift at 1.
    destruct (sqlite_utils.ExtractSqliteValue sqlite_utils.int64_domain value)
      as [literal| |]; try done.
    simpl. by apply FilterRows_pure.
  - intros ob. unfold Effects.IdColumn_Sort, IdColumn.Sort.
    destruct (desc ob); by eexists.
  - intros; reflexivity.
  - intros; reflexivity.
Qed.

(** C10.  For each of the four column classes: [BoundFilter], [Sort] (and
    the comparator it returns), [GetType] and [IsNaturallyOrdered] leave the
    memory as it was, the column object with the sequences it points to,
    the candidate rows and the context; [ReportResult] leaves the column
    object, the sequences and the candidate rows as they were and writes
    the result slot of the context only; [Filter] leaves the column object,
    the sequences and the context as they were, and what it leaves of the
    candidate rows is a sublist of what they were. *)
Theorem column_calls_frame :
  (forall T (NT : NumericType T) (BU : sqlite_utils.BoundUtils T),
     Effects.frame (Effects.NumericColumn_calls NT BU)) /\
  Effects.frame Effects.StringColumn_calls /\
  Effects.frame Effects.TsEndColumn_calls /\
  (forall CreateRowId, Effects.frame (Effects.IdColumn_calls CreateRowId)).
Proof.
  split; [|split; [|split]].
  - intros T NT BU. apply NumericColumn_calls_frame.
  - apply StringColumn_calls_frame.
  - apply TsEndColumn_calls_frame.
  - intros CreateRowId. apply IdColumn_calls_frame.
Qed.

Lemma column_calls_frame_witness :
  let calls := Effects.NumericColumn_calls int32_t (Spec.reference_bounds int32_t) in
  let s := {| Effects.object := scenario_column; Effects.index := all_rows 5;
              Effects.context := {| ctx_result := None |} |} in
  exists s',
    Effects.Filter calls SQLITE_INDEX_CONSTRAINT_GE (SqlInteger 20) s = Ok (tt, s') /\
    Effects.index s' = [1; 2; 3; 4]%nat /\
    Effects.object s' = Effects.object s /\
    Effects.context s' = Effects.context s /\
    Effects.index s' `sublist_of` Effects.index s.
Proof.
  intros calls s. eexists. split; [reflexivity|]. split; [reflexivity|].
  destruct column_calls_frame as [Hnumeric _].
  destruct (Hnumeric Z int32_t (Spec.reference_bounds int32_t)) as (_ & _ & Hfilter & _).
  exact (Hfilter SQLITE_INDEX_CONSTRAINT_GE (SqlInteger 20) s tt _ eq_refl).
Defined.

(** * Further properties of the columns *)

(** ** The indices of consumed bounds *)

Section ConsumedIndices.
Context {T : Type} (NT : NumericType T) (BU : sqlite_utils.BoundUtils T).
Context (this : NumericColumn.t T) (op : Z) (value : sqlite3_value).
Hypothesis laws : Spec.lawful NT.
Hypothesis ordered : NumericColumn.is_naturally_ordered_ this = true.
Hypothesis sorted : Spec.sorted_ascending NT (NumericColumn.deque_ this).
Hypothesis size_fits : Z.of_nat (length (NumericColumn.deque_ this)) <= uint32_max.

(** Consumed bounds are the two indices of the binary searches, and the
    searches split the sequence by [min] and by [max]. *)
Lemma BoundFilter_consumed_indices :
  let min := fst (NumericColumn.resolve_range NT BU op value) in
  let max := snd (NumericColumn.resolve_range NT BU op value) in
  let deque := NumericColumn.deque_ this in
  consumed (NumericColumn.BoundFilter NT BU this op value) = true ->
  exists r r' : nat,
    (r <= r' <= length deque)%nat /\
    NumericColumn.BoundFilter NT BU this op value
    = {| min_idx := Z.of_nat r; max_idx := Z.of_nat r'; consumed := true |} /\
    (forall i x, (i < r)%nat -> deque !! i = Some x -> less NT x min = true) /\
    (forall i x, (r <= i)%nat -> deque !! i = Some x -> less NT x min = false) /\
    (forall i x, (r <= i < r')%nat -> deque !! i = Some x -> less NT max x = false) /\
    (forall i x, (r' <= i)%nat -> deque !! i = Some x -> less NT max x = true).
Proof.
  intros min max deque. subst min max. unfold NumericColumn.BoundFilter.
  rewrite ordered. simpl negb. cbv iota.
  destruct (NumericColumn.resolve_range NT BU op value) as [min max].
  simpl fst. simpl snd. fold deque.
  destruct (less_equal NT min (NumericColumn.kTMin NT) &&
            less_equal NT (NumericColumn.kTMax NT) max); [discriminate|].
  cbv zeta. intros _.
  destruct (lower_bound_spec NT laws deque 0 (length deque) min sorted)
    as (Hr & Hlo & Hhi); [lia|].
  set (r := std.lower_bound (less NT) deque 0 (length deque) min) in *.
  destruct (upper_bound_spec NT laws deque r (length deque) max sorted)
    as (Hr' & Hlo' & Hhi'); [lia|].
  set (r' := std.upper_bound (less NT) deque r (length deque) max) in *.
  exists r, r'. split; [lia|]. split.
  { simpl.
    rewrite (static_cast_uint32_small r (length deque)) by (lia || done).
    by rewrite (static_cast_uint32_small r' (length deque)) by (lia || done). }
  split; [|split; [|split]].
  - intros i x Hi Hx. apply (Hlo i x); [lia|done].
  - intros i x Hi Hx. apply (Hhi i x); [|done]. apply lookup_lt_Some in Hx. lia.
  - intros i x Hi Hx. by apply (Hlo' i x).
  - intros i x Hi Hx. apply (Hhi' i x); [|done]. apply lookup_lt_Some in Hx. lia.
Qed.
End ConsumedIndices.

(** X1. For a naturally ordered numeric column whose sequence is sorted
    ascending (so free of NaN), over an element type whose [<] and [<=] are
    lawful (the integer types and [double]), a row lies inside consumed
    bounds exactly when its stored value lies in the inclusive range
    [(min, max)] that the operator and the literal resolved to. *)
Theorem BoundFilter_consumed_rows {T} (NT : NumericType T)
    (BU : sqlite_utils.BoundUtils T) (this : NumericColumn.t T)
    (op : Z) (value : sqlite3_value) (row : nat) (x : T) :
  Spec.lawful NT ->
  NumericColumn.is_naturally_ordered_ this = true ->
  Spec.sorted_ascending NT (NumericColumn.deque_ this) ->
  Z.of_nat (length (NumericColumn.deque_ this)) <= uint32_max ->
  consumed (NumericColumn.BoundFilter NT BU this op value) = true ->
  NumericColumn.deque_ this !! row = Some x ->
  let bounds := NumericColumn.BoundFilter NT BU this op value in
  let range := NumericColumn.resolve_range NT BU op value in
  min_idx bounds <= Z.of_nat row < max_idx bounds
  <-> less NT x (fst range) = false /\ less NT (snd range) x = false.
Proof.
  intros Hlaws Hordered Hsorted Hsize Hconsumed Hx bounds range. subst bounds range.
  destruct (BoundFilter_rows NT BU this op value Hlaws Hordered Hsorted Hsize)
    as [[_ Hfull]|(_ & _ & Hrows)].
  - rewrite Hfull in Hconsumed. discriminate.
  - by apply Hrows.
Qed.

Lemma BoundFilter_consumed_rows_witness :
  let bounds :=
    NumericColumn.BoundFilter double Spec.reference_bounds_double double_column
      SQLITE_INDEX_CONSTRAINT_GE (SqlFloat 1.5) in
  let range :=
    NumericColumn.resolve_range double Spec.reference_bounds_double
      SQLITE_INDEX_CONSTRAINT_GE (SqlFloat 1.5) in
  min_idx bounds <= Z.of_nat 3 < max_idx bounds
  <-> less double 4%float (fst range) = false /\ less double (snd range) 4%float = false.
Proof.
  apply (BoundFilter_consumed_rows double Spec.reference_bounds_double double_column
           SQLITE_INDEX_CONSTRAINT_GE (SqlFloat 1.5) 3 4%float double_lawful eq_refl).
  - split; repeat constructor.
  - vm_compute. discriminate.
  - reflexivity.
  - reflexivity.
Defined.

(** The elements a predicate accepts, when they are the elements of one
    run of indices, are as many as the run is long. *)
Lemma filter_run_length {A} (p : A -> bool) (l : list A) (r r' : nat) :
  (r <= r' <= length l)%nat ->
  (forall i x, l !! i = Some x -> (r <= i < r')%nat <-> p x = true) ->
  length (List.filter p l) = (r' - r)%nat.
Proof.
  revert r r'. induction l as [|a l IH]; intros r r' Hr Hrun; simpl in *.
  - lia.
  - pose proof (Hrun 0%nat a eq_refl) as Ha.
    destruct (p a) eqn:Hpa.
    + assert (r = 0%nat /\ (0 < r')%nat) as [-> Hr'].
      { destruct Ha as [_ Ha]. specialize (Ha eq_refl). lia. }
      simpl. rewrite (IH 0%nat (r' - 1)%nat); [lia|lia|].
      intros i x Hx. rewrite <- (Hrun (S i) x Hx). lia.
    + destruct r as [|r].
      * assert (r' = 0%nat) as ->.
        { destruct r'; [done|]. destruct Ha as [Ha _].
          assert (false = true) by (apply Ha; lia). discriminate. }
        rewrite (IH 0%nat 0%nat); [lia|lia|].
        intros i x Hx. rewrite <- (Hrun (S i) x Hx). lia.
      * rewrite (IH r (r' - 1)%nat); [lia|lia|].
        intros i x Hx. rewrite <- (Hrun (S i) x Hx). lia.
Qed.

(** X2. For a naturally ordered numeric column whose sequence is sorted
    ascending (so free of NaN), over an element type whose [<] and [<=] are
    lawful, consumed bounds hold as many rows as the sequence holds values
    in the resolved range [(min, max)]: none when no stored value lies in
    the range. *)
Theorem BoundFilter_consumed_count {T} (NT : NumericType T)
    (BU : sqlite_utils.BoundUtils T) (this : NumericColumn.t T)
    (op : Z) (value : sqlite3_value) :
  Spec.lawful NT ->
  NumericColumn.is_naturally_ordered_ this = true ->
  Spec.sorted_ascending NT (NumericColumn.deque_ this) ->
  Z.of_nat (length (NumericColumn.deque_ this)) <= uint32_max ->
  consumed (NumericColumn.BoundFilter NT BU this op value) = true ->
  let bounds := NumericColumn.BoundFilter NT BU this op value in
  let range := NumericColumn.resolve_range NT BU op value in
  max_idx bounds - min_idx bounds
  = Z.of_nat (length (List.filter
                        (fun x => negb (less NT x (fst range)) && negb (less NT (snd range) x))
                        (NumericColumn.deque_ this))).
Proof.
  intros Hlaws Hordered Hsorted Hsize Hconsumed bounds range. subst bounds range.
  destruct (BoundFilter_consumed_indices NT BU this op value Hlaws Hordered Hsorted Hsize
              Hconsumed) as (r & r' & Hr & -> & Hlo & Hhi & Hlo' & Hhi').
  simpl min_idx. simpl max_idx.
  rewrite (filter_run_length _ _ r r' Hr); [lia|].
  intros i x Hx. rewrite andb_true_iff, !negb_true_iff. split.
  - intros Hi. split; [apply (Hhi i x)|apply (Hlo' i x)]; (lia || done).
  - intros [Hmin Hmax].
    destruct (decide (i < r)%nat) as [Hlt|Hge].
    { rewrite (Hlo i x) in Hmin; [done|lia|done]. }
    destruct (decide (i < r')%nat) as [Hlt'|Hge']; [lia|].
    rewrite (Hhi' i x) in Hmax; [done|lia|done].
Qed.

Lemma BoundFilter_consumed_count_witness :
  let bounds :=
    NumericColumn.BoundFilter double Spec.reference_bounds_double double_column
      SQLITE_INDEX_CONSTRAINT_EQ (SqlFloat 1.5) in
  let range :=
    NumericColumn.resolve_range double Spec.reference_bounds_double
      SQLITE_INDEX_CONSTRAINT_EQ (SqlFloat 1.5) in
  max_idx bounds - min_idx bounds
  = Z.of_nat (length (List.filter
                        (fun x => negb (less double x (fst range)) &&
                                  negb (less double (snd range) x))
                        (NumericColumn.deque_ double_column))).
Proof.
  apply (BoundFilter_consumed_count double Spec.reference_bounds_double double_column
           SQLITE_INDEX_CONSTRAINT_EQ (SqlFloat 1.5) double_lawful eq_refl).
  - split; repeat constructor.
  - vm_compute. discriminate.
  - reflexivity.
Defined.

(** X3. On a naturally ordered column of an integer type with more than
    one value, [BoundFilter] consumes every equality constraint: whatever
    the literal (a text and null included) and whatever the bound helper
    returns, the range is never left to [Filter]. *)
Theorem BoundFilter_eq_always_consumes (id : cpp_type) (lo hi : Z)
    (BU : sqlite_utils.BoundUtils Z) (this : NumericColumn.t Z) (value : sqlite3_value) :
  lo < hi ->
  NumericColumn.is_naturally_ordered_ this = true ->
  consumed (NumericColumn.BoundFilter (integer_type id lo hi) BU this
              SQLITE_INDEX_CONSTRAINT_EQ value) = true.
Proof.
  intros Hlohi Hordered. unfold NumericColumn.BoundFilter.
  rewrite Hordered. simpl negb. cbv iota. rewrite resolve_range_eq.
  unfold NumericColumn.kTMin, NumericColumn.kTMax. simpl.
  destruct (Z.leb_spec (sqlite_utils.FindEqBound BU value) lo);
    destruct (Z.leb_spec hi (sqlite_utils.FindEqBound BU value)); simpl; try done.
  lia.
Qed.

Lemma BoundFilter_eq_always_consumes_witness :
  consumed (NumericColumn.BoundFilter int32_t (Spec.reference_bounds int32_t)
              scenario_column SQLITE_INDEX_CONSTRAINT_EQ (SqlText "twenty")) = true.
Proof.
  apply (BoundFilter_eq_always_consumes cpp_int32_t (- 2 ^ 31) (2 ^ 31 - 1)
           (Spec.reference_bounds int32_t) scenario_column (SqlText "twenty")).
  - reflexivity.
  - reflexivity.
Defined.

(** X4. [NumericColumn::BoundFilter] narrows nothing unless the column is
    naturally ordered and the operator is one of [=], [>=], [>], [<=], [<]:
    for any other operator ([!=] among them), as for a column that is not
    naturally ordered, it returns the unconsumed range over the whole
    sequence, whatever the literal and the bound helpers. *)
Theorem BoundFilter_unconsumed_operators {T} (NT : NumericType T)
    (BU : sqlite_utils.BoundUtils T) (this : NumericColumn.t T)
    (op : Z) (value : sqlite3_value) :
  less_equal NT (NumericColumn.kTMin NT) (NumericColumn.kTMin NT) = true ->
  less_equal NT (NumericColumn.kTMax NT) (NumericColumn.kTMax NT) = true ->
  NumericColumn.is_naturally_ordered_ this = false \/
  (op <> SQLITE_INDEX_CONSTRAINT_EQ /\ op <> SQLITE_INDEX_CONSTRAINT_GE /\
   op <> SQLITE_INDEX_CONSTRAINT_GT /\ op <> SQLITE_INDEX_CONSTRAINT_LE /\
   op <> SQLITE_INDEX_CONSTRAINT_LT) ->
  NumericColumn.BoundFilter NT BU this op value
  = {| min_idx := 0;
       max_idx := static_cast_uint32 (Z.of_nat (length (NumericColumn.deque_ this)));
       consumed := false |}.
Proof.
  intros Hmin Hmax Hcase. unfold NumericColumn.BoundFilter.
  destruct (NumericColumn.is_naturally_ordered_ this); simpl negb; cbv iota; [|done].
  destruct Hcase as [Hcase|(Heq & Hge & Hgt & Hle & Hlt)]; [discriminate|].
  unfold NumericColumn.resolve_range, sqlite_utils.IsOpEq, sqlite_utils.IsOpGe,
    sqlite_utils.IsOpGt, sqlite_utils.IsOpLe, sqlite_utils.IsOpLt.
  repeat match goal with
         | |- context [op =? ?k] => destruct (Z.eqb_spec op k) as [?|_]; [done|]
         end.
  simpl. by rewrite Hmin, Hmax.
Qed.

Lemma BoundFilter_unconsumed_operators_witness :
  NumericColumn.BoundFilter int32_t (Spec.reference_bounds int32_t) scenario_column
    SQLITE_INDEX_CONSTRAINT_NE (SqlInteger 20)
  = {| min_idx := 0;
       max_idx := static_cast_uint32 (Z.of_nat (length (NumericColumn.deque_ scenario_column)));
       consumed := false |}.
Proof.
  apply (BoundFilter_unconsumed_operators int32_t (Spec.reference_bounds int32_t)
           scenario_column SQLITE_INDEX_CONSTRAINT_NE (SqlInteger 20)).
  - reflexivity.
  - reflexivity.
  - right. repeat split; discriminate.
Defined.

(** A search that every element of the range sends right ends at the end
    of the range; one that no element sends right ends at its start. *)
Lemma bisect_all_right {T} (go_right : T -> bool) (deque : list T) (first len : nat) :
  (first + len <= length deque)%nat ->
  (forall i x, (first <= i < first + len)%nat -> deque !! i = Some x -> go_right x = true) ->
  std.bisect go_right deque first len = (first + len)%nat.
Proof.
  intros Hlen Hall.
  pose proof (bisect_range go_right deque first len) as Hr.
  destruct (bisect_partition go_right deque first len Hlen) as [_ Hhi].
  { intros i j x y Hij Hj Hx Hy _. apply (Hall i x); [lia|done]. }
  set (r := std.bisect go_right deque first len) in *.
  destruct (decide (r < first + len)%nat) as [Hlt|Hge]; [|lia].
  assert (r < length deque)%nat as Hr' by lia.
  apply lookup_lt_is_Some_2 in Hr' as [x Hx].
  assert (go_right x = false) as Hfalse by (apply (Hhi r x); [lia|done]).
  rewrite (Hall r x) in Hfalse; [done|lia|done].
Qed.

Lemma bisect_all_left {T} (go_right : T -> bool) (deque : list T) (first len : nat) :
  (first + len <= length deque)%nat ->
  (forall i x, (first <= i < first + len)%nat -> deque !! i = Some x -> go_right x = false) ->
  std.bisect go_right deque first len = first.
Proof.
  intros Hlen Hall.
  pose proof (bisect_range go_right deque first len) as Hr.
  destruct (bisect_partition go_right deque first len Hlen) as [Hlo _].
  { intros i j x y Hij Hj Hx Hy Hgo. rewrite (Hall j y) in Hgo; [done|lia|done]. }
  set (r := std.bisect go_right deque first len) in *.
  destruct (decide (first < r)%nat) as [Hlt|Hge]; [|lia].
  assert (first < length deque)%nat as Hfirst by lia.
  apply lookup_lt_is_Some_2 in Hfirst as [x Hx].
  assert (go_right x = true) as Htrue by (apply (Hlo first x); [lia|done]).
  rewrite (Hall first x) in Htrue; [done|lia|done].
Qed.

(** X5. On a naturally ordered numeric column whose values do not exceed
    the largest value of the element type, consumed bounds for [>=] and for
    [>] run to the end of the sequence: the rows a lower bound keeps are a
    suffix of the table. *)
Theorem BoundFilter_greater_is_suffix {T} (NT : NumericType T)
    (BU : sqlite_utils.BoundUtils T) (this : NumericColumn.t T)
    (op : Z) (value : sqlite3_value) :
  NumericColumn.is_naturally_ordered_ this = true ->
  Z.of_nat (length (NumericColumn.deque_ this)) <= uint32_max ->
  op = SQLITE_INDEX_CONSTRAINT_GE \/ op = SQLITE_INDEX_CONSTRAINT_GT ->
  Forall (fun x => less NT (NumericColumn.kTMax NT) x = false) (NumericColumn.deque_ this) ->
  consumed (NumericColumn.BoundFilter NT BU this op value) = true ->
  max_idx (NumericColumn.BoundFilter NT BU this op value)
  = Z.of_nat (length (NumericColumn.deque_ this)).
Proof.
  intros Hordered Hsize Hop Hmax. unfold NumericColumn.BoundFilter.
  rewrite Hordered. simpl negb. cbv iota.
  assert (snd (NumericColumn.resolve_range NT BU op value) = NumericColumn.kTMax NT) as Hsnd.
  { by destruct Hop as [-> | ->]. }
  destruct (NumericColumn.resolve_range NT BU op value) as [min max]. simpl in Hsnd.
  subst max. set (deque := NumericColumn.deque_ this) in *.
  destruct (less_equal NT min (NumericColumn.kTMin NT) &&
            less_equal NT (NumericColumn.kTMax NT) (NumericColumn.kTMax NT));
    [discriminate|].
  cbv zeta. intros _. cbn [max_idx with_consumed with_max_idx].
  pose proof (bisect_range (fun x => less NT x min) deque 0 (length deque - 0)) as Hr.
  fold (std.lower_bound (less NT) deque 0 (length deque) min) in Hr.
  set (r := std.lower_bound (less NT) deque 0 (length deque) min) in *.
  unfold std.upper_bound. rewrite bisect_all_right.
  - rewrite (static_cast_uint32_small _ (length deque)) by (lia || done). lia.
  - lia.
  - intros i x Hi Hx. apply negb_true_iff. rewrite Forall_forall in Hmax.
    apply Hmax. by eapply list_elem_of_lookup_2.
Qed.

Lemma BoundFilter_greater_is_suffix_witness :
  max_idx (NumericColumn.BoundFilter double Spec.reference_bounds_double
             double_column SQLITE_INDEX_CONSTRAINT_GT (SqlFloat 1.5))
  = Z.of_nat (length (NumericColumn.deque_ double_column)).
Proof.
  apply (BoundFilter_greater_is_suffix double Spec.reference_bounds_double
           double_column SQLITE_INDEX_CONSTRAINT_GT (SqlFloat 1.5) eq_refl).
  - vm_compute. discriminate.
  - by right.
  - repeat constructor.
  - reflexivity.
Defined.

(** X6. On a naturally ordered numeric column whose values are not below
    the lowest value of the element type, consumed bounds for [<=] and for
    [<] start at row 0: the rows an upper bound keeps are a prefix of the
    table. *)
Theorem BoundFilter_less_is_prefix {T} (NT : NumericType T)
    (BU : sqlite_utils.BoundUtils T) (this : NumericColumn.t T)
    (op : Z) (value : sqlite3_value) :
  NumericColumn.is_naturally_ordered_ this = true ->
  Z.of_nat (length (NumericColumn.deque_ this)) <= uint32_max ->
  op = SQLITE_INDEX_CONSTRAINT_LE \/ op = SQLITE_INDEX_CONSTRAINT_LT ->
  Forall (fun x => less NT x (NumericColumn.kTMin NT) = false) (NumericColumn.deque_ this) ->
  consumed (NumericColumn.BoundFilter NT BU this op value) = true ->
  min_idx (NumericColumn.BoundFilter NT BU this op value) = 0.
Proof.
  intros Hordered Hsize Hop Hmin. unfold NumericColumn.BoundFilter.
  rewrite Hordered. simpl negb. cbv iota.
  assert (fst (NumericColumn.resolve_range NT BU op value) = NumericColumn.kTMin NT) as Hfst.
  { by destruct Hop as [-> | ->]. }
  destruct (NumericColumn.resolve_range NT BU op value) as [min max]. simpl in Hfst.
  subst min. set (deque := NumericColumn.deque_ this) in *.
  destruct (less_equal NT (NumericColumn.kTMin NT) (NumericColumn.kTMin NT) &&
            less_equal NT (NumericColumn.kTMax NT) max);
    [discriminate|].
  cbv zeta. intros _. cbn [min_idx with_consumed with_max_idx with_min_idx].
  unfold std.lower_bound. rewrite bisect_all_left.
  - reflexivity.
  - lia.
  - intros i x Hi Hx. rewrite Forall_forall in Hmin.
    apply Hmin. by eapply list_elem_of_lookup_2.
Qed.

Lemma BoundFilter_less_is_prefix_witness :
  min_idx (NumericColumn.BoundFilter double Spec.reference_bounds_double
             double_column SQLITE_INDEX_CONSTRAINT_LE (SqlFloat 1.5)) = 0.
Proof.
  apply (BoundFilter_less_is_prefix double Spec.reference_bounds_double
           double_column SQLITE_INDEX_CONSTRAINT_LE (SqlFloat 1.5) eq_refl).
  - vm_compute. discriminate.
  - by left.
  - repeat constructor.
  - reflexivity.
Defined.

(** ** Rows already stored, after the storage grew *)

Lemma at_row_app {A} (deque more : list A) (row : nat) :
  (row < length deque)%nat -> at_row (deque ++ more) row = at_row deque row.
Proof. intros Hrow. unfold at_row. by rewrite lookup_app_l. Qed.

Lemma FilterRows_ext (p q : Predicate) (index : FilteredRowIndex) :
  Forall (fun row => p row = q row) index ->
  FilterRows p index = FilterRows q index.
Proof.
  induction 1 as [|row rest Hrow Hrest IH]; simpl; [done|].
  by rewrite Hrow, IH.
Qed.

(** X7. Appending to the deque a numeric column views changes nothing for
    the rows it already held: [ReportResult] reports the same value at such
    a row and the comparators of [Sort] give the same answer on two such
    rows. *)
Theorem NumericColumn_stored_rows_stable {T} (NT : NumericType T)
    (this : NumericColumn.t T) (more : list T) (ctx : sqlite3_context)
    (ob : OrderBy) (f s : nat) :
  (f < length (NumericColumn.deque_ this))%nat ->
  (s < length (NumericColumn.deque_ this))%nat ->
  NumericColumn.ReportResult NT (Storage.append_numeric this more) ctx f
  = NumericColumn.ReportResult NT this ctx f /\
  NumericColumn.Sort NT (Storage.append_numeric this more) ob f s
  = NumericColumn.Sort NT this ob f s.
Proof.
  intros Hf Hs. split.
  - unfold NumericColumn.ReportResult. simpl. by rewrite at_row_app.
  - unfold NumericColumn.Sort. simpl. destruct (desc ob); by rewrite !at_row_app.
Qed.

Lemma NumericColumn_stored_rows_stable_witness :
  NumericColumn.ReportResult int32_t (Storage.append_numeric scenario_column [50; 60])
    {| ctx_result := None |} 4%nat
  = NumericColumn.ReportResult int32_t scenario_column {| ctx_result := None |} 4%nat /\
  NumericColumn.Sort int32_t (Storage.append_numeric scenario_column [50; 60])
    {| iColumn := 0; desc := true |} 4%nat 1%nat
  = NumericColumn.Sort int32_t scenario_column {| iColumn := 0; desc := true |} 4%nat 1%nat.
Proof.
  apply (NumericColumn_stored_rows_stable int32_t scenario_column [50; 60]
           {| ctx_result := None |} {| iColumn := 0; desc := true |} 4%nat 1%nat).
  - simpl. lia.
  - simpl. lia.
Defined.

(** X8. Appending to the deque a numeric column views does not change
    what [Filter] keeps of candidate rows the column already held. *)
Theorem NumericColumn_Filter_stable {T} (NT : NumericType T)
    (this : NumericColumn.t T) (more : list T) (op : Z) (value : sqlite3_value)
    (index : FilteredRowIndex) :
  Forall (fun row => (row < length (NumericColumn.deque_ this))%nat) index ->
  NumericColumn.Filter NT (Storage.append_numeric this more) op value index
  = NumericColumn.Filter NT this op value index.
Proof.
  intros Hindex. unfold NumericColumn.Filter, NumericColumn.FilterWithCast.
  destruct (bool_decide (sqlite3_value_type value = SQLITE_INTEGER) && is_integral NT).
  - destruct (sqlite_utils.GetPredicateForOp sqlite_utils.int64_domain op); try done.
    destruct (sqlite_utils.ExtractSqliteValue sqlite_utils.int64_domain value); try done.
    simpl. apply FilterRows_ext. eapply Forall_impl; [exact Hindex|].
    intros row Hrow. simpl in Hrow. by rewrite at_row_app.
  - destruct (bool_decide (sqlite3_value_type value = SQLITE_INTEGER) ||
              bool_decide (sqlite3_value_type value = SQLITE_FLOAT)); [|done].
    destruct (sqlite_utils.GetPredicateForOp sqlite_utils.double_domain op); try done.
    destruct (sqlite_utils.ExtractSqliteValue sqlite_utils.double_domain value); try done.
    simpl. apply FilterRows_ext. eapply Forall_impl; [exact Hindex|].
    intros row Hrow. simpl in Hrow. by rewrite at_row_app.
Qed.

Lemma NumericColumn_Filter_stable_witness :
  NumericColumn.Filter int32_t (Storage.append_numeric scenario_column [50; 60])
    SQLITE_INDEX_CONSTRAINT_GE (SqlInteger 20) (all_rows 5)
  = NumericColumn.Filter int32_t scenario_column
      SQLITE_INDEX_CONSTRAINT_GE (SqlInteger 20) (all_rows 5).
Proof.
  apply (NumericColumn_Filter_stable int32_t scenario_column [50; 60]
           SQLITE_INDEX_CONSTRAINT_GE (SqlInteger 20) (all_rows 5)).
  repeat constructor.
Defined.

(** X9. Appending ids to the deque and texts to the string table a string
    column views changes nothing for the rows it already held, as long as
    their ids were in the table: [ReportResult] reports the same text or
    null, and the comparators of [Sort] give the same answer. *)
Theorem StringColumn_stored_rows_stable (this : StringColumn.t)
    (more_ids : list nat) (more_strings : list string) (ctx : sqlite3_context)
    (ob : OrderBy) (f s : nat) :
  Forall (fun id => (id < length (StringColumn.string_map_ this))%nat)
    (StringColumn.deque_ this) ->
  (f < length (StringColumn.deque_ this))%nat ->
  (s < length (StringColumn.deque_ this))%nat ->
  let grown := Storage.append_strings this more_ids more_strings in
  StringColumn.ReportResult grown ctx f = StringColumn.ReportResult this ctx f /\
  StringColumn.Sort grown ob f s = StringColumn.Sort this ob f s.
Proof.
  intros Hids Hf Hs grown. subst grown.
  assert (forall row, (row < length (StringColumn.deque_ this))%nat ->
            StringColumn.resolve (Storage.append_strings this more_ids more_strings) row
            = StringColumn.resolve this row) as Hresolve.
  { intros row Hrow. unfold StringColumn.resolve. simpl.
    rewrite at_row_app by done.
    destruct (at_row (StringColumn.deque_ this) row) as [id| |] eqn:Hid; try done.
    simpl. unfold at_row in Hid.
    destruct (StringColumn.deque_ this !! row) as [id'|] eqn:Hid'; [|done].
    injection Hid as ->. rewrite Forall_forall in Hids. apply at_row_app, Hids.
    by eapply list_elem_of_lookup_2. }
  split.
  - unfold StringColumn.ReportResult. by rewrite Hresolve.
  - unfold StringColumn.Sort. destruct (desc ob); by rewrite !Hresolve.
Qed.

Lemma StringColumn_stored_rows_stable_witness :
  let grown := Storage.append_strings scenario_strings [2; 1]%nat ["bar"%string] in
  StringColumn.ReportResult grown {| ctx_result := None |} 1%nat
  = StringColumn.ReportResult scenario_strings {| ctx_result := None |} 1%nat /\
  StringColumn.Sort grown {| iColumn := 0; desc := false |} 1%nat 2%nat
  = StringColumn.Sort scenario_strings {| iColumn := 0; desc := false |} 1%nat 2%nat.
Proof.
  apply (StringColumn_stored_rows_stable scenario_strings [2; 1]%nat ["bar"%string]
           {| ctx_result := None |} {| iColumn := 0; desc := false |} 1%nat 2%nat).
  - repeat constructor.
  - simpl. lia.
  - simpl. lia.
Defined.

(** ** Filters one after the other *)

Lemma FilterRows_Ok_filter (p : Predicate) (index out : FilteredRowIndex) :
  FilterRows p index = Ok out ->
  out = List.filter (passes p) index /\
  Forall (fun row => exists b, p row = Ok b) index.
Proof.
  revert out. induction index as [|row rest IH]; intros out H; simpl in H.
  - injection H as <-. by split.
  - cbn [List.filter]. unfold passes at 1.
    destruct (p row) as [keep| |] eqn:Hrow; simpl in H; try discriminate.
    destruct (FilterRows p rest) as [rest'| |]; simpl in H; try discriminate.
    injection H as <-. destruct (IH rest' eq_refl) as [-> Hall]. split.
    + by destruct keep.
    + constructor; [by exists keep|done].
Qed.

Lemma FilterRows_filter (p : Predicate) (index : FilteredRowIndex) :
  Forall (fun row => exists b, p row = Ok b) index ->
  FilterRows p index = Ok (List.filter (passes p) index).
Proof.
  induction 1 as [|row rest [keep Hrow] Hrest IH]; [done|].
  cbn [FilterRows List.filter]. unfold passes at 1. rewrite Hrow, IH.
  simpl. by destruct keep.
Qed.

Lemma Forall_List_filter {A} (P : A -> Prop) (f : A -> bool) (l : list A) :
  Forall P l -> Forall P (List.filter f l).
Proof.
  induction 1 as [|x l Hx Hl IH]; simpl; [constructor|].
  destruct (f x); [by constructor|done].
Qed.

Lemma List_filter_comm {A} (f g : A -> bool) (l : list A) :
  List.filter f (List.filter g l) = List.filter g (List.filter f l).
Proof.
  induction l as [|x l IH]; simpl; [done|].
  destruct (f x) eqn:Hf, (g x) eqn:Hg; simpl; rewrite ?Hf, ?Hg, IH; done.
Qed.

Lemma List_filter_idem {A} (f : A -> bool) (l : list A) :
  List.filter f (List.filter f l) = List.filter f l.
Proof.
  induction l as [|x l IH]; simpl; [done|].
  destruct (f x) eqn:Hf; simpl; rewrite ?Hf, IH; done.
Qed.

Lemma FilterRows_pass_all (index : FilteredRowIndex) :
  FilterRows (fun _ => Ok true) index = Ok index.
Proof. induction index as [|row rest IH]; simpl; [done|]. by rewrite IH. Qed.

(** A [Filter] that returns narrows by one predicate on rows, the same for
    every candidate set. *)
Lemma Filter_has_predicate (CreateRowId : Z -> nat -> Z) (c : Column) (op : Z)
    (value : sqlite3_value) (index out : FilteredRowIndex) :
  Filter CreateRowId c op value index = Ok out ->
  exists keep : Predicate,
    forall candidates, Filter CreateRowId c op value candidates = FilterRows keep candidates.
Proof.
  intros H. destruct c as [T NT BU col|col|col|col]; simpl in *.
  - unfold NumericColumn.Filter, NumericColumn.FilterWithCast in *.
    destruct (bool_decide (sqlite3_value_type value = SQLITE_INTEGER) && is_integral NT).
    + destruct (sqlite_utils.GetPredicateForOp sqlite_utils.int64_domain op) as [test| |];
        try discriminate.
      destruct (sqlite_utils.ExtractSqliteValue sqlite_utils.int64_domain value)
        as [literal| |]; try discriminate.
      by eexists.
    + destruct (bool_decide (sqlite3_value_type value = SQLITE_INTEGER) ||
                bool_decide (sqlite3_value_type value = SQLITE_FLOAT)); [|discriminate].
      destruct (sqlite_utils.GetPredicateForOp sqlite_utils.double_domain op) as [test| |];
        try discriminate.
      destruct (sqlite_utils.ExtractSqliteValue sqlite_utils.double_domain value)
        as [literal| |]; try discriminate.
      by eexists.
  - exists (fun _ => Ok true). intros candidates.
    unfold StringColumn.Filter. by rewrite FilterRows_pass_all.
  - unfold TsEndColumn.Filter in *.
    destruct (sqlite_utils.GetPredicateForOp sqlite_utils.int64_domain op) as [test| |];
      try discriminate.
    destruct (sqlite_utils.ExtractSqliteValue sqlite_utils.int64_domain value)
      as [literal| |]; try discriminate.
    by eexists.
  - unfold IdColumn.Filter in *.
    destruct (sqlite_utils.GetPredicateForOp sqlite_utils.int64_domain op) as [test| |];
      try discriminate.
    destruct (sqlite_utils.ExtractSqliteValue sqlite_utils.int64_domain value)
      as [literal| |]; try discriminate.
    by eexists.
Qed.

(** X10. The order in which two constraints are filtered does not matter:
    when [Filter] of one column, then [Filter] of another (or of the same)
    leave the rows [b] of a candidate set, and the second [Filter] alone
    returns on that set, then applying the first to what the second leaves
    gives [b] again. *)
Theorem Filter_order_irrelevant (CreateRowId : Z -> nat -> Z) (c1 c2 : Column)
    (op1 op2 : Z) (value1 value2 : sqlite3_value) (index a b a' : FilteredRowIndex) :
  Filter CreateRowId c1 op1 value1 index = Ok a ->
  Filter CreateRowId c2 op2 value2 a = Ok b ->
  Filter CreateRowId c2 op2 value2 index = Ok a' ->
  Filter CreateRowId c1 op1 value1 a' = Ok b.
Proof.
  intros H1 H2 H3.
  destruct (Filter_has_predicate CreateRowId c1 op1 value1 index a H1) as [keep1 Hkeep1].
  destruct (Filter_has_predicate CreateRowId c2 op2 value2 a b H2) as [keep2 Hkeep2].
  rewrite Hkeep1 in H1. rewrite Hkeep2 in H2, H3. rewrite Hkeep1.
  apply FilterRows_Ok_filter in H1 as [-> Htotal1].
  apply FilterRows_Ok_filter in H2 as [-> _].
  apply FilterRows_Ok_filter in H3 as [-> _].
  rewrite FilterRows_filter by by apply Forall_List_filter.
  by rewrite List_filter_comm.
Qed.

Lemma Filter_order_irrelevant_witness :
  Filter packed_row_id
    (ColNumeric int32_t (Spec.reference_bounds int32_t) scenario_column)
    SQLITE_INDEX_CONSTRAINT_GE (SqlInteger 20) [0; 1; 2; 3]%nat
  = Ok [1; 2; 3]%nat.
Proof.
  apply (Filter_order_irrelevant packed_row_id
           (ColNumeric int32_t (Spec.reference_bounds int32_t) scenario_column)
           (ColNumeric int32_t (Spec.reference_bounds int32_t) scenario_column)
           SQLITE_INDEX_CONSTRAINT_GE SQLITE_INDEX_CONSTRAINT_LT
           (SqlInteger 20) (SqlInteger 40)
           (all_rows 5) [1; 2; 3; 4]%nat [1; 2; 3]%nat [0; 1; 2; 3]%nat);
    reflexivity.
Defined.

(** X11. Filtering twice by the same constraint is filtering once: [Filter]
    applied to the rows it left returns them unchanged. *)
Theorem Filter_idempotent (CreateRowId : Z -> nat -> Z) (c : Column)
    (op : Z) (value : sqlite3_value) (index out : FilteredRowIndex) :
  Filter CreateRowId c op value index = Ok out ->
  Filter CreateRowId c op value out = Ok out.
Proof.
  intros H.
  destruct (Filter_has_predicate CreateRowId c op value index out H) as [keep Hkeep].
  rewrite Hkeep in H. rewrite Hkeep.
  apply FilterRows_Ok_filter in H as [-> Htotal].
  rewrite FilterRows_filter by by apply Forall_List_filter.
  by rewrite List_filter_idem.
Qed.

Lemma Filter_idempotent_witness :
  Filter packed_row_id
    (ColNumeric int32_t (Spec.reference_bounds int32_t) scenario_column)
    SQLITE_INDEX_CONSTRAINT_GE (SqlInteger 20) [1; 2; 3; 4]%nat
  = Ok [1; 2; 3; 4]%nat.
Proof.
  apply (Filter_idempotent packed_row_id
           (ColNumeric int32_t (Spec.reference_bounds int32_t) scenario_column)
           SQLITE_INDEX_CONSTRAINT_GE (SqlInteger 20) (all_rows 5)).
  reflexivity.
Defined.

(** ** Row ids, reported and looked up *)

Lemma FilterRows_none (p : Predicate) (index : FilteredRowIndex) :
  Forall (fun row => p row = Ok false) index -> FilterRows p index = Ok [].
Proof.
  induction 1 as [|row rest Hrow Hrest IH]; simpl; [done|]. by rewrite Hrow, IH.
Qed.

(** X12. The id [IdColumn::ReportResult] reports for a row finds that row
    again: among candidate rows without repetition whose ids differ from the
    id of the row, [Filter] with [=] and the reported id leaves that row and
    no other. *)
Theorem IdColumn_reported_id_finds_row (CreateRowId : Z -> nat -> Z)
    (this : IdColumn.t) (ctx : sqlite3_context) (index : FilteredRowIndex) (row : nat) :
  NoDup index ->
  row ∈ index ->
  (forall r, r ∈ index ->
     CreateRowId (IdColumn.table_id_ this) r = CreateRowId (IdColumn.table_id_ this) row ->
     r = row) ->
  exists id,
    IdColumn.ReportResult CreateRowId this ctx row = Ok (sqlite3_result_int64 ctx id) /\
    IdColumn.Filter CreateRowId this SQLITE_INDEX_CONSTRAINT_EQ (SqlInteger id) index
    = Ok [row].
Proof.
  intros Hnodup Hrow Hinj.
  exists (CreateRowId (IdColumn.table_id_ this) row). split; [reflexivity|].
  unfold IdColumn.Filter. simpl.
  set (id := CreateRowId (IdColumn.table_id_ this) row) in *.
  induction index as [|r rest IH]; [by apply elem_of_nil in Hrow|].
  apply NoDup_cons in Hnodup as [Hr Hnodup]. simpl.
  destruct (decide (r = row)) as [->|Hne].
  - fold id. rewrite Z.eqb_refl.
    rewrite FilterRows_none; [done|].
    apply Forall_forall. intros r' Hr'. f_equal. apply Z.eqb_neq. intros Heq.
    apply Hr. rewrite <- (Hinj r'); [done|by right|done].
  - assert ((CreateRowId (IdColumn.table_id_ this) r =? id) = false) as ->.
    { apply Z.eqb_neq. intros Heq. apply Hne, Hinj; [by left|done]. }
    rewrite IH; [done|done| |].
    + apply elem_of_cons in Hrow as [->|Hrow]; [done|done].
    + intros r' Hr' Heq. apply Hinj; [by right|done].
Qed.

Lemma IdColumn_reported_id_finds_row_witness :
  exists id,
    IdColumn.ReportResult packed_row_id
      {| IdColumn.col_name_ := "id"; IdColumn.table_id_ := 3 |} {| ctx_result := None |} 1
    = Ok (sqlite3_result_int64 {| ctx_result := None |} id) /\
    IdColumn.Filter packed_row_id
      {| IdColumn.col_name_ := "id"; IdColumn.table_id_ := 3 |}
      SQLITE_INDEX_CONSTRAINT_EQ (SqlInteger id) [0; 1; 2]%nat
    = Ok [1%nat].
Proof.
  apply (IdColumn_reported_id_finds_row packed_row_id
           {| IdColumn.col_name_ := "id"; IdColumn.table_id_ := 3 |}
           {| ctx_result := None |} [0; 1; 2]%nat 1%nat).
  - apply (bool_decide_unpack _). vm_compute. reflexivity.
  - apply (bool_decide_unpack _). vm_compute. reflexivity.
  - intros r Hr Heq.
    repeat (apply elem_of_cons in Hr as [->|Hr]; [try done; vm_compute in Heq; discriminate|]).
    by apply elem_of_nil in Hr.
Defined.

(** ** Empty texts in the order of a string column *)

(** X13. In the order of a string column an empty text is a text, not a
    null: a row whose text is empty, which [ReportResult] reports as null,
    compares before every row with a non-empty text and equal to every other
    row with an empty text in the ascending comparator, and the other way
    round in the descending one. *)
Theorem StringColumn_Sort_empty_text_first (this : StringColumn.t)
    (ctx : sqlite3_context) (i j : Z) (f s : nat) (str : string) :
  StringColumn.resolve this f = Ok EmptyString ->
  StringColumn.resolve this s = Ok str ->
  StringColumn.ReportResult this ctx f = Ok (sqlite3_result_null ctx) /\
  StringColumn.Sort this {| iColumn := i; desc := false |} f s
  = Ok (if StringColumn.empty str then 0 else -1) /\
  StringColumn.Sort this {| iColumn := j; desc := true |} f s
  = Ok (if StringColumn.empty str then 0 else 1).
Proof.
  intros Hf Hs. unfold StringColumn.ReportResult, StringColumn.Sort. simpl.
  rewrite Hf, Hs. simpl. by destruct str.
Qed.

Lemma StringColumn_Sort_empty_text_first_witness :
  StringColumn.ReportResult scenario_strings {| ctx_result := None |} 0%nat
  = Ok (sqlite3_result_null {| ctx_result := None |}) /\
  StringColumn.Sort scenario_strings {| iColumn := 0; desc := false |} 0%nat 1%nat
  = Ok (if StringColumn.empty "foo" then 0 else -1) /\
  StringColumn.Sort scenario_strings {| iColumn := 0; desc := true |} 0%nat 1%nat
  = Ok (if StringColumn.empty "foo" then 0 else 1).
Proof.
  apply (StringColumn_Sort_empty_text_first scenario_strings {| ctx_result := None |}
           0 0 0%nat 1%nat "foo"); reflexivity.
Defined.

(** ** The integer path of Filter *)

(** X14. On a column of an integer type, [Filter] with an integer literal
    and one of the six comparison operators compares exact integers: of
    candidate rows the column holds it keeps those, and only those, whose
    stored value stands to the literal as the operator says. *)
Theorem Filter_integer_exact (id : cpp_type) (lo hi : Z) (this : NumericColumn.t Z)
    (op i : Z) (index : FilteredRowIndex) :
  Forall (fun row => (row < length (NumericColumn.deque_ this))%nat) index ->
  op = SQLITE_INDEX_CONSTRAINT_EQ \/ op = SQLITE_INDEX_CONSTRAINT_NE \/
  op = SQLITE_INDEX_CONSTRAINT_LT \/ op = SQLITE_INDEX_CONSTRAINT_LE \/
  op = SQLITE_INDEX_CONSTRAINT_GT \/ op = SQLITE_INDEX_CONSTRAINT_GE ->
  exists out,
    NumericColumn.Filter (integer_type id lo hi) this op (SqlInteger i) index = Ok out /\
    forall row, row ∈ out <->
      row ∈ index /\
      exists x, NumericColumn.deque_ this !! row = Some x /\ Spec.holds op x i.
Proof.
  intros Hindex Hop.
  assert (exists test, sqlite_utils.GetPredicateForOp sqlite_utils.int64_domain op = Ok test)
    as [test Htest].
  { destruct Hop as [->|[->|[->|[->|[->| ->]]]]]; by eexists. }
  unfold NumericColumn.Filter, NumericColumn.FilterWithCast. simpl.
  rewrite Htest. simpl.
  destruct (FilterRows_total
              (fun row => val ← at_row (NumericColumn.deque_ this) row; Ok (test val i))
              index) as (out & Hout & Hmem).
  { intros row Hrow. rewrite Forall_forall in Hindex.
    destruct (at_row_Some _ row (Hindex row Hrow)) as [x ->]. by eexists. }
  exists out. split; [done|]. intros row. rewrite Hmem.
  split; intros [Hrow H]; (split; [done|]).
  - unfold at_row in H.
    destruct (NumericColumn.deque_ this !! row) as [x|]; [|done].
    simpl in H. injection H as H. exists x. split; [done|].
    by apply (int64_test_holds op test x i Htest).
  - destruct H as (x & Hx & Hholds). unfold at_row. rewrite Hx. simpl. f_equal.
    by apply (int64_test_holds op test x i Htest).
Qed.

Lemma Filter_integer_exact_witness :
  exists out,
    NumericColumn.Filter (integer_type cpp_int64_t int64_min int64_max) rounding_column
      SQLITE_INDEX_CONSTRAINT_EQ (SqlInteger (2 ^ 53)) (all_rows 2) = Ok out /\
    forall row, row ∈ out <->
      row ∈ all_rows 2 /\
      exists x, NumericColumn.deque_ rounding_column !! row = Some x /\
                Spec.holds SQLITE_INDEX_CONSTRAINT_EQ x (2 ^ 53).
Proof.
  apply (Filter_integer_exact cpp_int64_t int64_min int64_max rounding_column
           SQLITE_INDEX_CONSTRAINT_EQ (2 ^ 53) (all_rows 2)).
  - repeat constructor.
  - by left.
Defined.
